(** * e9patch: the ELF emission core (e9elf.cpp, e9loader.h)

    A shallow embedding of [parseElf], [emitRefactoredPatch],
    [emitLoaderMap] and [emitElf], and the properties of the ELF emission
    core that are stated about them.

    Conventions.
    - C integers are values of [Z]; every conversion and every operation
      of a fixed-width type is written with the wrap-around of its type
      ([u64], [s64], [u32], [s32], [u16]).  [size_t] is 64-bit unsigned,
      [intptr_t] and [off_t] are 64-bit signed (x86-64 Linux, the only
      target of the file).
    - The work buffer [B->patched.bytes] is a byte memory [mem] indexed by
      the offset from its start; a pointer into the buffer is that offset.
      Structures that the code reads and writes through casted pointers
      ([Elf64_Ehdr], [Elf64_Phdr], [Elf64_Dyn], [e9_config_s],
      [e9_map_s]) are accessed with little-endian loads and stores at the
      field offsets of their declarations, so that aliasing between them
      is the aliasing of the code.
    - [error(...)] never returns: a call is the [Err] result, one
      constructor of [Error] per call site.
    - Statistics counters ([stat_*]), [debug] and [warning] output are
      left out. *)

From Stdlib Require Import ZArith List Bool Lia.
Import ListNotations.
Local Open Scope Z_scope.

(** ** Fixed-width integers *)

Definition u64 (x : Z) : Z := x mod 2 ^ 64.
Definition s64 (x : Z) : Z := (x + 2 ^ 63) mod 2 ^ 64 - 2 ^ 63.
Definition u32 (x : Z) : Z := x mod 2 ^ 32.
Definition s32 (x : Z) : Z := (x + 2 ^ 31) mod 2 ^ 32 - 2 ^ 31.
Definition u16 (x : Z) : Z := x mod 2 ^ 16.

Definition INT32_MIN : Z := - 2 ^ 31.
Definition INT32_MAX : Z := 2 ^ 31 - 1.
Definition UINT32_MAX : Z := 2 ^ 32 - 1.
Definition INTPTR_MIN : Z := - 2 ^ 63.

(** ** Errors *)

(** One constructor per [error] call (and per [assert]) of e9elf.cpp. *)
Inductive Error : Type :=
  (* parseElf *)
  | ErrFileTooSmall
  | ErrInvalidMagic
  | ErrNot64Bit
  | ErrNotLittleEndian
  | ErrInvalidVersion
  | ErrNotX86_64
  | ErrInvalidPhdrOffset
  | ErrTooManyPhdrs
  | ErrInvalidPhdrs
  | ErrExecutableNotSharedObject
  | ErrReserveLowRange
  | ErrNotExecutable
  | ErrReserveNegativeRange
  | ErrReserveSegment
  | ErrInvalidDynamic
  (* emitRefactoredPatch *)
  | ErrAssertion
  (* emitLoaderMap *)
  | ErrMapAddrUnderflow
  | ErrMapAddrOverflow
  | ErrMapSizeOverflow
  | ErrMapOffsetOverflow
  (* emitElf *)
  | ErrLoaderBase
  | ErrInvalidMode
  | ErrMissingPtDynamic
  | ErrDtInitNotFound
  | ErrMissingPhdr.

Inductive result (A : Type) : Type :=
  | OK (a : A)
  | Err (e : Error).
Arguments OK {A} a.
Arguments Err {A} e.

Definition bind {A B : Type} (c : result A) (k : A -> result B) : result B :=
  match c with
  | OK a => k a
  | Err e => Err e
  end.

Notation "x <- c ;; k" := (bind c (fun x => k))
  (at level 61, c at next level, right associativity).
Notation "' p <- c ;; k" := (bind c (fun x => let 'p := x in k))
  (at level 61, p pattern, c at next level, right associativity).

(** Modelled from the spec: the error kinds of section 7, which the code
    itself does not name (it has one [error] routine); each call site is
    filed under the kind the spec gives for its condition. *)
Inductive ErrorKind : Type :=
  | MalformedInput
  | OverflowError
  | MissingInit
  | MissingDynamic
  | NoInjectionSlot
  | LoaderBaseTooLow
  | ReservationConflict
  | InternalError.

Definition error_kind (e : Error) : ErrorKind :=
  match e with
  | ErrFileTooSmall | ErrInvalidMagic | ErrNot64Bit | ErrNotLittleEndian
  | ErrInvalidVersion | ErrNotX86_64 | ErrInvalidPhdrOffset
  | ErrTooManyPhdrs | ErrInvalidPhdrs | ErrExecutableNotSharedObject
  | ErrNotExecutable | ErrInvalidDynamic => MalformedInput
  | ErrReserveLowRange | ErrReserveNegativeRange | ErrReserveSegment =>
      ReservationConflict
  | ErrAssertion | ErrInvalidMode => InternalError
  | ErrMapAddrUnderflow | ErrMapAddrOverflow | ErrMapSizeOverflow
  | ErrMapOffsetOverflow => OverflowError
  | ErrLoaderBase => LoaderBaseTooLow
  | ErrMissingPtDynamic => MissingDynamic
  | ErrDtInitNotFound => MissingInit
  | ErrMissingPhdr => NoInjectionSlot
  end.

(** ** The byte buffer *)

(** Contents of a buffer, by offset from its start. *)
Definition mem : Type := Z -> Z.

(** The one write primitive: [n] bytes at [p], byte [i] of them being
    [src i]. *)
Definition mwrite (m : mem) (p n : Z) (src : Z -> Z) : mem :=
  fun q => if (p <=? q) && (q <? p + n) then src (q - p) else m q.

(** [memcpy(dst + p, src + q, n)]; the source is read before the
    destination is written (the ranges of the calls in e9elf.cpp are
    meant to be disjoint). *)
Definition memcpy (dst : mem) (p : Z) (src : mem) (q : Z) (n : Z) : mem :=
  mwrite dst p n (fun i => src (q + i)).

(** [memcmp(a + p, b + p, n) == 0]: the comparison of the [n] bytes from
    [p] on. *)
Fixpoint mem_eqb_from (a b : mem) (p : Z) (n : nat) : bool :=
  match n with
  | O => true
  | S n' => if a p =? b p then mem_eqb_from a b (p + 1) n' else false
  end.

Definition mem_eqb (a b : mem) (p : Z) (n : Z) : bool :=
  mem_eqb_from a b p (Z.to_nat n).

(** Byte [i] of the little-endian representation of [v]. *)
Definition byte_of (v : Z) (i : Z) : Z := (v / 2 ^ (8 * i)) mod 256.

(** Store of the [n] low bytes of [v], little-endian. *)
Definition store_le (m : mem) (p : Z) (n : Z) (v : Z) : mem :=
  mwrite m p n (byte_of v).

(** Unsigned little-endian load of [n] bytes. *)
Fixpoint load_le (m : mem) (p : Z) (n : nat) : Z :=
  match n with
  | O => 0
  | S n' => m p + 256 * load_le m (p + 1) n'
  end.

Definition load8 (m : mem) (p : Z) : Z := load_le m p 1.
Definition load16 (m : mem) (p : Z) : Z := load_le m p 2.
Definition load32 (m : mem) (p : Z) : Z := load_le m p 4.
Definition load64 (m : mem) (p : Z) : Z := load_le m p 8.
Definition store8 (m : mem) (p v : Z) : mem := store_le m p 1 v.
Definition store32 (m : mem) (p v : Z) : mem := store_le m p 4 v.
Definition store64 (m : mem) (p v : Z) : mem := store_le m p 8 v.

(** Bytes of a list written at [p] ([data[size++] = b] repeated, or a
    [memcpy] from a constant array). *)
Definition write_bytes (m : mem) (p : Z) (bs : list Z) : mem :=
  mwrite m p (Z.of_nat (length bs)) (fun i => nth (Z.to_nat i) bs 0).

(** The bytes [m p .. m (p + n - 1)]. *)
Definition read_bytes (m : mem) (p : Z) (n : nat) : list Z :=
  map (fun i => m (p + Z.of_nat i)) (seq 0 n).

(** The [n] low bytes of [v], little-endian. *)
Fixpoint le_bytes (n : nat) (v : Z) : list Z :=
  match n with
  | O => []
  | S n' => v mod 256 :: le_bytes n' (v / 256)
  end.

(** The buffer holds the bytes [bs] at [p]. *)
Definition mem_holds (m : mem) (p : Z) (bs : list Z) : Prop :=
  forall i, 0 <= i < Z.of_nat (length bs) -> m (p + i) = nth (Z.to_nat i) bs 0.

(** ** Constants of <elf.h>, <sys/mman.h> and e9loader.h *)

Definition ET_EXEC : Z := 2.
Definition ET_DYN : Z := 3.
Definition EM_X86_64 : Z := 62.
Definition ELFCLASS64 : Z := 2.
Definition ELFDATA2LSB : Z := 1.
Definition EV_CURRENT : Z := 1.
Definition PN_XNUM : Z := 65535.
Definition PT_LOAD : Z := 1.
Definition PT_DYNAMIC : Z := 2.
Definition PT_NOTE : Z := 4.
Definition PT_GNU_STACK : Z := 1685382481.  (* 0x6474e551 *)
Definition PT_GNU_RELRO : Z := 1685382482.  (* 0x6474e552 *)
Definition PF_X : Z := 1.
Definition PF_R : Z := 4.
Definition DT_NULL : Z := 0.
Definition DT_INIT : Z := 12.
Definition PROT_READ : Z := 1.
Definition PROT_WRITE : Z := 2.
Definition PROT_EXEC : Z := 4.
Definition E9_FLAG_EXE : Z := 1.

(** Field offsets and sizes of [Elf64_Ehdr], [Elf64_Phdr], [Elf64_Dyn]. *)
Definition sizeof_Elf64_Ehdr : Z := 64.
Definition EI_CLASS : Z := 4.
Definition EI_DATA : Z := 5.
Definition EI_VERSION : Z := 6.
Definition off_e_type : Z := 16.
Definition off_e_machine : Z := 18.
Definition off_e_entry : Z := 24.
Definition off_e_phoff : Z := 32.
Definition off_e_phnum : Z := 56.
Definition sizeof_Elf64_Phdr : Z := 56.
Definition off_p_type : Z := 0.
Definition off_p_flags : Z := 4.
Definition off_p_offset : Z := 8.
Definition off_p_vaddr : Z := 16.
Definition off_p_paddr : Z := 24.
Definition off_p_filesz : Z := 32.
Definition off_p_memsz : Z := 40.
Definition off_p_align : Z := 48.
Definition sizeof_Elf64_Dyn : Z := 16.
Definition off_d_tag : Z := 0.
Definition off_d_ptr : Z := 8.

(** [struct e9_config_s] of e9loader.h.  The field [dynamic] of this
    declaration is not written by e9elf.cpp, which stores the address of
    the dynamic section in the record [struct e9_config_elf_s] that
    follows. *)
Definition sizeof_e9_config_s : Z := 72.
Definition off_magic : Z := 0.
Definition off_flags : Z := 8.
Definition off_size : Z := 12.
Definition off_base : Z := 16.
Definition off_entry : Z := 24.
Definition off_dynamic : Z := 32.
Definition off_mmap : Z := 40.
Definition off_num_maps (i : Z) : Z := 48 + 4 * i.
Definition off_maps (i : Z) : Z := 56 + 4 * i.
Definition off_num_inits : Z := 64.
Definition off_inits : Z := 68.

(** [struct e9_map_s] of e9loader.h: [addr], [offset], and one 32-bit
    unit holding the bit-fields [size:20], [__reserved:8], [r:1], [w:1],
    [x:1], [abs:1], allocated from the least significant bit as the
    x86-64 ABI prescribes. *)
Definition sizeof_e9_map_s : Z := 12.
Definition off_map_addr : Z := 0.
Definition off_map_offset : Z := 4.
Definition off_map_bits : Z := 8.

Definition b2z (b : bool) : Z := if b then 1 else 0.

(** The bit-field unit after [size], [r], [w], [x] and [abs] are
    assigned; [__reserved] keeps the bits of the old unit [old].  A value
    assigned to [size] is reduced to the 20 bits of the field. *)
Definition map_bits (old size : Z) (r w x abs : bool) : Z :=
  size mod 2 ^ 20
  + 2 ^ 20 * ((old / 2 ^ 20) mod 2 ^ 8)
  + 2 ^ 28 * b2z r + 2 ^ 29 * b2z w + 2 ^ 30 * b2z x + 2 ^ 31 * b2z abs.

(** Typed readers of a record at [p]. *)
Definition map_addr (m : mem) (p : Z) : Z := s32 (load32 m (p + off_map_addr)).
Definition map_offset (m : mem) (p : Z) : Z := load32 m (p + off_map_offset).
Definition map_size (m : mem) (p : Z) : Z := load32 m (p + off_map_bits) mod 2 ^ 20.
Definition map_r (m : mem) (p : Z) : Z := (load32 m (p + off_map_bits) / 2 ^ 28) mod 2.
Definition map_w (m : mem) (p : Z) : Z := (load32 m (p + off_map_bits) / 2 ^ 29) mod 2.
Definition map_x (m : mem) (p : Z) : Z := (load32 m (p + off_map_bits) / 2 ^ 30) mod 2.
Definition map_abs (m : mem) (p : Z) : Z := (load32 m (p + off_map_bits) / 2 ^ 31) mod 2.

(** ** Data model *)

Inductive Mode : Type :=
  | MODE_ELF_EXE
  | MODE_ELF_DSO
  | MODE_OTHER.   (* the non-ELF modes of e9patch.h *)

(** [ElfInfo]: pointers into the buffer, as offsets; [nullptr] is [None]. *)
Record ElfInfo : Type := mkElfInfo {
  ehdr : Z;
  phdr_note : option Z;
  phdr_gnu_relro : option Z;
  phdr_gnu_stack : option Z;
  phdr_dynamic : option Z
}.

Record Instr : Type := mkInstr {
  I_addr : Z;      (* intptr_t addr *)
  I_offset : Z     (* off_t offset *)
}.

(** [InstrSet] is a [std::map] from file offset to instruction: its
    entries in key order. *)
Definition InstrSet : Type := list (Z * Instr).

(** [Is.lower_bound(k)]: the first entry whose key is not below [k];
    [None] is [Is.end()]. *)
Definition lower_bound (Is : InstrSet) (k : Z) : option Instr :=
  option_map snd (find (fun e => k <=? fst e) Is).

Record Refactor : Type := mkRefactor {
  r_addr : Z;
  r_size : Z;
  r_original_offset : Z;
  r_patched_offset : Z
}.

(** The constructor [Refactor(addr, offset, size)]. *)
Definition newRefactor (addr offset size : Z) : Refactor :=
  mkRefactor addr size offset 0.

Record Bounds : Type := mkBounds { b_lb : Z; b_ub : Z }.

(** A mapping; [m_merged] is the [merged] chain. *)
#[local] Set Warnings "-register-all".
Inductive Mapping : Type :=
  mkMapping {
    m_base : Z;
    m_size : Z;
    m_offset : Z;
    m_prot : Z;
    m_preload : bool;
    m_merged : option Mapping
  }.

Record Binary : Type := mkBinary {
  B_mode : Mode;
  B_size : Z;
  B_original_bytes : mem;
  B_patched_bytes : mem;
  B_patched_size : Z;
  B_elf : ElfInfo;
  B_Is : InstrSet;
  B_inits : list Z;
  B_mmap : Z;
  B_config : Z
}.

(** The global options that e9elf.cpp reads. *)
Record Options : Type := mkOptions {
  option_loader_static : bool;
  option_loader_base : Z;
  option_loader_phdr : Z;
  option_trap_entry : bool;
  option_mem_rebase_set : bool
}.

(** The running cluster of the refactoring search. *)
Record Cluster : Type := mkCluster {
  curr_addr : Z;
  curr_offset : Z;
  curr_size : Z
}.

(** A loop whose body may call [error]. *)
Fixpoint fold_result {A S : Type} (f : S -> A -> result S) (l : list A) (s : S)
  : result S :=
  match l with
  | [] => OK s
  | a :: l' => s' <- f s a ;; fold_result f l' s'
  end.

(** The nodes of a [merged] chain, head first: the values [mapping]
    takes in [for (; mapping != nullptr; mapping = mapping->merged)]. *)
Fixpoint chain (m : Mapping) : list Mapping :=
  m :: match m_merged m with
       | Some m' => chain m'
       | None => []
       end.

(** [mapping->offset = v]. *)
Definition set_offset (m : Mapping) (v : Z) : Mapping :=
  mkMapping (m_base m) (m_size m) v (m_prot m) (m_preload m) (m_merged m).

(** [B->config = v]. *)
Definition set_config (B : Binary) (v : Z) : Binary :=
  mkBinary (B_mode B) (B_size B) (B_original_bytes B) (B_patched_bytes B)
    (B_patched_size B) (B_elf B) (B_Is B) (B_inits B) (B_mmap B) v.

(** [r.patched.offset = v]. *)
Definition set_patched_offset (r : Refactor) (v : Z) : Refactor :=
  mkRefactor (r_addr r) (r_size r) (r_original_offset r) v.

(** ** The emission core *)

Section Emit.

(** What e9elf.cpp takes from headers that are not part of the model:
    the page size (an unsigned [size_t] constant: the code casts it to
    [intptr_t] where it wants a signed division), the two address
    macros, the two collaborators of the mapping module, the loader
    binary [e9loader_elf_bin], the size of [struct e9_config_elf_s]
    (whose first field is [dynamic]), and the global options. *)
Variable PAGE_SIZE : Z.
Variable IS_ABSOLUTE : Z -> bool.
Variable BASE_ADDRESS : Z -> Z.
Variable getVirtualBounds : Mapping -> Z -> list Bounds.
Variable flattenMapping : Binary -> mem -> Z -> Mapping -> Z -> mem.
Variable e9loader_elf_bin : list Z.
Variable sizeof_e9_config_elf_s : Z.
Variable opts : Options.

(** *** emitRefactoredPatch *)

(** [a - (a % PAGE_SIZE)] for a signed 64-bit [a]: the remainder and the
    subtraction are unsigned ([PAGE_SIZE] is a [size_t]), the result is
    stored in a signed variable. *)
Definition page_floor (a : Z) : Z := s64 (u64 a - u64 a mod PAGE_SIZE).

(** The offsets visited by
    [for (off_t offset = 0; offset < (off_t)size; offset += PAGE_SIZE)]
    when [size] is a multiple of the page size. *)
Definition page_offsets (size : Z) : list Z :=
  map (fun k => Z.of_nat k * PAGE_SIZE) (seq 0 (Z.to_nat (s64 size / PAGE_SIZE))).

(** One iteration of the loop of step #1. *)
Definition find_refactoring (original data : mem) (mapping_size : Z)
    (Is : InstrSet) (st : Cluster * list Refactor) (offset : Z)
  : result (Cluster * list Refactor) :=
  let '(c, refactors) := st in
  if mem_eqb original data offset PAGE_SIZE then OK st
  else
    match lower_bound Is offset with
    | None => Err ErrAssertion
    | Some ins =>
        let page_addr := page_floor (I_addr ins) in
        let page_offset := page_floor (I_offset ins) in
        if negb (page_offset =? offset) then Err ErrAssertion
        else if (curr_addr c <? 0) || (page_addr <? curr_addr c)
                || (s64 (curr_addr c + curr_size c + mapping_size) <? page_addr)
        then
          let refactors :=
            if curr_addr c >=? 0
            then refactors ++ [newRefactor (curr_addr c) (curr_offset c) (curr_size c)]
            else refactors in
          OK (mkCluster page_addr page_offset PAGE_SIZE, refactors)
        else
          OK (mkCluster (curr_addr c) (curr_offset c)
                (u64 (curr_size c
                      + ((page_addr + PAGE_SIZE) - (curr_addr c + curr_size c)))),
              refactors)
    end.

(** Step #2: the copy of the patched pages and the restoration of the
    original ones, for the refactors in order; the result is the buffer,
    the new size and the refactors with their patched offsets. *)
Fixpoint restore_pages (original data : mem) (size : Z) (refactors : list Refactor)
  : mem * Z * list Refactor :=
  match refactors with
  | [] => (data, size, [])
  | r :: rs =>
      let r' := set_patched_offset r (s64 size) in
      let data := memcpy data size data (r_original_offset r') (r_size r') in
      let data := memcpy data (r_original_offset r') original
                    (r_original_offset r') (r_size r') in
      let size := u64 (size + r_size r') in
      let '(data, size, rs') := restore_pages original data size rs in
      (data, size, r' :: rs')
  end.

(** Step #1: the refactors after the search, the trailing cluster
    included. *)
Definition findRefactorings (original data : mem) (size mapping_size : Z)
    (Is : InstrSet) (refactors : list Refactor) : result (list Refactor) :=
  '(c, refactors) <-
    fold_result (find_refactoring original data mapping_size Is)
      (page_offsets size) (mkCluster INTPTR_MIN (-1) 0, refactors) ;;
  OK (if curr_addr c >=? 0
      then refactors ++ [newRefactor (curr_addr c) (curr_offset c) (curr_size c)]
      else refactors).

(** The invariant of the search that makes every size a page multiple. *)
Definition aligned_plan (st : Cluster * list Refactor) : Prop :=
  (PAGE_SIZE | curr_size (fst st))
  /\ (0 <= curr_addr (fst st) -> (PAGE_SIZE | curr_addr (fst st)))
  /\ Forall (fun r => (PAGE_SIZE | r_size r)) (snd st).

(** [emitRefactoredPatch]: the buffer, the refactors and the returned
    growth. *)
Definition emitRefactoredPatch (original data : mem) (size mapping_size : Z)
    (Is : InstrSet) (refactors : list Refactor)
  : result (mem * list Refactor * Z) :=
  if option_loader_static opts then OK (data, refactors, 0)
  else if negb (size mod PAGE_SIZE =? 0) then Err ErrAssertion
  else
    (* Step #1 *)
    refactors <- findRefactorings original data size mapping_size Is refactors ;;
    (* Step #2 *)
    let size_0 := size in
    let '(data, size, refactors) := restore_pages original data size refactors in
    OK (data, refactors, u64 (size - size_0)).

(** The pages that differ from the original, in the order of the search. *)
Definition dirty_pages (original data : mem) (size : Z) : list Z :=
  filter (fun offset => negb (mem_eqb original data offset PAGE_SIZE))
         (page_offsets size).

(** *** emitLoaderMap *)

(** [emitLoaderMap(data + map, addr, len, offset, r, w, x, ub)]: the
    buffer, the tracked upper bound ([None] for [nullptr]) and the
    returned size. *)
Definition emitLoaderMap (data : mem) (map : Z) (addr len offset : Z)
    (r w x : bool) (ub : option Z) : result (mem * option Z * Z) :=
  let abs := IS_ABSOLUTE addr in
  let ub := match ub with
            | Some u => if negb abs then Some (Z.max u addr) else Some u
            | None => None
            end in
  let addr := BASE_ADDRESS addr in
  let size := sizeof_e9_map_s in
  let addr := s64 (Z.quot addr (s64 PAGE_SIZE)) in
  let len := len / PAGE_SIZE in
  let offset := s64 (u64 offset / PAGE_SIZE) in
  if (addr <? INT32_MIN) || (addr >? INT32_MAX)
  then Err (if addr <? 0 then ErrMapAddrUnderflow else ErrMapAddrOverflow)
  else if len >=? 2 ^ 21 then Err ErrMapSizeOverflow
  else if offset >? UINT32_MAX then Err ErrMapOffsetOverflow
  else
    let data := store32 data (map + off_map_addr) (s32 addr) in
    let data := store32 data (map + off_map_offset) (u32 offset) in
    let data := store32 data (map + off_map_bits)
                  (map_bits (load32 data (map + off_map_bits)) (u16 len) r w x abs) in
    OK (data, ub, size).

(** The tracked bound after a call: the maximum with [addr] when [addr]
    is not absolute. *)
Definition track_ub (ub : option Z) (addr : Z) : option Z :=
  match ub with
  | Some u => if negb (IS_ABSOLUTE addr) then Some (Z.max u addr) else Some u
  | None => None
  end.

(** The page-divided arguments, as [emitLoaderMap] computes them. *)
Definition addr_pages (addr : Z) : Z :=
  s64 (Z.quot (BASE_ADDRESS addr) (s64 PAGE_SIZE)).
Definition len_pages (len : Z) : Z := len / PAGE_SIZE.
Definition offset_pages (offset : Z) : Z := s64 (u64 offset / PAGE_SIZE).

(** The buffer after a successful call. *)
Definition map_written (data : mem) (map addr len offset : Z) (r w x : bool)
  : mem :=
  let data := store32 data (map + off_map_addr) (s32 (addr_pages addr)) in
  let data := store32 data (map + off_map_offset) (u32 (offset_pages offset)) in
  store32 data (map + off_map_bits)
    (map_bits (load32 data (map + off_map_bits)) (u16 (len_pages len))
       r w x (IS_ABSOLUTE addr)).

(** *** emitElf *)

(** [size % PAGE_SIZE == 0 ? size : size + PAGE_SIZE - (size % PAGE_SIZE)]. *)
Definition round_up (size : Z) : Z :=
  if size mod PAGE_SIZE =? 0 then size
  else u64 (size + PAGE_SIZE - size mod PAGE_SIZE).

(** Step (3): the trampoline blobs; each mapping of the set gets its
    file offset. *)
Fixpoint emitMappings (B : Binary) (data : mem) (size : Z) (mappings : list Mapping)
  : mem * Z * list Mapping :=
  match mappings with
  | [] => (data, size, [])
  | mapping :: rest =>
      let base := size in
      let mapping := set_offset mapping (s64 size) in
      let data := flattenMapping B data base mapping 0xcc in
      let size := u64 (size + m_size mapping) in
      let '(data, size, rest') := emitMappings B data size rest in
      (data, size, mapping :: rest')
  end.

(** [x++] on a 32-bit counter of the configuration record. *)
Definition incr32 (data : mem) (p : Z) : mem :=
  store32 data p (u32 (load32 data p + 1)).

(** The table of initialisation functions. *)
Fixpoint emitInits (data : mem) (config size : Z) (inits : list Z) : mem * Z :=
  match inits with
  | [] => (data, size)
  | init :: rest =>
      let data := store64 data size init in
      let size := u64 (size + 8) in
      let data := incr32 data (config + off_num_inits) in
      emitInits data config size rest
  end.

(** The state of the loops that emit the mapping arrays: buffer, cursor
    and the tracked bound [ub]. *)
Definition MapState : Type := (mem * Z * Z)%type.

(** The body of [for (const auto b: bounds)]. *)
Definition emitBound (config i : Z) (mapping : Mapping) (offset_0 : Z)
    (r w x : bool) (st : MapState) (b : Bounds) : result MapState :=
  let '(data, size, ub) := st in
  let base := s64 (m_base mapping + b_lb b) in
  let len := u64 (b_ub b - b_lb b) in
  let offset := s64 (offset_0 + b_lb b) in
  '(data, ub', n) <- emitLoaderMap data size base len offset r w x (Some ub) ;;
  let ub := match ub' with Some u => u | None => ub end in
  let size := u64 (size + n) in
  let data := incr32 data (config + off_num_maps i) in
  OK (data, size, ub).

(** The body of [for (; mapping != nullptr; mapping = mapping->merged)]. *)
Definition emitNode (config i : Z) (preload : bool) (offset_0 : Z)
    (st : MapState) (mapping : Mapping) : result MapState :=
  if negb (Bool.eqb (m_preload mapping) preload) then OK st
  else
    let bounds := getVirtualBounds mapping PAGE_SIZE in
    let r := negb (Z.land (m_prot mapping) PROT_READ =? 0) in
    let w := negb (Z.land (m_prot mapping) PROT_WRITE =? 0) in
    let x := negb (Z.land (m_prot mapping) PROT_EXEC =? 0) in
    fold_result (emitBound config i mapping offset_0 r w x) bounds st.

(** The body of [for (auto *mapping: mappings)]. *)
Definition emitMapping (config i : Z) (preload : bool)
    (st : MapState) (mapping : Mapping) : result MapState :=
  let offset_0 := m_offset mapping in
  fold_result (emitNode config i preload offset_0) (chain mapping) st.

(** The body of [for (unsigned i = 0; i < 2; i++)]; [config] is the
    pointer [config] and the offset [config_offset] at once. *)
Definition emitMapArray (config : Z) (mappings : list Mapping)
    (st : MapState) (i : Z) : result MapState :=
  let '(data, size, ub) := st in
  let data := store32 data (config + off_maps i) (u32 (size - config)) in
  let preload := (i =? 0) in
  fold_result (emitMapping config i preload) mappings (data, size, ub).

(** The arguments of one [emitLoaderMap] call of the mapping arrays. *)
Record MapRequest : Type := mkMapRequest {
  q_base : Z;
  q_len : Z;
  q_offset : Z;
  q_r : bool;
  q_w : bool;
  q_x : bool
}.

(** The call made for the sub-range [b] of a node of a chain whose head
    has the file offset [offset_0]: the address is the node's base plus
    the lower bound, the file offset is [offset_0] plus the lower bound. *)
Definition request_of (offset_0 : Z) (node : Mapping) (b : Bounds) : MapRequest :=
  mkMapRequest (s64 (m_base node + b_lb b)) (u64 (b_ub b - b_lb b))
    (s64 (offset_0 + b_lb b))
    (negb (Z.land (m_prot node) PROT_READ =? 0))
    (negb (Z.land (m_prot node) PROT_WRITE =? 0))
    (negb (Z.land (m_prot node) PROT_EXEC =? 0)).

(** The calls made for a node: one per sub-range. *)
Definition node_requests (offset_0 : Z) (node : Mapping) : list MapRequest :=
  map (request_of offset_0 node) (getVirtualBounds node PAGE_SIZE).

(** The calls made for a mapping of the set in the pass [preload]. *)
Definition mapping_requests (preload : bool) (mapping : Mapping)
  : list MapRequest :=
  flat_map (node_requests (m_offset mapping))
    (filter (fun node => Bool.eqb (m_preload node) preload) (chain mapping)).

(** The calls of one pass. *)
Definition array_requests (preload : bool) (mappings : list Mapping)
  : list MapRequest :=
  flat_map (mapping_requests preload) mappings.

(** One call with its bookkeeping: the record, the cursor, the counter
    [config->num_maps[i]]. *)
Definition emitRequest (config i : Z) (st : MapState) (q : MapRequest)
  : result MapState :=
  let '(data, size, ub) := st in
  '(data, ub', n) <- emitLoaderMap data size (q_base q) (q_len q) (q_offset q)
                       (q_r q) (q_w q) (q_x q) (Some ub) ;;
  let ub := match ub' with Some u => u | None => ub end in
  let size := u64 (size + n) in
  let data := incr32 data (config + off_num_maps i) in
  OK (data, size, ub).

(** The bound tracked over a list of calls. *)
Definition requests_ub (qs : list MapRequest) (ub : Z) : Z :=
  fold_left (fun u q => if IS_ABSOLUTE (q_base q) then u else Z.max u (q_base q))
            qs ub.

(** The body of [for (const auto &refactor: refactors)]. *)
Definition emitRefactorMap (config : Z) (st : mem * Z) (refactor : Refactor)
  : result (mem * Z) :=
  let '(data, size) := st in
  '(data, _, n) <- emitLoaderMap data size (r_addr refactor) (r_size refactor)
                     (r_patched_offset refactor) true false true None ;;
  let size := u64 (size + n) in
  let data := incr32 data (config + off_num_maps 1) in
  OK (data, size).

(** The bytes of [const char magic[] = "E9PATCH"], terminator included. *)
Definition magic : list Z := [69; 57; 80; 65; 84; 67; 72; 0].

(** The prologue of the entry shim. *)
Definition prologue (mode : Mode) : result (list Z) :=
  match mode with
  | MODE_ELF_EXE =>
      (* mov (%rsp),%rdi ; lea 0x8(%rsp),%rsi *)
      OK [0x48; 0x8B; 0x3C; 0x24; 0x48; 0x8D; 0x74; 0x24; 0x08]
  | MODE_ELF_DSO =>
      (* xor %edi,%edi ; xor %esi,%esi *)
      OK [0x31; 0xFF; 0x31; 0xF6]
  | MODE_OTHER => Err ErrInvalidMode
  end.

(** [-(int32_t)((size + sizeof(int32_t)) - config_offset)]. *)
Definition config_rel32 (size config_offset : Z) : Z :=
  s32 (- s32 (u64 (size + 4 - config_offset))).

(** What [emitElf] leaves behind: the buffer, the returned size, the
    field [B->config], the mappings and refactors with their offsets,
    and the local variables [config_offset], [ub], [entry] and
    [config_size]. *)
Record Emitted : Type := mkEmitted {
  out_data : mem;
  out_size : Z;
  out_B_config : Z;
  out_mappings : list Mapping;
  out_refactors : list Refactor;
  out_config_offset : Z;
  out_ub : Z;
  out_entry : Z;
  out_config_size : Z
}.

(** Step (4), the head of the configuration record: [magic], [base],
    [mmap] and [inits]; [size] is the cursor after the two records. *)
Definition emitConfig (B : Binary) (data : mem) (config size : Z) : mem :=
  let config_offset := config in
  let data := write_bytes data (config + off_magic) magic in
  let data := store64 data (config + off_base) (option_loader_base opts) in
  let data := if negb (B_mmap B =? INTPTR_MIN)
              then store64 data (config + off_mmap) (B_mmap B) else data in
  store32 data (config + off_inits) (u32 (size - config_offset)).

(** Step (4), the entry shim and the loader: the optional trap, the
    prologue, [lea config(%rip), %rdx] and [e9loader_elf_bin]. *)
Definition emitShim (mode : Mode) (data : mem) (size config_offset : Z)
  : result (mem * Z) :=
  let '(data, size) :=
    if option_trap_entry opts
    then (store8 data size 0xCC, u64 (size + 1)) else (data, size) in
  code <- prologue mode ;;
  let data := write_bytes data size code in
  let size := u64 (size + Z.of_nat (length code)) in
  (* lea config(%rip), %rdx *)
  let data := write_bytes data size [0x48; 0x8D; 0x15] in
  let size := u64 (size + 3) in
  let data := store32 data size (config_rel32 size config_offset) in
  let size := u64 (size + 4) in
  let data := write_bytes data size e9loader_elf_bin in
  let size := u64 (size + Z.of_nat (length e9loader_elf_bin)) in
  OK (data, size).

(** The state of [emitElf] when the two mapping arrays are written:
    buffer, cursor, mappings and refactors with their offsets,
    [config_offset] and [ub]. *)
Record Layout : Type := mkLayout {
  lay_data : mem;
  lay_size : Z;
  lay_mappings : list Mapping;
  lay_refactors : list Refactor;
  lay_config_offset : Z;
  lay_ub : Z
}.

(** Steps (1) to (4) of [emitElf], up to the two mapping arrays. *)
Definition emitArrays (B : Binary) (mappings : list Mapping) (mapping_size : Z)
  : result Layout :=
  let data := B_patched_bytes B in
  let size := B_patched_size B in
  (* Step (1): Round-up to nearest page boundary *)
  let size := round_up size in
  (* Step (2): Refactor the patching *)
  '(data, refactors, n) <-
    emitRefactoredPatch (B_original_bytes B) data size mapping_size (B_Is B) [] ;;
  let size := u64 (size + n) in
  (* Step (3): Emit all mappings *)
  let B := set_config B (option_loader_base opts) in
  let '(data, size, mappings) := emitMappings B data size mappings in
  (* Step (4): Emit the loader *)
  let size := round_up size in
  let config := size in
  let config_offset := size in
  let size := u64 (size + sizeof_e9_config_s) in
  let size := u64 (size + sizeof_e9_config_elf_s) in
  let data := emitConfig B data config size in
  let '(data, size) := emitInits data config size (B_inits B) in
  let ub := INTPTR_MIN in
  '(data, size, ub) <-
    fold_result (emitMapArray config mappings) [0; 1] (data, size, ub) ;;
  OK (mkLayout data size mappings refactors config_offset ub).

(** Steps (1) to (4) of [emitElf]: the arrays, the guard on [ub], the
    refactor mappings, the entry shim and [config->size]. *)
Definition emitLoader (B : Binary) (mappings : list Mapping) (mapping_size : Z)
  : result Emitted :=
  lay <- emitArrays B mappings mapping_size ;;
  let data := lay_data lay in
  let size := lay_size lay in
  let refactors := lay_refactors lay in
  let config := lay_config_offset lay in
  let config_offset := lay_config_offset lay in
  let ub := lay_ub lay in
  if ub >? option_loader_base opts then Err ErrLoaderBase
  else
    '(data, size) <- fold_result (emitRefactorMap config) refactors (data, size) ;;
    let entry := s64 (option_loader_base opts + (size - config_offset)) in
    '(data, size) <- emitShim (B_mode B) data size config_offset ;;
    let config_size := u64 (size - config_offset) in
    let data := store32 data (config + off_size) (u32 (round_up config_size)) in
    OK (mkEmitted data size (option_loader_base opts) (lay_mappings lay)
          refactors config_offset ub entry config_size).

(** The loop over the entries of the dynamic section, from entry [i],
    with at most [n] entries left; the result is the buffer and [found]. *)
Fixpoint scanDynamic (data : mem) (config entry dynamic : Z) (i : Z) (n : nat)
  : mem * bool :=
  match n with
  | O => (data, false)
  | S n' =>
      let d := dynamic + sizeof_Elf64_Dyn * i in
      let tag := s64 (load64 data (d + off_d_tag)) in
      if tag =? DT_NULL then (data, false)
      else if tag =? DT_INIT then
        let data := store64 data (config + off_entry)
                      (s64 (load64 data (d + off_d_ptr))) in
        let data := store64 data (d + off_d_ptr) (u64 entry) in
        (data, true)
      else scanDynamic data config entry dynamic (i + 1) n'
  end.

(** Step (5): Modify the entry address. *)
Definition modifyEntry (B : Binary) (data : mem) (config config_elf entry : Z)
  : result mem :=
  let phdr := phdr_dynamic (B_elf B) in
  let data := match phdr with
              | Some ph => store64 data config_elf (s64 (load64 data (ph + off_p_vaddr)))
              | None => data
              end in
  match B_mode B with
  | MODE_ELF_EXE =>
      let ehdr := ehdr (B_elf B) in
      let data := store64 data (config + off_entry)
                    (s64 (load64 data (ehdr + off_e_entry))) in
      let data := store64 data (ehdr + off_e_entry) (u64 entry) in
      let data := store32 data (config + off_flags)
                    (Z.lor (load32 data (config + off_flags)) E9_FLAG_EXE) in
      OK data
  | MODE_ELF_DSO =>
      match phdr with
      | None => Err ErrMissingPtDynamic
      | Some ph =>
          let dynamic := load64 data (ph + off_p_offset) in
          let num_dynamic := load64 data (ph + off_p_memsz) / sizeof_Elf64_Dyn in
          let '(data, found) :=
            scanDynamic data config entry dynamic 0 (Z.to_nat num_dynamic) in
          if found then OK data else Err ErrDtInitNotFound
      end
  | MODE_OTHER => Err ErrInvalidMode
  end.

(** The program header selected by [switch (option_loader_phdr)]. *)
Definition choosePhdr (B : Binary) : option Z :=
  let elf := B_elf B in
  if option_loader_phdr opts =? PT_NOTE then phdr_note elf
  else if option_loader_phdr opts =? PT_GNU_RELRO then phdr_gnu_relro elf
  else if option_loader_phdr opts =? PT_GNU_STACK then phdr_gnu_stack elf
  else
    let phdr := phdr_note elf in
    let phdr := match phdr with None => phdr_gnu_relro elf | Some _ => phdr end in
    let phdr := match phdr with None => phdr_gnu_stack elf | Some _ => phdr end in
    phdr.

(** The structures of the input file that steps (5) and (6) write to
    (the entry field of the header, the dynamic section, the program
    header that is repurposed) and the [PT_DYNAMIC] header that step (5)
    reads all end at or before [limit]. *)
Definition elf_views_below (B : Binary) (data : mem) (limit : Z) : Prop :=
  ehdr (B_elf B) + off_e_entry + 8 <= limit
  /\ (forall ph,
        phdr_dynamic (B_elf B) = Some ph ->
        ph + sizeof_Elf64_Phdr <= limit
        /\ load64 data (ph + off_p_offset)
           + sizeof_Elf64_Dyn * (load64 data (ph + off_p_memsz) / sizeof_Elf64_Dyn)
           <= limit)
  /\ (forall ph, choosePhdr B = Some ph -> ph + sizeof_Elf64_Phdr <= limit).

(** The bytes of the entry shim and the loader when the shim starts at
    [start]. *)
Definition shim_bytes (code : list Z) (start config_offset : Z) : list Z :=
  (if option_trap_entry opts then [0xCC] else [])
  ++ code ++ [0x48; 0x8D; 0x15]
  ++ le_bytes 4 (config_rel32
                   (start + (if option_trap_entry opts then 1 else 0)
                    + Z.of_nat (length code) + 3) config_offset)
  ++ e9loader_elf_bin.

(** Step (6): Modify the PHDR to load the loader. *)
Definition modifyPhdr (B : Binary) (data : mem) (config_offset config_size : Z)
  : result mem :=
  match choosePhdr B with
  | None => Err ErrMissingPhdr
  | Some phdr =>
      let data := store32 data (phdr + off_p_type) PT_LOAD in
      let data := store32 data (phdr + off_p_flags) (Z.lor PF_X PF_R) in
      let data := store64 data (phdr + off_p_offset) config_offset in
      let data := store64 data (phdr + off_p_vaddr) (u64 (option_loader_base opts)) in
      let data := store64 data (phdr + off_p_paddr) 0 in
      let data := store64 data (phdr + off_p_filesz) config_size in
      let data := store64 data (phdr + off_p_memsz) config_size in
      let data := store64 data (phdr + off_p_align) PAGE_SIZE in
      OK data
  end.

(** [out] with the buffer replaced. *)
Definition set_data (out : Emitted) (data : mem) : Emitted :=
  mkEmitted data (out_size out) (out_B_config out) (out_mappings out)
    (out_refactors out) (out_config_offset out) (out_ub out) (out_entry out)
    (out_config_size out).

(** [emitElf(B, mappings, mapping_size)]; the returned value is
    [out_size]. *)
Definition emitElf (B : Binary) (mappings : list Mapping) (mapping_size : Z)
  : result Emitted :=
  out <- emitLoader B mappings mapping_size ;;
  let config := out_config_offset out in
  (* config_elf = data + size, taken after size += sizeof(e9_config_s) *)
  let config_elf := u64 (config + sizeof_e9_config_s) in
  data <- modifyEntry B (out_data out) config config_elf (out_entry out) ;;
  data <- modifyPhdr B data (out_config_offset out) (out_config_size out) ;;
  OK (set_data out data).

End Emit.

(** ** parseElf *)

Section Parse.

(** The address-space reservations of e9alloc: a state and the oracle
    [reserve(B, lo, hi)], which answers whether the range was free and
    records it; and the lowest relative address of e9patch.h. *)
Variable Allocator : Type.
Variable reserve : Allocator -> Z -> Z -> bool * Allocator.
Variable RELATIVE_ADDRESS_MIN : Z.

Definition Mode_eqb (a b : Mode) : bool :=
  match a, b with
  | MODE_ELF_EXE, MODE_ELF_EXE | MODE_ELF_DSO, MODE_ELF_DSO
  | MODE_OTHER, MODE_OTHER => true
  | _, _ => false
  end.

(** The body of the loop over the program headers; [phdr] is
    [phdrs + i]. *)
Definition visitPhdr (data : mem) (st : Allocator * ElfInfo) (phdr : Z)
  : result (Allocator * ElfInfo) :=
  let '(alloc, info) := st in
  let p_type := load32 data (phdr + off_p_type) in
  if p_type =? PT_LOAD then
    let vstart := s64 (load64 data (phdr + off_p_vaddr)) in
    let vend := s64 (vstart + load64 data (phdr + off_p_memsz)) in
    let '(ok, alloc) := reserve alloc vstart vend in
    if ok then OK (alloc, info) else Err ErrReserveSegment
  else if p_type =? PT_DYNAMIC then
    OK (alloc, mkElfInfo (ehdr info) (phdr_note info) (phdr_gnu_relro info)
                 (phdr_gnu_stack info) (Some phdr))
  else if p_type =? PT_NOTE then
    OK (alloc, mkElfInfo (ehdr info) (Some phdr) (phdr_gnu_relro info)
                 (phdr_gnu_stack info) (phdr_dynamic info))
  else if p_type =? PT_GNU_RELRO then
    OK (alloc, mkElfInfo (ehdr info) (phdr_note info) (Some phdr)
                 (phdr_gnu_stack info) (phdr_dynamic info))
  else if p_type =? PT_GNU_STACK then
    OK (alloc, mkElfInfo (ehdr info) (phdr_note info) (phdr_gnu_relro info)
                 (Some phdr) (phdr_dynamic info))
  else OK st.

(** The classification by [switch (ehdr->e_type)]: [(pic, pie)] and the
    reservations made so far. *)
Definition classify (e_type : Z) (mode : Mode) (alloc : Allocator)
  : result (bool * bool * Allocator) :=
  if e_type =? ET_EXEC then
    if Mode_eqb mode MODE_ELF_DSO then Err ErrExecutableNotSharedObject
    else
      let '(ok, alloc) := reserve alloc 0x0 0x10000 in
      if ok then OK (false, false, alloc) else Err ErrReserveLowRange
  else if e_type =? ET_DYN then
    OK (true, Mode_eqb mode MODE_ELF_EXE, alloc)
  else Err ErrNotExecutable.

(** The walk over the program headers and the check of the dynamic
    section that ends [parseElf]; [phdrs] is [data + e_phoff]. *)
Definition parsePhdrs (data : mem) (size phdrs e_phnum : Z) (pic : bool)
    (alloc : Allocator) : result (bool * ElfInfo * Allocator) :=
  let ehdr := 0 in
  '(alloc, info) <-
    fold_result (visitPhdr data)
      (map (fun i => phdrs + sizeof_Elf64_Phdr * Z.of_nat i)
           (seq 0 (Z.to_nat e_phnum)))
      (alloc, mkElfInfo ehdr None None None None) ;;
  match phdr_dynamic info with
  | Some ph =>
      if u64 (load64 data (ph + off_p_offset) + load64 data (ph + off_p_memsz))
         >? size
      then Err ErrInvalidDynamic
      else OK (pic, info, alloc)
  | None => OK (pic, info, alloc)
  end.

(** [parseElf(B)]: the returned [pic], the [ElfInfo] stored in [B->elf]
    and the reservations. *)
Definition parseElf (B : Binary) (alloc : Allocator)
  : result (bool * ElfInfo * Allocator) :=
  let data := B_patched_bytes B in
  let size := B_size B in
  let mode := B_mode B in
  if size <? sizeof_Elf64_Ehdr then Err ErrFileTooSmall
  else
    let ehdr := 0 in
    if negb ((load8 data (ehdr + 0) =? 0x7f) && (load8 data (ehdr + 1) =? 0x45)
             && (load8 data (ehdr + 2) =? 0x4c) && (load8 data (ehdr + 3) =? 0x46))
    then Err ErrInvalidMagic
    else if negb (load8 data (ehdr + EI_CLASS) =? ELFCLASS64) then Err ErrNot64Bit
    else if negb (load8 data (ehdr + EI_DATA) =? ELFDATA2LSB)
    then Err ErrNotLittleEndian
    else if negb (load8 data (ehdr + EI_VERSION) =? EV_CURRENT)
    then Err ErrInvalidVersion
    else if negb (load16 data (ehdr + off_e_machine) =? EM_X86_64)
    then Err ErrNotX86_64
    else
      let e_phoff := load64 data (ehdr + off_e_phoff) in
      let e_phnum := load16 data (ehdr + off_e_phnum) in
      if (e_phoff <? sizeof_Elf64_Ehdr) || (e_phoff >=? size)
      then Err ErrInvalidPhdrOffset
      else if e_phnum >? PN_XNUM then Err ErrTooManyPhdrs
      else if u64 (e_phoff + e_phnum * sizeof_Elf64_Phdr) >? size
      then Err ErrInvalidPhdrs
      else
        '(pic, pie, alloc) <-
          classify (load16 data (ehdr + off_e_type)) mode alloc ;;
        alloc <-
          (if negb pie then
             let '(ok, alloc) := reserve alloc RELATIVE_ADDRESS_MIN 0x0 in
             if ok then OK alloc else Err ErrReserveNegativeRange
           else OK alloc) ;;
        parsePhdrs data size e_phoff e_phnum pic alloc.

(** The checks of [parseElf] that come before [switch (ehdr->e_type)]. *)
Definition header_ok (B : Binary) : bool :=
  let data := B_patched_bytes B in
  let size := B_size B in
  let e_phoff := load64 data off_e_phoff in
  let e_phnum := load16 data off_e_phnum in
  (sizeof_Elf64_Ehdr <=? size)
  && (load8 data 0 =? 0x7f) && (load8 data 1 =? 0x45)
  && (load8 data 2 =? 0x4c) && (load8 data 3 =? 0x46)
  && (load8 data EI_CLASS =? ELFCLASS64)
  && (load8 data EI_DATA =? ELFDATA2LSB)
  && (load8 data EI_VERSION =? EV_CURRENT)
  && (load16 data off_e_machine =? EM_X86_64)
  && (sizeof_Elf64_Ehdr <=? e_phoff) && (e_phoff <? size)
  && (e_phnum <=? PN_XNUM)
  && (u64 (e_phoff + e_phnum * sizeof_Elf64_Phdr) <=? size).

End Parse.

(** ** Concrete inputs *)

(** A buffer that holds [bs] at its start and zeros elsewhere. *)
Definition mem_of_bytes (bs : list Z) : mem :=
  let len := Z.of_nat (length bs) in
  fun p => if (p <? 0) || (len <=? p) then 0 else nth (Z.to_nat p) bs 0.

Definition ex_ehdr (e_type e_entry e_phnum : Z) : list Z :=
  [0x7f; 0x45; 0x4c; 0x46; 2; 1; 1; 0; 0; 0; 0; 0; 0; 0; 0; 0]
  ++ le_bytes 2 e_type ++ le_bytes 2 EM_X86_64 ++ le_bytes 4 1
  ++ le_bytes 8 e_entry ++ le_bytes 8 64 ++ le_bytes 8 0 ++ le_bytes 4 0
  ++ le_bytes 2 64 ++ le_bytes 2 56 ++ le_bytes 2 e_phnum
  ++ le_bytes 2 0 ++ le_bytes 2 0 ++ le_bytes 2 0.

Definition ex_phdr (p_type p_flags p_offset p_vaddr p_paddr p_filesz p_memsz
                    p_align : Z) : list Z :=
  le_bytes 4 p_type ++ le_bytes 4 p_flags ++ le_bytes 8 p_offset
  ++ le_bytes 8 p_vaddr ++ le_bytes 8 p_paddr ++ le_bytes 8 p_filesz
  ++ le_bytes 8 p_memsz ++ le_bytes 8 p_align.

Definition ex_dyn (d_tag d_ptr : Z) : list Z :=
  le_bytes 8 d_tag ++ le_bytes 8 d_ptr.

(** A file of 280 bytes: header, three program headers ([PT_LOAD],
    [PT_NOTE], [PT_DYNAMIC]) and a dynamic section with [DT_NEEDED],
    [DT_INIT] (pointer 0x1200) and [DT_NULL]. *)
Definition ex_file (e_type : Z) : list Z :=
  ex_ehdr e_type 0x1040 3
  ++ ex_phdr PT_LOAD 5 0 0 0 280 280 4096
  ++ ex_phdr PT_NOTE 4 64 64 64 56 56 4
  ++ ex_phdr PT_DYNAMIC 6 232 232 232 48 48 8
  ++ ex_dyn 1 1 ++ ex_dyn DT_INIT 0x1200 ++ ex_dyn DT_NULL 0.

Definition ex_elf : ElfInfo := mkElfInfo 0 (Some 120) None None (Some 176).

(** The binary of [ex_file], unpatched, without instructions. *)
Definition ex_binary (mode : Mode) (e_type : Z) : Binary :=
  mkBinary mode 280 (mem_of_bytes (ex_file e_type)) (mem_of_bytes (ex_file e_type))
    280 ex_elf [] [] INTPTR_MIN 0.

(** An allocator that grants every reservation. *)
Definition ex_reserve (a : unit) (lo hi : Z) : bool * unit := (true, a).

(** A buffer of zeros, and one that differs from it at the offsets [offs]. *)
Definition ex_zeros : mem := fun _ => 0.
Definition ex_dirty (offs : list Z) : mem :=
  fun p => if existsb (Z.eqb p) offs then 0xcc else 0.

(** Two pages of 4096 bytes, both patched, the first at virtual address
    [a1] and the second at [a2]. *)
Definition ex_Is (a1 a2 : Z) : InstrSet :=
  [(0, mkInstr a1 0); (4096, mkInstr a2 4096)].

(** One way to fill in what [emitElf] takes from outside: pages of 4096
    bytes, the upper part of the address space (from 2^62) as absolute
    addresses, mappings without holes, a blob filled with the fill byte,
    a loader of two bytes, a [struct e9_config_elf_s] with the one field
    [dynamic]. *)
Definition ex_IS_ABSOLUTE (addr : Z) : bool := 2 ^ 62 <=? addr.
Definition ex_BASE_ADDRESS (addr : Z) : Z :=
  if ex_IS_ABSOLUTE addr then addr - 2 ^ 62 else addr.
Definition ex_getVirtualBounds (m : Mapping) (page_size : Z) : list Bounds :=
  [mkBounds 0 (m_size m)].
Definition ex_flattenMapping (B : Binary) (data : mem) (base : Z) (m : Mapping)
    (fill : Z) : mem :=
  mwrite data base (m_size m) (fun _ => fill).
Definition ex_loader : list Z := [0x90; 0xc3].

Abbreviation ex_emitElf opts :=
  (emitElf 4096 ex_IS_ABSOLUTE ex_BASE_ADDRESS ex_getVirtualBounds
     ex_flattenMapping ex_loader 8 opts).

(** The loader at 0x20e9e9000, no other option set. *)
Definition ex_opts : Options := mkOptions false 0x20e9e9000 0 false false.

(** The example file with one patched byte at offset 0x110, which belongs
    to an instruction at the virtual address [addr]. *)
Definition ex_patched_binary (mode : Mode) (e_type addr : Z) : Binary :=
  mkBinary mode 280 (mem_of_bytes (ex_file e_type))
    (mwrite (mem_of_bytes (ex_file e_type)) 0x110 1 (fun _ => 0xcc))
    280 ex_elf [(0x110, mkInstr addr 0x110)] [] INTPTR_MIN 0.

(** A mapping of two pages at 0x10000 whose chain has a second node, of
    one page at 0x30000, with an offset field of its own. *)
Definition ex_mapping : Mapping :=
  mkMapping 0x10000 8192 0 5 true
    (Some (mkMapping 0x30000 4096 777 3 true None)).

(** ** Notions for the refactoring round trip *)

(** The sum of the sizes of refactors. *)
Definition total_size (rs : list Refactor) : Z :=
  fold_right (fun r acc => r_size r + acc) 0 rs.

(** The range of [r] in the file lies within the first [size] bytes. *)
Definition in_file (size : Z) (r : Refactor) : Prop :=
  0 <= r_original_offset r /\ 0 <= r_size r
  /\ r_original_offset r + r_size r <= size.

(** The offset [p] lies in the range of [r] in the file. *)
Definition covers (p : Z) (r : Refactor) : bool :=
  (r_original_offset r <=? p) && (p <? r_original_offset r + r_size r).

(** The buffer at the moment the refactor of index [i] is processed by
    step #2. *)
Definition buffer_before (original data : mem) (size : Z) (rs : list Refactor)
    (i : nat) : mem :=
  fst (fst (restore_pages original data size (firstn i rs))).

(** ** Notions for the program headers *)

(** The program header of index [i] of a table at [phdrs]. *)
Definition phdr_at (phdrs : Z) (i : nat) : Z :=
  phdrs + sizeof_Elf64_Phdr * Z.of_nat i.

(** [field] is the last of the first [n] program headers of the table at
    [phdrs] whose type is [ty], and is null when there is none. *)
Definition last_of_type (data : mem) (phdrs : Z) (n : nat) (ty : Z)
    (field : option Z) : Prop :=
  match field with
  | Some p =>
      exists i, (i < n)%nat /\ p = phdr_at phdrs i
                /\ load32 data (p + off_p_type) = ty
                /\ forall j, (i < j < n)%nat ->
                             load32 data (phdr_at phdrs j + off_p_type) <> ty
  | None =>
      forall i, (i < n)%nat -> load32 data (phdr_at phdrs i + off_p_type) <> ty
  end.

(** The program headers of a file, in table order. *)
Definition phdr_table (B : Binary) : list Z :=
  let data := B_patched_bytes B in
  map (phdr_at (load64 data off_e_phoff))
      (seq 0 (Z.to_nat (load16 data off_e_phnum))).

(** The range a program header asks [reserve] for: that of a [PT_LOAD]
    segment, nothing for the other types. *)
Definition load_segment (data : mem) (phdr : Z) : list (Z * Z) :=
  if load32 data (phdr + off_p_type) =? PT_LOAD then
    let vstart := s64 (load64 data (phdr + off_p_vaddr)) in
    [(vstart, s64 (vstart + load64 data (phdr + off_p_memsz)))]
  else [].

(** The ranges a file asks [reserve] for, in the order of the calls: the
    low range of an [ET_EXEC] file, the negative range unless the file is
    a PIE, the [PT_LOAD] segments. *)
Definition reservation_requests (RELATIVE_ADDRESS_MIN : Z) (B : Binary)
  : list (Z * Z) :=
  let data := B_patched_bytes B in
  let e_type := load16 data off_e_type in
  (if e_type =? ET_EXEC then [(0x0, 0x10000)] else [])
  ++ (if (e_type =? ET_DYN) && Mode_eqb (B_mode B) MODE_ELF_EXE then []
      else [(RELATIVE_ADDRESS_MIN, 0x0)])
  ++ flat_map (load_segment data) (phdr_table B).

(** The reservations of [reqs] made one after the other; [None] when one
    of them is refused. *)
Fixpoint reserve_all {Allocator : Type}
    (reserve : Allocator -> Z -> Z -> bool * Allocator) (alloc : Allocator)
    (reqs : list (Z * Z)) : option Allocator :=
  match reqs with
  | [] => Some alloc
  | (lo, hi) :: reqs' =>
      let '(ok, alloc') := reserve alloc lo hi in
      if ok then reserve_all reserve alloc' reqs' else None
  end.

(** The file type fits the mode: [ET_DYN], or [ET_EXEC] outside DSO mode. *)
Definition type_fits_mode (B : Binary) : bool :=
  let e_type := load16 (B_patched_bytes B) off_e_type in
  (e_type =? ET_DYN)
  || ((e_type =? ET_EXEC) && negb (Mode_eqb (B_mode B) MODE_ELF_DSO)).

(** The last program header of type [ty] among [phdrs], or [init]. *)
Definition last_phdr (data : mem) (ty : Z) (phdrs : list Z) (init : option Z)
  : option Z :=
  fold_left (fun acc ph =>
               if load32 data (ph + off_p_type) =? ty then Some ph else acc)
            phdrs init.

(** The [ElfInfo] of a file: the start of the file and, for each of the
    four types, the last program header of that type. *)
Definition phdr_info (B : Binary) : ElfInfo :=
  let data := B_patched_bytes B in
  mkElfInfo 0 (last_phdr data PT_NOTE (phdr_table B) None)
    (last_phdr data PT_GNU_RELRO (phdr_table B) None)
    (last_phdr data PT_GNU_STACK (phdr_table B) None)
    (last_phdr data PT_DYNAMIC (phdr_table B) None).

(** The check of the dynamic section, on the last [PT_DYNAMIC] header:
    offset plus size, computed in 64 bits, is at most the file size. *)
Definition dynamic_in_file (B : Binary) : bool :=
  let data := B_patched_bytes B in
  match last_phdr data PT_DYNAMIC (phdr_table B) None with
  | Some ph =>
      u64 (load64 data (ph + off_p_offset) + load64 data (ph + off_p_memsz))
      <=? B_size B
  | None => true
  end.

(** ** Notions for the tables of the configuration region *)

(** The record at [p] holds the call [q]: the page-divided address, the
    page-divided offset in 32 bits, the page-divided length in 16 bits,
    the permissions and the absolute flag. *)
Definition record_of (PAGE_SIZE : Z) (IS_ABSOLUTE : Z -> bool)
    (BASE_ADDRESS : Z -> Z) (m : mem) (p : Z) (q : MapRequest) : Prop :=
  map_addr m p = addr_pages PAGE_SIZE BASE_ADDRESS (q_base q)
  /\ map_offset m p = u32 (offset_pages PAGE_SIZE (q_offset q))
  /\ map_size m p = u16 (len_pages PAGE_SIZE (q_len q))
  /\ map_r m p = b2z (q_r q)
  /\ map_w m p = b2z (q_w q)
  /\ map_x m p = b2z (q_x q)
  /\ map_abs m p = b2z (IS_ABSOLUTE (q_base q)).

(** The call made for a refactor: its address, its size and its patched
    offset, readable and executable. *)
Definition refactor_request (r : Refactor) : MapRequest :=
  mkMapRequest (r_addr r) (r_size r) (r_patched_offset r) true false true.

(** The sum of the sizes of mappings. *)
Definition mappings_size (ms : list Mapping) : Z :=
  fold_right (fun m acc => m_size m + acc) 0 ms.

(** The checks of [emitLoaderMap] on the page-divided arguments of a
    call: the address fits 32 signed bits, the length is below 2^21
    pages, the offset fits 32 unsigned bits. *)
Definition request_fits (PAGE_SIZE : Z) (BASE_ADDRESS : Z -> Z) (q : MapRequest)
  : bool :=
  (INT32_MIN <=? addr_pages PAGE_SIZE BASE_ADDRESS (q_base q))
  && (addr_pages PAGE_SIZE BASE_ADDRESS (q_base q) <=? INT32_MAX)
  && (len_pages PAGE_SIZE (q_len q) <? 2 ^ 21)
  && (offset_pages PAGE_SIZE (q_offset q) <=? UINT32_MAX).

(** ** Notions for the refactoring search *)

(** The instruction that the search finds for the page at [offset]
    starts in that page. *)
Definition page_has_instr (PAGE_SIZE : Z) (Is : InstrSet) (offset : Z) : bool :=
  match lower_bound Is offset with
  | Some ins => page_floor PAGE_SIZE (I_offset ins) =? offset
  | None => false
  end.

(** The shape of a refactor: an address that is not negative and a size
    of at least one page, both page multiples, and a file offset in [S]. *)
Definition planned (PAGE_SIZE : Z) (S : Z -> Prop) (r : Refactor) : Prop :=
  0 <= r_addr r < 2 ^ 63
  /\ (PAGE_SIZE | r_addr r)
  /\ PAGE_SIZE <= r_size r < 2 ^ 64
  /\ (PAGE_SIZE | r_size r)
  /\ S (r_original_offset r).

(** The state of the search: the refactor that closing the running
    cluster would add, if any, and the refactors found so far have the
    shape above. *)
Definition planned_state (PAGE_SIZE : Z) (S : Z -> Prop)
    (st : Cluster * list Refactor) : Prop :=
  (0 <= curr_addr (fst st) ->
   planned PAGE_SIZE S
     (newRefactor (curr_addr (fst st)) (curr_offset (fst st))
        (curr_size (fst st))))
  /\ Forall (planned PAGE_SIZE S) (snd st).

(** The number of refactors of a state, the running cluster included. *)
Definition planned_count (st : Cluster * list Refactor) : nat :=
  length (snd st) + (if 0 <=? curr_addr (fst st) then 1 else 0).

(** ** Notions for what emitElf keeps of the input file *)

(** The offset [p] lies in a structure of the input file that steps (5)
    and (6) write to: the entry field of the header in executable mode,
    the dynamic section in DSO mode, the program header chosen for the
    loader. *)
Definition elf_written (opts : Options) (B : Binary) (data : mem) (p : Z)
  : Prop :=
  (B_mode B = MODE_ELF_EXE
   /\ ehdr (B_elf B) + off_e_entry <= p < ehdr (B_elf B) + off_e_entry + 8)
  \/ (B_mode B = MODE_ELF_DSO
      /\ exists ph,
          phdr_dynamic (B_elf B) = Some ph
          /\ load64 data (ph + off_p_offset) <= p
             < load64 data (ph + off_p_offset)
               + sizeof_Elf64_Dyn
                 * (load64 data (ph + off_p_memsz) / sizeof_Elf64_Dyn))
  \/ (exists ph,
         choosePhdr opts B = Some ph /\ ph <= p < ph + sizeof_Elf64_Phdr).

(** ** Further concrete inputs *)


(** A mapping of two pages at 0x10000 whose chain has a second node, of
    one page at 0x30000, with an offset field of its own in another
    page. *)
Definition ex_chain_mapping : Mapping :=
  mkMapping 0x10000 8192 0 5 true
    (Some (mkMapping 0x30000 4096 0x7000 3 true None)).

(** An allocator that refuses every reservation. *)
Definition ex_reserve_none (a : unit) (lo hi : Z) : bool * unit := (false, a).

(** The example file in executable mode with one patched byte at offset
    0x110, which belongs to an instruction at 0x400110, and two
    initialisation functions. *)
Definition ex_init_binary : Binary :=
  mkBinary MODE_ELF_EXE 280 (mem_of_bytes (ex_file ET_EXEC))
    (mwrite (mem_of_bytes (ex_file ET_EXEC)) 0x110 1 (fun _ => 0xcc))
    280 ex_elf [(0x110, mkInstr 0x400110 0x110)] [0x401000; 0x402000]
    INTPTR_MIN 0.

(** * Properties *)

(** ** The byte buffer *)

Lemma mwrite_outside (m : mem) (p n : Z) (src : Z -> Z) (q : Z) :
  q < p \/ p + n <= q -> mwrite m p n src q = m q.
Proof.
  intros H. unfold mwrite.
  destruct (Z.leb_spec p q), (Z.ltb_spec q (p + n)); simpl; auto; lia.
Qed.

Lemma mwrite_inside (m : mem) (p n : Z) (src : Z -> Z) (q : Z) :
  p <= q < p + n -> mwrite m p n src q = src (q - p).
Proof.
  intros H. unfold mwrite.
  destruct (Z.leb_spec p q), (Z.ltb_spec q (p + n)); simpl; auto; lia.
Qed.

Lemma load_le_ext (n : nat) (m1 m2 : mem) (p : Z) :
  (forall i, 0 <= i < Z.of_nat n -> m1 (p + i) = m2 (p + i)) ->
  load_le m1 p n = load_le m2 p n.
Proof.
  revert p. induction n as [|n IH]; intros p H; simpl; auto.
  rewrite (IH (p + 1)).
  - specialize (H 0). rewrite Z.add_0_r in H. rewrite H; auto. lia.
  - intros i Hi. replace (p + 1 + i) with (p + (i + 1)) by lia. apply H. lia.
Qed.

Lemma byte_of_succ (v i : Z) :
  0 <= i -> byte_of (v / 256) i = byte_of v (i + 1).
Proof.
  intros Hi. unfold byte_of. f_equal.
  rewrite Z.div_div by (try apply Z.pow_pos_nonneg; lia).
  f_equal. replace (8 * (i + 1)) with (8 + 8 * i) by lia.
  rewrite Z.pow_add_r by lia. reflexivity.
Qed.

Lemma load_le_bytes (n : nat) (m : mem) (p v : Z) :
  (forall i, 0 <= i < Z.of_nat n -> m (p + i) = byte_of v i) ->
  load_le m p n = v mod 2 ^ (8 * Z.of_nat n).
Proof.
  revert p v. induction n as [|n IH]; intros p v H.
  - simpl. rewrite Z.mod_1_r. reflexivity.
  - cbn [load_le]. rewrite (IH (p + 1) (v / 256)).
    + pose proof (H 0 ltac:(lia)) as H0. rewrite Z.add_0_r in H0.
      rewrite H0. unfold byte_of.
      rewrite Z.mul_0_r, Z.pow_0_r, Z.div_1_r.
      replace (8 * Z.of_nat (S n)) with (8 + 8 * Z.of_nat n) by lia.
      rewrite Z.pow_add_r by lia. change (2 ^ 8) with 256.
      rewrite Z.rem_mul_r by (try apply Z.pow_pos_nonneg; lia). reflexivity.
    + intros i Hi. replace (p + 1 + i) with (p + (i + 1)) by lia.
      rewrite H by lia. symmetry. apply byte_of_succ. lia.
Qed.

Lemma load_store_same (n : nat) (m : mem) (p v : Z) :
  load_le (store_le m p (Z.of_nat n) v) p n = v mod 2 ^ (8 * Z.of_nat n).
Proof.
  apply load_le_bytes. intros i Hi. unfold store_le.
  rewrite mwrite_inside by lia. f_equal. lia.
Qed.

Lemma load_mwrite_disjoint (n : nat) (m : mem) (p q k : Z) (src : Z -> Z) :
  q + Z.of_nat n <= p \/ p + k <= q ->
  load_le (mwrite m p k src) q n = load_le m q n.
Proof.
  intros H. apply load_le_ext. intros i Hi. apply mwrite_outside. lia.
Qed.

Lemma load32_store32_same (m : mem) (p v : Z) :
  load32 (store32 m p v) p = v mod 2 ^ 32.
Proof. exact (load_store_same 4 m p v). Qed.

Lemma load64_store64_same (m : mem) (p v : Z) :
  load64 (store64 m p v) p = v mod 2 ^ 64.
Proof. exact (load_store_same 8 m p v). Qed.

Lemma load32_store32_other (m : mem) (p q v : Z) :
  q + 4 <= p \/ p + 4 <= q -> load32 (store32 m p v) q = load32 m q.
Proof. intros H. apply (load_mwrite_disjoint 4). lia. Qed.

(** ** emitLoaderMap *)

Section EmitLoaderMapFacts.

Variable PAGE_SIZE : Z.
Variable IS_ABSOLUTE : Z -> bool.
Variable BASE_ADDRESS : Z -> Z.

Local Abbreviation emitLoaderMap := (emitLoaderMap PAGE_SIZE IS_ABSOLUTE BASE_ADDRESS).

Local Abbreviation track_ub := (track_ub IS_ABSOLUTE).
Local Abbreviation addr_pages := (addr_pages PAGE_SIZE BASE_ADDRESS).
Local Abbreviation len_pages := (len_pages PAGE_SIZE).
Local Abbreviation offset_pages := (offset_pages PAGE_SIZE).
Local Abbreviation map_written := (map_written PAGE_SIZE IS_ABSOLUTE BASE_ADDRESS).

Lemma emitLoaderMap_cases data map addr len offset r w x ub :
  emitLoaderMap data map addr len offset r w x ub =
    if (addr_pages addr <? INT32_MIN) || (addr_pages addr >? INT32_MAX)
    then Err (if addr_pages addr <? 0 then ErrMapAddrUnderflow else ErrMapAddrOverflow)
    else if len_pages len >=? 2 ^ 21 then Err ErrMapSizeOverflow
    else if offset_pages offset >? UINT32_MAX then Err ErrMapOffsetOverflow
    else OK (map_written data map addr len offset r w x, track_ub ub addr,
             sizeof_e9_map_s).
Proof. reflexivity. Qed.

Lemma map_bits_range old size r w x abs : 0 <= map_bits old size r w x abs < 2 ^ 32.
Proof.
  unfold map_bits.
  pose proof (Z.mod_pos_bound size (2 ^ 20) ltac:(lia)).
  pose proof (Z.mod_pos_bound (old / 2 ^ 20) (2 ^ 8) ltac:(lia)).
  destruct r, w, x, abs; simpl b2z; lia.
Qed.

Lemma map_size_written data map addr len offset r w x :
  map_size (map_written data map addr len offset r w x) map = u16 (len_pages len).
Proof.
  unfold map_size, map_written. rewrite load32_store32_same.
  rewrite (Z.mod_small _ (2 ^ 32)) by apply map_bits_range.
  unfold map_bits, u16.
  pose proof (Z.mod_pos_bound (len_pages len) (2 ^ 16) ltac:(lia)).
  rewrite (Z.mod_small (_ mod 2 ^ 16) (2 ^ 20)) by lia.
  set (s := len_pages len mod 2 ^ 16) in *.
  set (o := (_ / 2 ^ 20) mod 2 ^ 8).
  replace (s + 2 ^ 20 * o + 2 ^ 28 * b2z r + 2 ^ 29 * b2z w + 2 ^ 30 * b2z x
           + 2 ^ 31 * b2z (IS_ABSOLUTE addr))
    with (s + (o + 2 ^ 8 * b2z r + 2 ^ 9 * b2z w + 2 ^ 10 * b2z x
              + 2 ^ 11 * b2z (IS_ABSOLUTE addr)) * 2 ^ 20) by lia.
  rewrite Z.mod_add by lia. apply Z.mod_small. lia.
Qed.

(** C1 (the code departs from the claim): a length of 2^16 pages or more,
    below 2^21 pages, passes the size check ([1 << 21], where the field
    has 20 bits), and the [size] field of the record is the length
    reduced modulo 2^16 (the [uint16_t] cast), not the page-divided
    length. *)
Theorem emitLoaderMap_size_clipped data map addr len offset r w x ub :
  INT32_MIN <= addr_pages addr <= INT32_MAX ->
  2 ^ 16 <= len_pages len < 2 ^ 21 ->
  offset_pages offset <= UINT32_MAX ->
  exists data',
    emitLoaderMap data map addr len offset r w x ub
      = OK (data', track_ub ub addr, sizeof_e9_map_s)
    /\ map_size data' map = len_pages len mod 2 ^ 16
    /\ map_size data' map <> len_pages len.
Proof.
  intros Ha Hl Ho. rewrite emitLoaderMap_cases.
  replace ((addr_pages addr <? INT32_MIN) || (addr_pages addr >? INT32_MAX))
    with false by (symmetry; apply orb_false_iff; split; lia).
  replace (len_pages len >=? 2 ^ 21) with false by lia.
  replace (offset_pages offset >? UINT32_MAX) with false by lia.
  eexists. split; [reflexivity|].
  rewrite map_size_written. unfold u16. split; [reflexivity|].
  pose proof (Z.mod_pos_bound (len_pages len) (2 ^ 16) ltac:(lia)). lia.
Qed.

End EmitLoaderMapFacts.

Lemma emitLoaderMap_size_clipped_witness :
  exists data',
    emitLoaderMap 4096 (fun _ => false) (fun a => a) (fun _ => 0) 0
      0 (65536 * 4096) 0 true false true None
    = OK (data', None, 12)
    /\ map_size data' 0 = 0
    /\ map_size data' 0 <> 65536.
Proof.
  destruct (emitLoaderMap_size_clipped 4096 (fun _ => false) (fun a => a)
              (fun _ => 0) 0 0 (65536 * 4096) 0 true false true None)
    as [data' H]; [vm_compute; split; discriminate
                  | vm_compute; split; [discriminate | reflexivity]
                  | vm_compute; discriminate | ].
  exists data'. exact H.
Defined.

(** ** parseElf *)

Section ParseFacts.

Variable Allocator : Type.
Variable reserve : Allocator -> Z -> Z -> bool * Allocator.
Variable RELATIVE_ADDRESS_MIN : Z.

Local Abbreviation parseElf := (parseElf Allocator reserve RELATIVE_ADDRESS_MIN).
Local Abbreviation classify := (classify Allocator reserve).
Local Abbreviation parsePhdrs := (parsePhdrs Allocator reserve).

(** An executable file is refused in DSO mode before any reservation. *)
Lemma classify_exec_dso alloc :
  classify ET_EXEC MODE_ELF_DSO alloc = Err ErrExecutableNotSharedObject.
Proof. reflexivity. Qed.

(** A shared object in executable mode is a PIE; nothing is reserved. *)
Lemma classify_dyn_exe alloc :
  classify ET_DYN MODE_ELF_EXE alloc = OK (true, true, alloc).
Proof. reflexivity. Qed.

(** Every error of [parseElf] up to the type check is a malformed input. *)
Lemma parseElf_exec_dso B alloc :
  B_mode B = MODE_ELF_DSO ->
  load16 (B_patched_bytes B) off_e_type = ET_EXEC ->
  exists e, parseElf B alloc = Err e /\ error_kind e = MalformedInput.
Proof.
  intros Hmode Htype. unfold parseElf.
  repeat match goal with
         | |- context [if ?c then Err ?e else _] =>
             destruct c; [exists e; split; reflexivity|]
         end.
  change (0 + off_e_type) with off_e_type. rewrite Htype, Hmode.
  rewrite classify_exec_dso. simpl.
  eexists. split; reflexivity.
Qed.

Lemma parseElf_dyn_exe B alloc :
  B_mode B = MODE_ELF_EXE ->
  load16 (B_patched_bytes B) off_e_type = ET_DYN ->
  header_ok B = true ->
  parseElf B alloc =
    parsePhdrs (B_patched_bytes B) (B_size B)
      (load64 (B_patched_bytes B) off_e_phoff)
      (load16 (B_patched_bytes B) off_e_phnum) true alloc.
Proof.
  intros Hmode Htype Hok. unfold header_ok in Hok.
  repeat (apply andb_prop in Hok; destruct Hok as [Hok ?]).
  unfold parseElf.
  change (0 + off_e_type) with off_e_type.
  change (0 + off_e_phoff) with off_e_phoff.
  change (0 + off_e_phnum) with off_e_phnum.
  change (0 + off_e_machine) with off_e_machine.
  change (0 + EI_CLASS) with EI_CLASS. change (0 + EI_DATA) with EI_DATA.
  change (0 + EI_VERSION) with EI_VERSION.
  change (0 + 0) with 0. change (0 + 1) with 1. change (0 + 2) with 2.
  change (0 + 3) with 3.
  rewrite Htype, Hmode, classify_dyn_exe.
  repeat match goal with
         | H : ?c = true |- context [?c] => rewrite H
         end.
  replace (B_size B <? sizeof_Elf64_Ehdr) with false by lia.
  replace (load64 (B_patched_bytes B) off_e_phoff <? sizeof_Elf64_Ehdr)
    with false by lia.
  replace (load64 (B_patched_bytes B) off_e_phoff >=? B_size B)
    with false by lia.
  replace (load16 (B_patched_bytes B) off_e_phnum >? PN_XNUM) with false by lia.
  match goal with
  | |- context [?a >? B_size B] => replace (a >? B_size B) with false by lia
  end.
  reflexivity.
Qed.

(** C3 (amended): [parseElf] rejects, as a malformed input, every
    [ET_EXEC] file when the requested mode is DSO.  An [ET_DYN] file in
    executable mode is not rejected for its type: once the header checks
    pass it is parsed as a position-independent executable ([pic] is
    true), with no reservation made before the program headers are
    walked. *)
Theorem parseElf_type_mode B alloc :
  let e_type := load16 (B_patched_bytes B) off_e_type in
  (B_mode B = MODE_ELF_DSO -> e_type = ET_EXEC ->
   exists e, parseElf B alloc = Err e /\ error_kind e = MalformedInput)
  /\ (B_mode B = MODE_ELF_EXE -> e_type = ET_DYN -> header_ok B = true ->
      parseElf B alloc =
        parsePhdrs (B_patched_bytes B) (B_size B)
          (load64 (B_patched_bytes B) off_e_phoff)
          (load16 (B_patched_bytes B) off_e_phnum) true alloc).
Proof.
  split.
  - apply parseElf_exec_dso.
  - apply parseElf_dyn_exe.
Qed.

End ParseFacts.

(** C3, the claim as stated fails: a well-formed [ET_DYN] file is
    accepted in executable mode. *)
Lemma parseElf_accepts_dyn_in_exe_mode :
  load16 (B_patched_bytes (ex_binary MODE_ELF_EXE ET_DYN)) off_e_type = ET_DYN
  /\ B_mode (ex_binary MODE_ELF_EXE ET_DYN) = MODE_ELF_EXE
  /\ parseElf unit ex_reserve 0 (ex_binary MODE_ELF_EXE ET_DYN) tt
     = OK (true, ex_elf, tt).
Proof. vm_compute. repeat split. Qed.

Lemma parseElf_type_mode_witness :
  (exists e, parseElf unit ex_reserve 0 (ex_binary MODE_ELF_DSO ET_EXEC) tt = Err e
             /\ error_kind e = MalformedInput)
  /\ parseElf unit ex_reserve 0 (ex_binary MODE_ELF_EXE ET_DYN) tt
     = parsePhdrs unit ex_reserve
         (B_patched_bytes (ex_binary MODE_ELF_EXE ET_DYN)) 280 64 3 true tt.
Proof.
  split.
  - apply (proj1 (parseElf_type_mode unit ex_reserve 0
                    (ex_binary MODE_ELF_DSO ET_EXEC) tt)); reflexivity.
  - apply (proj2 (parseElf_type_mode unit ex_reserve 0
                    (ex_binary MODE_ELF_EXE ET_DYN) tt)); reflexivity.
Defined.

(** ** The refactoring search *)

Lemma fold_result_app {A S : Type} (f : S -> A -> result S) (l1 l2 : list A) (s : S) :
  fold_result f (l1 ++ l2) s = (s' <- fold_result f l1 s ;; fold_result f l2 s').
Proof.
  revert s. induction l1 as [|a l1 IH]; intros s; simpl; auto.
  destruct (f s a); simpl; auto.
Qed.

Section PlannerFacts.

Variable PAGE_SIZE : Z.
Variable opts : Options.

Local Abbreviation page_floor := (page_floor PAGE_SIZE).
Local Abbreviation page_offsets := (page_offsets PAGE_SIZE).
Local Abbreviation find_refactoring := (find_refactoring PAGE_SIZE).
Local Abbreviation findRefactorings := (findRefactorings PAGE_SIZE).
Local Abbreviation dirty_pages := (dirty_pages PAGE_SIZE).

(** Pages equal to the original are skipped. *)
Lemma fold_find_refactoring_dirty original data mapping_size Is l st :
  fold_result (find_refactoring original data mapping_size Is) l st =
  fold_result (find_refactoring original data mapping_size Is)
    (filter (fun offset => negb (mem_eqb original data offset PAGE_SIZE)) l) st.
Proof.
  revert st. induction l as [|o l IH]; intros st; simpl; auto.
  destruct (mem_eqb original data o PAGE_SIZE) eqn:E; simpl.
  - unfold find_refactoring at 1. destruct st as [c rs]. rewrite E. simpl. apply IH.
  - destruct (find_refactoring original data mapping_size Is st o); simpl; auto.
Qed.

(** The decision taken for a patched page. *)
Lemma find_refactoring_dirty original data mapping_size Is c refactors offset ins :
  mem_eqb original data offset PAGE_SIZE = false ->
  lower_bound Is offset = Some ins ->
  page_floor (I_offset ins) = offset ->
  - 2 ^ 63 <= curr_addr c + curr_size c + mapping_size < 2 ^ 63 ->
  let page_addr := page_floor (I_addr ins) in
  find_refactoring original data mapping_size Is (c, refactors) offset =
    if (0 <=? curr_addr c) && (curr_addr c <=? page_addr)
       && (page_addr <=? curr_addr c + curr_size c + mapping_size)
    then OK (mkCluster (curr_addr c) (curr_offset c)
               (u64 (page_addr + PAGE_SIZE - curr_addr c)), refactors)
    else OK (mkCluster page_addr offset PAGE_SIZE,
             if 0 <=? curr_addr c
             then refactors ++ [newRefactor (curr_addr c) (curr_offset c) (curr_size c)]
             else refactors).
Proof.
  intros Hd Hlb Hoff Hrange page_addr. unfold find_refactoring.
  rewrite Hd, Hlb, Hoff, Z.eqb_refl. cbn [negb]. fold page_addr.
  assert (Hs : s64 (curr_addr c + curr_size c + mapping_size)
               = curr_addr c + curr_size c + mapping_size).
  { unfold s64. rewrite Z.mod_small by lia. lia. }
  rewrite Hs.
  destruct (Z.ltb_spec (curr_addr c) 0) as [H0|H0]; cbn [orb].
  { replace (0 <=? curr_addr c) with false by lia.
    replace (curr_addr c >=? 0) with false by lia. reflexivity. }
  replace (0 <=? curr_addr c) with true by lia.
  replace (curr_addr c >=? 0) with true by lia. cbn [andb].
  destruct (Z.ltb_spec page_addr (curr_addr c)) as [H1|H1]; cbn [orb].
  { replace (curr_addr c <=? page_addr) with false by lia. reflexivity. }
  replace (curr_addr c <=? page_addr) with true by lia. cbn [andb].
  destruct (Z.ltb_spec (curr_addr c + curr_size c + mapping_size) page_addr) as [H2|H2].
  { replace (page_addr <=? curr_addr c + curr_size c + mapping_size)
      with false by lia. reflexivity. }
  replace (page_addr <=? curr_addr c + curr_size c + mapping_size) with true by lia.
  do 3 f_equal. f_equal. lia.
Qed.

(** The search over two patched pages. *)
Lemma findRefactorings_two original data size mapping_size Is o1 o2 i1 i2 A A2 :
  dirty_pages original data size = [o1; o2] ->
  lower_bound Is o1 = Some i1 -> lower_bound Is o2 = Some i2 ->
  page_floor (I_offset i1) = o1 -> page_floor (I_offset i2) = o2 ->
  page_floor (I_addr i1) = A -> page_floor (I_addr i2) = A2 ->
  0 <= A -> 0 < PAGE_SIZE -> 0 <= mapping_size ->
  A + PAGE_SIZE + mapping_size < 2 ^ 63 ->
  0 <= A2 -> A2 + PAGE_SIZE < 2 ^ 63 ->
  findRefactorings original data size mapping_size Is [] =
    OK (if (A <=? A2) && (A2 <=? A + PAGE_SIZE + mapping_size)
        then [newRefactor A o1 (A2 + PAGE_SIZE - A)]
        else [newRefactor A o1 PAGE_SIZE; newRefactor A2 o2 PAGE_SIZE]).
Proof.
  intros Hdirty Hl1 Hl2 Ho1 Ho2 Ha1 Ha2 HA HP HM Hno HA2 Hno2.
  unfold findRefactorings. rewrite fold_find_refactoring_dirty.
  fold (dirty_pages original data size). rewrite Hdirty.
  assert (Hd1 : mem_eqb original data o1 PAGE_SIZE = false
                /\ mem_eqb original data o2 PAGE_SIZE = false).
  { assert (Hin : forall o, In o [o1; o2] ->
                            mem_eqb original data o PAGE_SIZE = false).
    { intros o Ho. rewrite <- Hdirty in Ho. unfold dirty_pages in Ho.
      apply filter_In in Ho. destruct Ho as [_ Ho].
      now apply negb_true_iff in Ho. }
    split; apply Hin; simpl; auto. }
  destruct Hd1 as [Hd1 Hd2].
  cbn [fold_result].
  rewrite (find_refactoring_dirty _ _ _ _ _ _ _ _ Hd1 Hl1 Ho1)
    by (cbn [curr_addr curr_size]; unfold INTPTR_MIN; lia).
  cbn [curr_addr curr_size curr_offset]. rewrite Ha1.
  change (0 <=? INTPTR_MIN) with false. cbn [andb bind].
  rewrite (find_refactoring_dirty _ _ _ _ _ _ _ _ Hd2 Hl2 Ho2)
    by (cbn [curr_addr curr_size]; lia).
  cbn [curr_addr curr_size curr_offset]. rewrite Ha2.
  replace (0 <=? A) with true by lia. cbn [andb].
  destruct ((A <=? A2) && (A2 <=? A + PAGE_SIZE + mapping_size)) eqn:E;
    cbn [bind curr_addr curr_size curr_offset app].
  - replace (A >=? 0) with true by lia.
    apply andb_prop in E. destruct E as [E1 E2].
    unfold u64. rewrite Z.mod_small by lia. reflexivity.
  - replace (A2 >=? 0) with true by lia. reflexivity.
Qed.

(** C5 (amended): a patched page is merged into the open cluster exactly
    when its address is not below the cluster and not above the
    cluster's end plus [mapping_size]; otherwise the open cluster is
    flushed and a new one starts at the page.  Consequently two patched
    pages at [A] and [A + mapping_size + 2 * PAGE_SIZE] give two
    refactors, pages at [A] and [A + mapping_size + PAGE_SIZE] give one
    (of size [mapping_size + 2 * PAGE_SIZE]), and pages at [A] and
    [A + mapping_size - PAGE_SIZE] give one of size [mapping_size]. *)
Theorem refactor_clustering original data size mapping_size Is :
  (forall c refactors offset ins,
      mem_eqb original data offset PAGE_SIZE = false ->
      lower_bound Is offset = Some ins ->
      page_floor (I_offset ins) = offset ->
      - 2 ^ 63 <= curr_addr c + curr_size c + mapping_size < 2 ^ 63 ->
      let page_addr := page_floor (I_addr ins) in
      find_refactoring original data mapping_size Is (c, refactors) offset =
        if (0 <=? curr_addr c) && (curr_addr c <=? page_addr)
           && (page_addr <=? curr_addr c + curr_size c + mapping_size)
        then OK (mkCluster (curr_addr c) (curr_offset c)
                   (u64 (page_addr + PAGE_SIZE - curr_addr c)), refactors)
        else OK (mkCluster page_addr offset PAGE_SIZE,
                 if 0 <=? curr_addr c
                 then refactors
                      ++ [newRefactor (curr_addr c) (curr_offset c) (curr_size c)]
                 else refactors))
  /\ (forall o1 o2 i1 i2 A,
      dirty_pages original data size = [o1; o2] ->
      lower_bound Is o1 = Some i1 -> lower_bound Is o2 = Some i2 ->
      page_floor (I_offset i1) = o1 -> page_floor (I_offset i2) = o2 ->
      page_floor (I_addr i1) = A ->
      0 <= A -> 0 < PAGE_SIZE <= mapping_size ->
      A + mapping_size + 3 * PAGE_SIZE < 2 ^ 63 ->
      (page_floor (I_addr i2) = A + mapping_size + 2 * PAGE_SIZE ->
       findRefactorings original data size mapping_size Is [] =
         OK [newRefactor A o1 PAGE_SIZE;
             newRefactor (A + mapping_size + 2 * PAGE_SIZE) o2 PAGE_SIZE])
      /\ (page_floor (I_addr i2) = A + mapping_size + PAGE_SIZE ->
          findRefactorings original data size mapping_size Is [] =
            OK [newRefactor A o1 (mapping_size + 2 * PAGE_SIZE)])
      /\ (page_floor (I_addr i2) = A + mapping_size - PAGE_SIZE ->
          findRefactorings original data size mapping_size Is [] =
            OK [newRefactor A o1 mapping_size])).
Proof.
  split.
  - intros. now apply find_refactoring_dirty.
  - intros o1 o2 i1 i2 A Hdirty Hl1 Hl2 Ho1 Ho2 Ha1 HA HP Hno.
    repeat split; intros Ha2;
      rewrite (findRefactorings_two _ _ _ _ _ _ _ _ _ _ _
                 Hdirty Hl1 Hl2 Ho1 Ho2 Ha1 Ha2) by lia.
    + replace ((A <=? A + mapping_size + 2 * PAGE_SIZE)
               && (A + mapping_size + 2 * PAGE_SIZE <=? A + PAGE_SIZE + mapping_size))
        with false by (symmetry; apply andb_false_iff; right; lia).
      reflexivity.
    + replace ((A <=? A + mapping_size + PAGE_SIZE)
               && (A + mapping_size + PAGE_SIZE <=? A + PAGE_SIZE + mapping_size))
        with true by (symmetry; apply andb_true_iff; split; lia).
      do 3 f_equal. lia.
    + replace ((A <=? A + mapping_size - PAGE_SIZE)
               && (A + mapping_size - PAGE_SIZE <=? A + PAGE_SIZE + mapping_size))
        with true by (symmetry; apply andb_true_iff; split; lia).
      do 3 f_equal. lia.
Qed.

End PlannerFacts.

(** C5, the claim as stated fails: with pages of 4096 bytes and a mapping
    size of 65536, patched pages at [A = 0x400000] and at
    [A + mapping_size + PAGE_SIZE] are merged into one refactor. *)
Lemma refactor_clustering_merges_at_mapping_size_plus_page :
  dirty_pages 4096 ex_zeros (ex_dirty [0; 4096]) 8192 = [0; 4096]
  /\ findRefactorings 4096 ex_zeros (ex_dirty [0; 4096]) 8192 65536
       (ex_Is 0x400000 (0x400000 + 65536 + 4096)) []
     = OK [newRefactor 0x400000 0 (65536 + 2 * 4096)].
Proof. vm_compute. split; reflexivity. Qed.

Lemma refactor_clustering_witness :
  findRefactorings 4096 ex_zeros (ex_dirty [0; 4096]) 8192 65536
    (ex_Is 0x400000 (0x400000 + 65536 + 2 * 4096)) []
  = OK [newRefactor 0x400000 0 4096;
        newRefactor (0x400000 + 65536 + 2 * 4096) 4096 4096]
  /\ findRefactorings 4096 ex_zeros (ex_dirty [0; 4096]) 8192 65536
       (ex_Is 0x400000 (0x400000 + 65536 - 4096)) []
     = OK [newRefactor 0x400000 0 65536].
Proof.
  split.
  - apply (proj2 (refactor_clustering 4096 ex_zeros (ex_dirty [0; 4096]) 8192 65536
                    (ex_Is 0x400000 (0x400000 + 65536 + 2 * 4096)))
             0 4096 (mkInstr 0x400000 0)
             (mkInstr (0x400000 + 65536 + 2 * 4096) 4096) 0x400000);
      try (vm_compute; reflexivity); try lia.
  - apply (proj2 (refactor_clustering 4096 ex_zeros (ex_dirty [0; 4096]) 8192 65536
                    (ex_Is 0x400000 (0x400000 + 65536 - 4096)))
             0 4096 (mkInstr 0x400000 0)
             (mkInstr (0x400000 + 65536 - 4096) 4096) 0x400000);
      try (vm_compute; reflexivity); try lia.
Defined.

(** ** Results and fixed-width integers *)

Lemma bind_OK_inv {A B : Type} (c : result A) (k : A -> result B) (b : B) :
  bind c k = OK b -> exists a, c = OK a /\ k a = OK b.
Proof. destruct c as [a|e]; simpl; intros H; [eauto | discriminate]. Qed.

Lemma divide_u64 (p x : Z) : (p | 2 ^ 64) -> (p | x) -> (p | u64 x).
Proof.
  intros Hp Hx. unfold u64. rewrite Z.mod_eq by lia.
  apply Z.divide_sub_r; auto. now apply Z.divide_mul_l.
Qed.

Lemma divide_s64 (p x : Z) : (p | 2 ^ 64) -> (p | x) -> (p | s64 x).
Proof.
  intros Hp Hx. unfold s64. rewrite Z.mod_eq by lia.
  replace (x + 2 ^ 63 - 2 ^ 64 * ((x + 2 ^ 63) / 2 ^ 64) - 2 ^ 63)
    with (x - 2 ^ 64 * ((x + 2 ^ 63) / 2 ^ 64)) by lia.
  apply Z.divide_sub_r; auto. now apply Z.divide_mul_l.
Qed.

Lemma u64_range (x : Z) : 0 <= u64 x < 2 ^ 64.
Proof. unfold u64. apply Z.mod_pos_bound. lia. Qed.

Lemma u64_small (x : Z) : 0 <= x < 2 ^ 64 -> u64 x = x.
Proof. intros H. unfold u64. now apply Z.mod_small. Qed.

Lemma s64_small (x : Z) : - 2 ^ 63 <= x < 2 ^ 63 -> s64 x = x.
Proof. intros H. unfold s64. rewrite Z.mod_small by lia. lia. Qed.

Lemma u64_sub_add (a b : Z) : 0 <= a < 2 ^ 64 -> u64 (b + u64 (a - b)) = a.
Proof.
  intros Ha. unfold u64. rewrite Zplus_mod_idemp_r.
  replace (b + (a - b)) with a by lia. now apply Z.mod_small.
Qed.

(** ** Page alignment *)

Section AlignmentFacts.

Variable PAGE_SIZE : Z.
Variable opts : Options.
Hypothesis PAGE_SIZE_pos : 0 < PAGE_SIZE.
Hypothesis PAGE_SIZE_divides : (PAGE_SIZE | 2 ^ 64).

Local Abbreviation page_floor := (page_floor PAGE_SIZE).
Local Abbreviation round_up := (round_up PAGE_SIZE).
Local Abbreviation find_refactoring := (find_refactoring PAGE_SIZE).
Local Abbreviation findRefactorings := (findRefactorings PAGE_SIZE).
Local Abbreviation emitRefactoredPatch := (emitRefactoredPatch PAGE_SIZE opts).
Local Abbreviation aligned_plan := (aligned_plan PAGE_SIZE).

Lemma round_up_divide (size : Z) : (PAGE_SIZE | round_up size).
Proof.
  unfold round_up. destruct (Z.eqb_spec (size mod PAGE_SIZE) 0) as [E|E].
  - apply Z.mod_divide; [lia | exact E].
  - apply divide_u64; auto.
    exists (size / PAGE_SIZE + 1).
    rewrite (Z.div_mod size PAGE_SIZE) at 1 by lia. lia.
Qed.

Lemma page_floor_divide (a : Z) : (PAGE_SIZE | page_floor a).
Proof.
  unfold page_floor. apply divide_s64; auto.
  exists (u64 a / PAGE_SIZE).
  rewrite (Z.div_mod (u64 a) PAGE_SIZE) at 1 by lia. lia.
Qed.

Lemma find_refactoring_aligned original data mapping_size Is st offset st' :
  aligned_plan st ->
  find_refactoring original data mapping_size Is st offset = OK st' ->
  aligned_plan st'.
Proof.
  intros (Hs & Ha & Hr) H. destruct st as [c rs]. cbn [fst snd] in *.
  unfold find_refactoring in H.
  destruct (mem_eqb original data offset PAGE_SIZE).
  { injection H as <-. repeat split; auto. }
  destruct (lower_bound Is offset) as [ins|]; [|discriminate].
  destruct (negb (page_floor (I_offset ins) =? offset)); [discriminate|].
  destruct ((curr_addr c <? 0) || (page_floor (I_addr ins) <? curr_addr c)
            || (s64 (curr_addr c + curr_size c + mapping_size)
                <? page_floor (I_addr ins))) eqn:E.
  - injection H as <-. cbn [fst snd curr_size curr_addr]. repeat split.
    + apply Z.divide_refl.
    + intros _. apply page_floor_divide.
    + destruct (curr_addr c >=? 0); auto.
      apply Forall_app. split; auto.
  - injection H as <-. cbn [fst snd curr_size curr_addr].
    apply orb_false_iff in E. destruct E as [E _].
    apply orb_false_iff in E. destruct E as [E _].
    assert (H0 : 0 <= curr_addr c) by lia.
    repeat split; auto.
    apply divide_u64; auto.
    apply Z.divide_add_r; auto.
    apply Z.divide_sub_r.
    + apply Z.divide_add_r; [apply page_floor_divide | apply Z.divide_refl].
    + apply Z.divide_add_r; auto.
Qed.

Lemma fold_find_refactoring_aligned original data mapping_size Is l st st' :
  aligned_plan st ->
  fold_result (find_refactoring original data mapping_size Is) l st = OK st' ->
  aligned_plan st'.
Proof.
  revert st. induction l as [|o l IH]; intros st Hst H; simpl in H.
  - now injection H as <-.
  - apply bind_OK_inv in H. destruct H as (st1 & H1 & H2).
    eapply IH; [|exact H2]. eapply find_refactoring_aligned; eauto.
Qed.

Lemma findRefactorings_aligned original data size mapping_size Is rs :
  findRefactorings original data size mapping_size Is [] = OK rs ->
  Forall (fun r => (PAGE_SIZE | r_size r)) rs.
Proof.
  unfold findRefactorings. intros H.
  apply bind_OK_inv in H. destruct H as ([c rs0] & H1 & H2).
  apply fold_find_refactoring_aligned in H1.
  - destruct H1 as (Hs & Ha & Hr). cbn [fst snd] in *.
    injection H2 as <-. destruct (curr_addr c >=? 0); auto.
    apply Forall_app. split; auto.
  - repeat split; cbn [fst snd curr_size curr_addr]; auto.
    + apply Z.divide_0_r.
    + unfold INTPTR_MIN. lia.
Qed.

Lemma restore_pages_size original data size rs data' size' rs' :
  restore_pages original data size rs = (data', size', rs') ->
  (PAGE_SIZE | size) ->
  Forall (fun r => (PAGE_SIZE | r_size r)) rs ->
  (PAGE_SIZE | size').
Proof.
  revert data size data' size' rs'.
  induction rs as [|r rs IH]; intros data size data' size' rs' H Hs Hr;
    cbn [restore_pages] in H.
  - now injection H as _ <- _.
  - destruct (restore_pages _ _ _ rs) as [[d1 s1] r1] eqn:E.
    injection H as _ <- _. inversion Hr; subst.
    eapply IH; [exact E | | assumption].
    apply divide_u64; auto. cbn [set_patched_offset r_size].
    apply Z.divide_add_r; auto.
Qed.

(** After step (2) the cursor is still a page multiple. *)
Lemma emitRefactoredPatch_aligned original data size mapping_size Is data' rs n :
  emitRefactoredPatch original data size mapping_size Is [] = OK (data', rs, n) ->
  (PAGE_SIZE | size) -> (PAGE_SIZE | u64 (size + n)).
Proof.
  intros H Hs. unfold emitRefactoredPatch in H.
  destruct (option_loader_static opts).
  { injection H as _ _ <-. apply divide_u64; auto. now rewrite Z.add_0_r. }
  destruct (negb (size mod PAGE_SIZE =? 0)); [discriminate|].
  apply bind_OK_inv in H. destruct H as (rs0 & H1 & H2).
  destruct (restore_pages original data size rs0) as [[d1 s1] r1] eqn:E.
  injection H2 as _ _ <-.
  apply divide_u64; auto. apply Z.divide_add_r; auto.
  apply divide_u64; auto. apply Z.divide_sub_r; auto.
  eapply restore_pages_size; eauto.
  eapply findRefactorings_aligned; eauto.
Qed.

End AlignmentFacts.

(** ** The refactoring round trip *)

Lemma total_size_nonneg size rs : Forall (in_file size) rs -> 0 <= total_size rs.
Proof.
  induction 1 as [|r rs Hr _ IH]; cbn [total_size fold_right]; [lia|].
  destruct Hr as (_ & H & _). fold (total_size rs). lia.
Qed.

(** Step #2 reads only the offsets and sizes of the refactors. *)
Lemma restore_pages_core original rs1 :
  forall rs2 data size,
    map (fun r => (r_original_offset r, r_size r)) rs1
    = map (fun r => (r_original_offset r, r_size r)) rs2 ->
    fst (restore_pages original data size rs1)
    = fst (restore_pages original data size rs2).
Proof.
  induction rs1 as [|r1 rs1 IH]; intros [|r2 rs2] data size H;
    try discriminate; [reflexivity|].
  cbn [map] in H. injection H as Ho Hs Hrest.
  cbn [restore_pages set_patched_offset r_original_offset r_size].
  rewrite Ho, Hs.
  specialize (IH rs2 (memcpy (memcpy data size data (r_original_offset r2) (r_size r2))
                        (r_original_offset r2) original (r_original_offset r2)
                        (r_size r2))
                (u64 (size + r_size r2)) Hrest).
  destruct (restore_pages original _ _ rs1) as [[d1 s1] l1].
  destruct (restore_pages original _ _ rs2) as [[d2 s2] l2].
  cbn [fst] in *. congruence.
Qed.

(** The result of step #2, when the ranges of the refactors lie within
    the first [size0] bytes and the file stays below 2^63 bytes. *)
Lemma restore_pages_spec original size0 :
  forall rs data size data' size' rs',
    restore_pages original data size rs = (data', size', rs') ->
    0 <= size0 <= size ->
    Forall (in_file size0) rs ->
    size + total_size rs < 2 ^ 63 ->
    size' = size + total_size rs
    /\ map (fun r => (r_original_offset r, r_size r)) rs'
       = map (fun r => (r_original_offset r, r_size r)) rs
    /\ (forall i r',
        nth_error rs' i = Some r' ->
        r_patched_offset r' = size + total_size (firstn i rs))
    /\ (forall p,
        0 <= p < size0 ->
        data' p = if existsb (covers p) rs then original p else data p)
    /\ (forall p, size0 <= p < size \/ size' <= p -> data' p = data p)
    /\ (forall i r k,
        nth_error rs i = Some r -> 0 <= k < r_size r ->
        data' (size + total_size (firstn i rs) + k)
        = buffer_before original data size rs i (r_original_offset r + k)).
Proof.
  induction rs as [|r rs IH]; intros data size data' size' rs' H Hs Hin Hno.
  - cbn [restore_pages] in H. injection H as <- <- <-.
    cbn [total_size fold_right existsb map]. repeat split; auto; try lia.
    + intros i r' Hn. destruct i; discriminate.
    + intros i r k Hn. destruct i; discriminate.
  - cbn [restore_pages set_patched_offset r_original_offset r_size] in H.
    inversion Hin as [|? ? Hr Hin']; subst.
    destruct Hr as (Ho & Hz & Hb).
    pose proof (total_size_nonneg _ _ Hin') as Ht.
    cbn [total_size fold_right] in Hno. fold (total_size rs) in Hno.
    rewrite (u64_small (size + r_size r)) in H by lia.
    rewrite (s64_small size) in H by lia.
    set (data1 := memcpy (memcpy data size data (r_original_offset r) (r_size r))
                    (r_original_offset r) original (r_original_offset r)
                    (r_size r)) in *.
    destruct (restore_pages original data1 (size + r_size r) rs)
      as [[d1 s1] l1] eqn:E.
    injection H as <- <- <-.
    destruct (IH _ _ _ _ _ E ltac:(lia) Hin' ltac:(lia))
      as (I1 & I2 & I3 & I4 & I5 & I6).
    assert (D1 : forall p, 0 <= p < size0 ->
                           data1 p = if covers p r then original p else data p).
    { intros p Hp. unfold data1, memcpy, covers, mwrite.
      destruct ((r_original_offset r <=? p) && (p <? r_original_offset r + r_size r)).
      - f_equal. lia.
      - replace ((size <=? p) && (p <? size + r_size r)) with false
          by (symmetry; apply andb_false_iff; left; lia).
        reflexivity. }
    assert (D2 : forall k, 0 <= k < r_size r ->
                           data1 (size + k) = data (r_original_offset r + k)).
    { intros k Hk. unfold data1, memcpy.
      rewrite mwrite_outside by lia. rewrite mwrite_inside by lia.
      f_equal. lia. }
    assert (D3 : forall p, size0 <= p < size \/ size + r_size r <= p ->
                           data1 p = data p).
    { intros p Hp. unfold data1, memcpy. rewrite !mwrite_outside by lia.
      reflexivity. }
    cbn [total_size fold_right]. fold (total_size rs).
    split; [lia|]. split; [cbn [map r_original_offset r_size]; now f_equal|].
    split; [|split; [|split]].
    + intros i r' Hn. destruct i as [|i].
      * injection Hn as <-.
        cbn [r_patched_offset set_patched_offset firstn total_size fold_right]. lia.
      * cbn [nth_error] in Hn. rewrite (I3 _ _ Hn).
        cbn [firstn total_size fold_right]. fold (total_size (firstn i rs)). lia.
    + intros p Hp. rewrite (I4 p Hp). cbn [existsb].
      rewrite (D1 p Hp). destruct (covers p r); cbn [orb].
      * destruct (existsb (covers p) rs); reflexivity.
      * reflexivity.
    + intros p Hp. rewrite I5 by lia. apply D3. lia.
    + intros i r0 k Hn Hk. destruct i as [|i].
      * injection Hn as <-. cbn [firstn total_size fold_right].
        rewrite Z.add_0_r. rewrite I5 by lia.
        unfold buffer_before. cbn [firstn restore_pages fst]. apply D2. lia.
      * cbn [nth_error] in Hn.
        cbn [firstn total_size fold_right]. fold (total_size (firstn i rs)).
        replace (size + (r_size r + total_size (firstn i rs)) + k)
          with (size + r_size r + total_size (firstn i rs) + k) by lia.
        rewrite (I6 _ _ _ Hn Hk).
        unfold buffer_before.
        cbn [firstn restore_pages set_patched_offset r_original_offset r_size].
        rewrite (u64_small (size + r_size r)) by lia.
        fold data1.
        destruct (restore_pages original data1 (size + r_size r) (firstn i rs))
          as [[d2 s2] l2].
        reflexivity.
Qed.

Lemma restore_pages_idem original :
  forall rs data size data' size' rs',
    restore_pages original data size rs = (data', size', rs') ->
    restore_pages original data size rs' = (data', size', rs').
Proof.
  induction rs as [|r rs IH]; intros data size data' size' rs' H;
    cbn [restore_pages] in H.
  - injection H as <- <- <-. reflexivity.
  - destruct (restore_pages original _ _ rs) as [[d1 s1] l1] eqn:E.
    injection H as <- <- <-.
    cbn [restore_pages set_patched_offset r_original_offset r_size r_addr] in *.
    rewrite (IH _ _ _ _ _ E). reflexivity.
Qed.



Section RefactorRoundTrip.

Variable PAGE_SIZE : Z.
Variable opts : Options.

Local Abbreviation emitRefactoredPatch := (emitRefactoredPatch PAGE_SIZE opts).


End RefactorRoundTrip.

(** What a successful result shows through an observation [f]. *)
Lemma result_observe {A B : Type} (r : result A) (f : A -> B) (b : B) :
  match r with OK a => Some (f a) | Err _ => None end = Some b ->
  exists a, r = OK a /\ f a = b.
Proof.
  destruct r as [a|e]; intros H; [|discriminate].
  exists a. split; [reflexivity | congruence].
Defined.

(** ** emitElf: the steps behind a successful emission *)

Section EmitElfFacts.

Variable PAGE_SIZE : Z.
Variable IS_ABSOLUTE : Z -> bool.
Variable BASE_ADDRESS : Z -> Z.
Variable getVirtualBounds : Mapping -> Z -> list Bounds.
Variable flattenMapping : Binary -> mem -> Z -> Mapping -> Z -> mem.
Variable e9loader_elf_bin : list Z.
Variable sizeof_e9_config_elf_s : Z.
Variable opts : Options.

#[local] Set Default Proof Using "Type".

Local Abbreviation round_up := (round_up PAGE_SIZE).
Local Abbreviation emitRefactoredPatch := (emitRefactoredPatch PAGE_SIZE opts).
Local Abbreviation emitLoaderMap := (emitLoaderMap PAGE_SIZE IS_ABSOLUTE BASE_ADDRESS).
Local Abbreviation emitMappings := (emitMappings flattenMapping).
Local Abbreviation emitConfig := (emitConfig opts).
Local Abbreviation emitBound := (emitBound PAGE_SIZE IS_ABSOLUTE BASE_ADDRESS).
Local Abbreviation emitNode :=
  (emitNode PAGE_SIZE IS_ABSOLUTE BASE_ADDRESS getVirtualBounds).
Local Abbreviation emitMapping :=
  (emitMapping PAGE_SIZE IS_ABSOLUTE BASE_ADDRESS getVirtualBounds).
Local Abbreviation emitMapArray :=
  (emitMapArray PAGE_SIZE IS_ABSOLUTE BASE_ADDRESS getVirtualBounds).
Local Abbreviation emitRefactorMap :=
  (emitRefactorMap PAGE_SIZE IS_ABSOLUTE BASE_ADDRESS).
Local Abbreviation emitShim := (emitShim e9loader_elf_bin opts).
Local Abbreviation emitArrays :=
  (emitArrays PAGE_SIZE IS_ABSOLUTE BASE_ADDRESS getVirtualBounds flattenMapping
     sizeof_e9_config_elf_s opts).
Local Abbreviation emitLoader :=
  (emitLoader PAGE_SIZE IS_ABSOLUTE BASE_ADDRESS getVirtualBounds flattenMapping
     e9loader_elf_bin sizeof_e9_config_elf_s opts).
Local Abbreviation modifyPhdr := (modifyPhdr PAGE_SIZE opts).
Local Abbreviation emitElf :=
  (emitElf PAGE_SIZE IS_ABSOLUTE BASE_ADDRESS getVirtualBounds flattenMapping
     e9loader_elf_bin sizeof_e9_config_elf_s opts).

(** The intermediate buffers and cursors of steps (1) to (4). *)
Lemma emitArrays_inv B mappings mapping_size lay :
  emitArrays B mappings mapping_size = OK lay ->
  exists data1 n data2 size2 data3 size3,
    let size1 := round_up (B_patched_size B) in
    let B' := set_config B (option_loader_base opts) in
    let config := round_up size2 in
    let size_c := u64 (u64 (config + sizeof_e9_config_s) + sizeof_e9_config_elf_s) in
    emitRefactoredPatch (B_original_bytes B) (B_patched_bytes B) size1
      mapping_size (B_Is B) [] = OK (data1, lay_refactors lay, n)
    /\ emitMappings B' data1 (u64 (size1 + n)) mappings
       = (data2, size2, lay_mappings lay)
    /\ lay_config_offset lay = config
    /\ emitInits (emitConfig B' data2 config size_c) config size_c (B_inits B)
       = (data3, size3)
    /\ fold_result (emitMapArray config (lay_mappings lay)) [0; 1]
         (data3, size3, INTPTR_MIN)
       = OK (lay_data lay, lay_size lay, lay_ub lay).
Proof.
  unfold emitArrays. intros H.
  apply bind_OK_inv in H. destruct H as ([[data1 rs] n] & H1 & H).
  destruct (emitMappings _ data1 _ mappings) as [[data2 size2] ms] eqn:H2.
  destruct (emitInits _ _ _ _) as [data3 size3] eqn:H3.
  apply bind_OK_inv in H. destruct H as ([[data4 size4] ub] & H4 & H).
  injection H as <-.
  cbn [lay_refactors lay_mappings lay_config_offset lay_data lay_size lay_ub].
  exists data1, n, data2, size2, data3, size3.
  cbn zeta. repeat split; auto.
Qed.

Lemma emitLoader_inv B mappings mapping_size out :
  emitLoader B mappings mapping_size = OK out ->
  exists lay data5 size5 data6,
    let config := lay_config_offset lay in
    emitArrays B mappings mapping_size = OK lay
    /\ out_refactors out = lay_refactors lay
    /\ out_mappings out = lay_mappings lay
    /\ out_config_offset out = config
    /\ out_ub out = lay_ub lay
    /\ out_ub out <= option_loader_base opts
    /\ fold_result (emitRefactorMap config) (lay_refactors lay)
         (lay_data lay, lay_size lay) = OK (data5, size5)
    /\ out_entry out = s64 (option_loader_base opts + (size5 - config))
    /\ emitShim (B_mode B) data5 size5 config = OK (data6, out_size out)
    /\ out_config_size out = u64 (out_size out - config)
    /\ out_data out
       = store32 data6 (config + off_size) (u32 (round_up (out_config_size out)))
    /\ out_B_config out = option_loader_base opts.
Proof.
  unfold emitLoader. intros H.
  apply bind_OK_inv in H. destruct H as (lay & H1 & H).
  destruct (lay_ub lay >? option_loader_base opts) eqn:Hub; [discriminate|].
  apply bind_OK_inv in H. destruct H as ([data5 size5] & H5 & H).
  apply bind_OK_inv in H. destruct H as ([data6 size6] & H6 & H).
  injection H as <-. cbn [out_refactors out_mappings out_config_offset out_ub
                            out_entry out_size out_config_size out_data
                            out_B_config].
  exists lay, data5, size5, data6.
  cbn zeta. repeat split; auto. lia.
Qed.

(** A successful [emitElf] is a successful [emitLoader] followed by
    steps (5) and (6), which only touch the buffer. *)
Lemma emitElf_inv B mappings mapping_size out :
  emitElf B mappings mapping_size = OK out ->
  exists out0 data5,
    emitLoader B mappings mapping_size = OK out0
    /\ modifyEntry B (out_data out0) (out_config_offset out0)
         (u64 (out_config_offset out0 + sizeof_e9_config_s)) (out_entry out0)
       = OK data5
    /\ modifyPhdr B data5 (out_config_offset out0) (out_config_size out0)
       = OK (out_data out)
    /\ out = set_data out0 (out_data out).
Proof.
  unfold emitElf. intros H.
  apply bind_OK_inv in H. destruct H as (out0 & H0 & H).
  apply bind_OK_inv in H. destruct H as (data5 & H5 & H).
  apply bind_OK_inv in H. destruct H as (data6 & H6 & H).
  injection H as <-. exists out0, data5. auto.
Qed.

(** Steps (5) and (6) run on the buffer that [emitLoader] leaves. *)
Lemma emitElf_after_loader B mappings mapping_size out0 :
  emitLoader B mappings mapping_size = OK out0 ->
  emitElf B mappings mapping_size =
    (data <- modifyEntry B (out_data out0) (out_config_offset out0)
               (u64 (out_config_offset out0 + sizeof_e9_config_s))
               (out_entry out0) ;;
     data <- modifyPhdr B data (out_config_offset out0) (out_config_size out0) ;;
     OK (set_data out0 data)).
Proof. intros H. unfold emitElf. rewrite H. reflexivity. Qed.

Lemma emitShim_size_range mode data size config data' size' :
  emitShim mode data size config = OK (data', size') -> 0 <= size' < 2 ^ 64.
Proof.
  unfold emitShim. intros H.
  destruct (if option_trap_entry opts then _ else _) as [d s].
  apply bind_OK_inv in H. destruct H as (code & _ & H).
  injection H as _ <-. apply u64_range.
Qed.

(** C9 (amended): after the alignment of step (1), after the refactoring
    of step (2) and at the start of the configuration region
    ([config_offset], step (4)) the length of the buffer is a multiple
    of the page size.  The length that [emitElf] returns is
    [config_offset] plus the size of the configuration region before
    rounding (only the field [config->size] is rounded). *)
Theorem emitElf_page_alignment B mappings mapping_size out :
  0 < PAGE_SIZE -> (PAGE_SIZE | 2 ^ 64) ->
  emitElf B mappings mapping_size = OK out ->
  (PAGE_SIZE | round_up (B_patched_size B))
  /\ (exists data1 n,
        emitRefactoredPatch (B_original_bytes B) (B_patched_bytes B)
          (round_up (B_patched_size B)) mapping_size (B_Is B) []
        = OK (data1, out_refactors out, n)
        /\ (PAGE_SIZE | u64 (round_up (B_patched_size B) + n)))
  /\ (PAGE_SIZE | out_config_offset out)
  /\ out_size out = u64 (out_config_offset out + out_config_size out).
Proof.
  intros HP HD H. apply emitElf_inv in H.
  destruct H as (out0 & data5 & H0 & _ & _ & ->).
  cbn [set_data out_refactors out_config_offset out_size out_config_size].
  apply emitLoader_inv in H0.
  destruct H0 as (lay & data5' & size5 & data6 & Hl & Hr & Hm & Hc & Hu & Hub
                  & H5 & He & H6 & Hs & Hd & Hb).
  apply emitArrays_inv in Hl.
  destruct Hl as (data1 & n & data2 & size2 & data3 & size3 & H1 & H2 & Hc'
                  & H3 & H4).
  cbn zeta in *. repeat split.
  - now apply round_up_divide.
  - exists data1, n. rewrite Hr. split; [exact H1|].
    eapply emitRefactoredPatch_aligned; eauto. now apply round_up_divide.
  - rewrite Hc, Hc'. now apply round_up_divide.
  - rewrite Hs, Hc. symmetry. apply u64_sub_add.
    eapply emitShim_size_range; eauto.
Qed.

(** *** The mapping arrays *)

Local Abbreviation emitRequest :=
  (emitRequest PAGE_SIZE IS_ABSOLUTE BASE_ADDRESS).
Local Abbreviation node_requests := (node_requests PAGE_SIZE getVirtualBounds).
Local Abbreviation mapping_requests :=
  (mapping_requests PAGE_SIZE getVirtualBounds).
Local Abbreviation array_requests := (array_requests PAGE_SIZE getVirtualBounds).
Local Abbreviation requests_ub := (requests_ub IS_ABSOLUTE).

Lemma fold_result_map {A A' S : Type} (f : S -> A' -> result S) (g : A -> A')
    (l : list A) (s : S) :
  fold_result f (map g l) s = fold_result (fun s a => f s (g a)) l s.
Proof.
  revert s. induction l as [|a l IH]; intros s; simpl; auto.
  destruct (f s (g a)); simpl; auto.
Qed.

Lemma fold_result_ext {A S : Type} (f g : S -> A -> result S) (l : list A) (s : S) :
  (forall s a, f s a = g s a) -> fold_result f l s = fold_result g l s.
Proof.
  intros H. revert s. induction l as [|a l IH]; intros s; simpl; auto.
  rewrite H. destruct (g s a); simpl; auto.
Qed.

Lemma fold_result_flat_map {A A' S : Type} (f : S -> A' -> result S)
    (g : A -> list A') (l : list A) (s : S) :
  fold_result f (flat_map g l) s
  = fold_result (fun s a => fold_result f (g a) s) l s.
Proof.
  revert s. induction l as [|a l IH]; intros s; simpl; auto.
  rewrite fold_result_app. destruct (fold_result f (g a) s); simpl; auto.
Qed.

Lemma emitBound_request config i node offset_0 st b :
  emitBound config i node offset_0
    (negb (Z.land (m_prot node) PROT_READ =? 0))
    (negb (Z.land (m_prot node) PROT_WRITE =? 0))
    (negb (Z.land (m_prot node) PROT_EXEC =? 0)) st b
  = emitRequest config i st (request_of offset_0 node b).
Proof. destruct st as [[data size] ub]. reflexivity. Qed.

Lemma emitNode_requests config i preload offset_0 st node :
  emitNode config i preload offset_0 st node
  = if Bool.eqb (m_preload node) preload
    then fold_result (emitRequest config i) (node_requests offset_0 node) st
    else OK st.
Proof.
  unfold emitNode, node_requests.
  destruct (Bool.eqb (m_preload node) preload); cbn [negb]; auto.
  rewrite fold_result_map. apply fold_result_ext.
  intros s b. apply emitBound_request.
Qed.

Lemma emitMapping_requests config i preload st mapping :
  emitMapping config i preload st mapping
  = fold_result (emitRequest config i) (mapping_requests preload mapping) st.
Proof.
  unfold emitMapping, mapping_requests.
  generalize (m_offset mapping) as offset_0. generalize (chain mapping) as nodes.
  intros nodes offset_0. revert st.
  induction nodes as [|node nodes IH]; intros st; cbn [fold_result filter flat_map].
  - reflexivity.
  - rewrite emitNode_requests.
    destruct (Bool.eqb (m_preload node) preload); cbn [bind flat_map].
    + rewrite fold_result_app.
      destruct (fold_result _ (node_requests offset_0 node) st); cbn [bind]; auto.
    + apply IH.
Qed.

Lemma emitMapArray_requests config mappings data size ub i :
  emitMapArray config mappings (data, size, ub) i
  = fold_result (emitRequest config i) (array_requests (i =? 0) mappings)
      (store32 data (config + off_maps i) (u32 (size - config)), size, ub).
Proof.
  unfold emitMapArray, array_requests. rewrite fold_result_flat_map.
  apply fold_result_ext. intros s m. apply emitMapping_requests.
Qed.

Lemma In_mapping_requests preload mapping q :
  In q (mapping_requests preload mapping) <->
  exists node b,
    In node (chain mapping) /\ m_preload node = preload
    /\ In b (getVirtualBounds node PAGE_SIZE)
    /\ q = request_of (m_offset mapping) node b.
Proof.
  unfold mapping_requests, node_requests. rewrite in_flat_map. split.
  - intros (node & Hn & Hq). apply filter_In in Hn. destruct Hn as [Hn Hp].
    apply in_map_iff in Hq. destruct Hq as (b & Hq & Hb).
    exists node, b. repeat split; auto. now apply Bool.eqb_prop.
  - intros (node & b & Hn & Hp & Hb & ->). exists node. split.
    + apply filter_In. split; auto. rewrite Hp. apply Bool.eqb_reflx.
    + apply in_map. exact Hb.
Qed.

Lemma s32_u32 (x : Z) : s32 (x mod 2 ^ 32) = s32 x.
Proof.
  unfold s32. f_equal. rewrite Zplus_mod_idemp_l. reflexivity.
Qed.

Lemma s32_small (x : Z) : INT32_MIN <= x <= INT32_MAX -> s32 x = x.
Proof.
  unfold INT32_MIN, INT32_MAX, s32. intros H.
  rewrite Z.mod_small by lia. lia.
Qed.

(** *** The guard on [ub] *)

Lemma requests_ub_app qs1 qs2 ub :
  requests_ub (qs1 ++ qs2) ub = requests_ub qs2 (requests_ub qs1 ub).
Proof. unfold requests_ub. apply fold_left_app. Qed.

Lemma requests_ub_le qs ub : ub <= requests_ub qs ub.
Proof.
  revert ub. induction qs as [|q qs IH]; intros ub; cbn [requests_ub fold_left].
  - lia.
  - etransitivity; [|apply IH]. destruct (IS_ABSOLUTE (q_base q)); lia.
Qed.

Lemma requests_ub_In qs ub q :
  In q qs -> IS_ABSOLUTE (q_base q) = false -> q_base q <= requests_ub qs ub.
Proof.
  revert ub. induction qs as [|q' qs IH]; intros ub Hin Habs; [contradiction|].
  cbn [requests_ub fold_left]. destruct Hin as [->|Hin].
  - rewrite Habs. etransitivity; [|apply requests_ub_le]. lia.
  - now apply IH.
Qed.

Lemma emitRequest_ub config i data size ub q data' size' ub' :
  emitRequest config i (data, size, ub) q = OK (data', size', ub') ->
  ub' = (if IS_ABSOLUTE (q_base q) then ub else Z.max ub (q_base q)).
Proof.
  intros H. unfold emitRequest in H. rewrite emitLoaderMap_cases in H.
  destruct ((_ <? INT32_MIN) || (_ >? INT32_MAX)); [discriminate|].
  destruct (_ >=? 2 ^ 21); [discriminate|].
  destruct (_ >? UINT32_MAX); [discriminate|].
  cbn [bind] in H. injection H as _ _ <-.
  unfold track_ub. destruct (IS_ABSOLUTE (q_base q)); reflexivity.
Qed.

Lemma fold_emitRequest_ub config i qs data size ub data' size' ub' :
  fold_result (emitRequest config i) qs (data, size, ub) = OK (data', size', ub') ->
  ub' = requests_ub qs ub.
Proof.
  revert data size ub. induction qs as [|q qs IH]; intros data size ub H;
    cbn [fold_result] in H.
  - now injection H as _ _ <-.
  - apply bind_OK_inv in H. destruct H as ([[d1 s1] u1] & H1 & H2).
    apply emitRequest_ub in H1. apply IH in H2. subst. reflexivity.
Qed.

Lemma emitMapArrays_ub config mappings data size ub data' size' ub' :
  fold_result (emitMapArray config mappings) [0; 1] (data, size, ub)
  = OK (data', size', ub') ->
  ub' = requests_ub (array_requests true mappings ++ array_requests false mappings)
          ub.
Proof.
  intros H. cbn [fold_result] in H.
  apply bind_OK_inv in H. destruct H as ([[d1 s1] u1] & H1 & H).
  apply bind_OK_inv in H. destruct H as ([[d2 s2] u2] & H2 & H).
  injection H as _ _ <-.
  rewrite emitMapArray_requests in H1, H2.
  apply fold_emitRequest_ub in H1, H2.
  change (0 =? 0) with true in H1. change (1 =? 0) with false in H2.
  rewrite requests_ub_app. congruence.
Qed.

(** C2 (amended): when the two mapping arrays are written, [ub] is the
    largest non-absolute address among their records (or [INTPTR_MIN]),
    and the emission fails with the loader-base error when it exceeds
    the loader base; hence after a successful emission no record of the
    two arrays made for a trampoline mapping has a non-absolute address
    above the loader base.  The refactor mappings appended to the
    postload array are emitted without tracking [ub]. *)
Theorem emitElf_loader_base_guard B mappings mapping_size :
  (forall lay,
      emitArrays B mappings mapping_size = OK lay ->
      lay_ub lay
      = requests_ub (array_requests true (lay_mappings lay)
                     ++ array_requests false (lay_mappings lay)) INTPTR_MIN
      /\ (lay_ub lay > option_loader_base opts ->
          emitElf B mappings mapping_size = Err ErrLoaderBase))
  /\ (forall out,
      emitElf B mappings mapping_size = OK out ->
      forall preload q,
        In q (array_requests preload (out_mappings out)) ->
        IS_ABSOLUTE (q_base q) = false ->
        q_base q <= option_loader_base opts).
Proof.
  assert (Hub : forall lay,
             emitArrays B mappings mapping_size = OK lay ->
             lay_ub lay
             = requests_ub (array_requests true (lay_mappings lay)
                            ++ array_requests false (lay_mappings lay))
                 INTPTR_MIN).
  { intros lay Hl. apply emitArrays_inv in Hl.
    destruct Hl as (data1 & n & data2 & size2 & data3 & size3 & _ & _ & _ & _ & H).
    cbn zeta in H. now apply emitMapArrays_ub in H. }
  split.
  - intros lay Hl. split; [now apply Hub|].
    intros Hgt. unfold emitElf, emitLoader. rewrite Hl. cbn [bind].
    replace (lay_ub lay >? option_loader_base opts) with true by lia.
    reflexivity.
  - intros out H preload q Hq Habs. apply emitElf_inv in H.
    destruct H as (out0 & data5 & H0 & _ & _ & Hout).
    rewrite Hout in Hq. cbn [set_data out_mappings] in Hq.
    apply emitLoader_inv in H0.
    destruct H0 as (lay & d5 & s5 & d6 & Hl & _ & Hm & _ & Hu & Hle & _).
    rewrite Hm in Hq. rewrite Hu in Hle. rewrite (Hub lay Hl) in Hle.
    etransitivity; [|exact Hle].
    apply requests_ub_In; auto. apply in_or_app.
    destruct preload; auto.
Qed.

(** *** Step (6): the program header of the loader *)

Lemma load4_store4_same (m : mem) (p v : Z) :
  load_le (store_le m p 4 v) p 4 = v mod 2 ^ 32.
Proof. exact (load_store_same 4 m p v). Qed.

Lemma load8_store8_same (m : mem) (p v : Z) :
  load_le (store_le m p 8 v) p 8 = v mod 2 ^ 64.
Proof. exact (load_store_same 8 m p v). Qed.

Lemma load_store_disjoint (n : nat) (m : mem) (p q k v : Z) :
  q + Z.of_nat n <= p \/ p + k <= q ->
  load_le (store_le m p k v) q n = load_le m q n.
Proof. apply load_mwrite_disjoint. Qed.

(** Loads through the stores of a straight-line block. *)
Local Tactic Notation "mem_simpl" :=
  unfold load32, load64, store32, store64, store8;
  repeat first [ rewrite load4_store4_same
               | rewrite load8_store8_same
               | rewrite load_store_disjoint by (simpl Z.of_nat; lia) ].

Lemma choosePhdr_cases B :
  choosePhdr opts B =
    if option_loader_phdr opts =? PT_NOTE then phdr_note (B_elf B)
    else if option_loader_phdr opts =? PT_GNU_RELRO then phdr_gnu_relro (B_elf B)
    else if option_loader_phdr opts =? PT_GNU_STACK then phdr_gnu_stack (B_elf B)
    else match phdr_note (B_elf B), phdr_gnu_relro (B_elf B) with
         | Some p, _ => Some p
         | None, Some p => Some p
         | None, None => phdr_gnu_stack (B_elf B)
         end.
Proof.
  unfold choosePhdr.
  destruct (phdr_note (B_elf B)), (phdr_gnu_relro (B_elf B)); reflexivity.
Qed.

(** The fields of the program header after step (6). *)
Lemma modifyPhdr_fields B data config_offset config_size phdr :
  choosePhdr opts B = Some phdr ->
  exists data',
    modifyPhdr B data config_offset config_size = OK data'
    /\ load32 data' (phdr + off_p_type) = PT_LOAD
    /\ load32 data' (phdr + off_p_flags) = Z.lor PF_R PF_X
    /\ load64 data' (phdr + off_p_offset) = u64 config_offset
    /\ load64 data' (phdr + off_p_vaddr) = u64 (option_loader_base opts)
    /\ load64 data' (phdr + off_p_paddr) = 0
    /\ load64 data' (phdr + off_p_filesz) = u64 config_size
    /\ load64 data' (phdr + off_p_memsz) = u64 config_size
    /\ load64 data' (phdr + off_p_align) = u64 PAGE_SIZE
    /\ forall p, ~ (phdr <= p < phdr + sizeof_Elf64_Phdr) -> data' p = data p.
Proof.
  intros Hc. unfold modifyPhdr. rewrite Hc. eexists. split; [reflexivity|].
  unfold off_p_type, off_p_flags, off_p_offset, off_p_vaddr, off_p_paddr,
    off_p_filesz, off_p_memsz, off_p_align, sizeof_Elf64_Phdr.
  repeat split; try (mem_simpl; unfold u64; rewrite ?Z.mod_mod by lia; reflexivity).
  intros p Hp. unfold store32, store64, store_le.
  rewrite !mwrite_outside by lia. reflexivity.
Qed.

Lemma modifyPhdr_missing B data config_offset config_size :
  choosePhdr opts B = None ->
  modifyPhdr B data config_offset config_size = Err ErrMissingPhdr.
Proof. intros Hc. unfold modifyPhdr. now rewrite Hc. Qed.

Lemma round_up_range size : 0 <= size < 2 ^ 64 -> 0 <= round_up size < 2 ^ 64.
Proof.
  intros H. unfold round_up. destruct (size mod PAGE_SIZE =? 0); auto.
  apply u64_range.
Qed.

Lemma emitMappings_size_range B data size mappings data' size' mappings' :
  emitMappings B data size mappings = (data', size', mappings') ->
  0 <= size < 2 ^ 64 -> 0 <= size' < 2 ^ 64.
Proof.
  revert data size data' size' mappings'.
  induction mappings as [|m ms IH]; intros data size data' size' ms' H Hs;
    cbn [emitMappings] in H.
  - now injection H as _ <- _.
  - destruct (emitMappings _ _ _ ms) as [[d1 s1] m1] eqn:E.
    injection H as _ <- _. eapply IH; [exact E|]. apply u64_range.
Qed.

Lemma emitArrays_config_offset_range B mappings mapping_size lay :
  emitArrays B mappings mapping_size = OK lay ->
  0 <= lay_config_offset lay < 2 ^ 64.
Proof.
  intros H. apply emitArrays_inv in H.
  destruct H as (data1 & n & data2 & size2 & data3 & size3 & _ & H2 & Hc & _).
  cbn zeta in *. rewrite Hc. apply round_up_range.
  eapply emitMappings_size_range; [exact H2|]. apply u64_range.
Qed.

(** C7: the program header that is repurposed is the one named by the
    option [--loader-phdr], or, without a choice, the first present of
    [PT_NOTE], [PT_GNU_RELRO], [PT_GNU_STACK]; without it the emission
    fails (no injection slot); otherwise, after a successful emission,
    the header reads [PT_LOAD], [PF_R | PF_X], [config_offset], the
    loader base, 0, the unrounded size of the configuration region
    (twice) and the page size. *)
Theorem phdr_repurposing B mappings mapping_size :
  0 <= PAGE_SIZE < 2 ^ 64 ->
  choosePhdr opts B =
    (if option_loader_phdr opts =? PT_NOTE then phdr_note (B_elf B)
     else if option_loader_phdr opts =? PT_GNU_RELRO then phdr_gnu_relro (B_elf B)
     else if option_loader_phdr opts =? PT_GNU_STACK then phdr_gnu_stack (B_elf B)
     else match phdr_note (B_elf B), phdr_gnu_relro (B_elf B) with
          | Some p, _ => Some p
          | None, Some p => Some p
          | None, None => phdr_gnu_stack (B_elf B)
          end)
  /\ (choosePhdr opts B = None ->
      (forall data config_offset config_size,
          modifyPhdr B data config_offset config_size = Err ErrMissingPhdr)
      /\ error_kind ErrMissingPhdr = NoInjectionSlot
      /\ forall out, emitElf B mappings mapping_size <> OK out)
  /\ (forall out,
      emitElf B mappings mapping_size = OK out ->
      exists phdr,
        choosePhdr opts B = Some phdr
        /\ load32 (out_data out) (phdr + off_p_type) = PT_LOAD
        /\ load32 (out_data out) (phdr + off_p_flags) = Z.lor PF_R PF_X
        /\ load64 (out_data out) (phdr + off_p_offset) = out_config_offset out
        /\ load64 (out_data out) (phdr + off_p_vaddr) = u64 (option_loader_base opts)
        /\ load64 (out_data out) (phdr + off_p_paddr) = 0
        /\ load64 (out_data out) (phdr + off_p_filesz) = out_config_size out
        /\ load64 (out_data out) (phdr + off_p_memsz) = out_config_size out
        /\ load64 (out_data out) (phdr + off_p_align) = PAGE_SIZE).
Proof.
  intros HP. split; [apply choosePhdr_cases|]. split.
  - intros Hc. split; [|split].
    + intros. now apply modifyPhdr_missing.
    + reflexivity.
    + intros out H. apply emitElf_inv in H.
      destruct H as (out0 & data5 & _ & _ & H6 & _).
      rewrite modifyPhdr_missing in H6 by assumption. discriminate.
  - intros out H. apply emitElf_inv in H.
    destruct H as (out0 & data5 & H0 & _ & H6 & Hout).
    destruct (choosePhdr opts B) as [phdr|] eqn:Hc.
    2:{ rewrite modifyPhdr_missing in H6 by assumption. discriminate. }
    exists phdr. split; [reflexivity|].
    destruct (modifyPhdr_fields B data5 (out_config_offset out0)
                (out_config_size out0) phdr Hc)
      as (data' & Hm & F1 & F2 & F3 & F4 & F5 & F6 & F7 & F8 & _).
    rewrite Hm in H6. injection H6 as H6. rewrite <- H6.
    rewrite Hout. cbn [set_data out_config_offset out_config_size].
    apply emitLoader_inv in H0.
    destruct H0 as (lay & d5 & s5 & d6 & Hl & _ & _ & Hco & _ & _ & _ & _ & _
                    & Hcs & _).
    cbn zeta in *.
    apply emitArrays_config_offset_range in Hl.
    rewrite F3, F6, F7, F8. rewrite (u64_small PAGE_SIZE) by lia.
    rewrite (u64_small (out_config_offset out0)) by (rewrite Hco; lia).
    rewrite (u64_small (out_config_size out0)) by (rewrite Hcs; apply u64_range).
    repeat split; auto.
Qed.

(** *** Step (5): the entry address in DSO mode *)

Lemma s64_u64 (x : Z) : s64 (x mod 2 ^ 64) = s64 x.
Proof. unfold s64. f_equal. rewrite Zplus_mod_idemp_l. reflexivity. Qed.

Lemma s64_idem (x : Z) : s64 (s64 x) = s64 x.
Proof.
  unfold s64.
  replace ((x + 2 ^ 63) mod 2 ^ 64 - 2 ^ 63 + 2 ^ 63) with ((x + 2 ^ 63) mod 2 ^ 64)
    by lia.
  rewrite Z.mod_mod by lia. reflexivity.
Qed.

(** The scan stops at entry [i + k], the first [DT_INIT] with no
    [DT_NULL] before it. *)
Lemma scanDynamic_found data config entry dynamic :
  forall (k : nat) (i : Z) (n : nat),
    (k < n)%nat ->
    s64 (load64 data (dynamic + sizeof_Elf64_Dyn * (i + Z.of_nat k) + off_d_tag))
    = DT_INIT ->
    (forall j, 0 <= j < Z.of_nat k ->
               let tag := s64 (load64 data (dynamic + sizeof_Elf64_Dyn * (i + j)
                                            + off_d_tag)) in
               tag <> DT_NULL /\ tag <> DT_INIT) ->
    scanDynamic data config entry dynamic i n =
      (let d := dynamic + sizeof_Elf64_Dyn * (i + Z.of_nat k) in
       store64 (store64 data (config + off_entry) (s64 (load64 data (d + off_d_ptr))))
         (d + off_d_ptr) (u64 entry), true).
Proof.
  induction k as [|k IH]; intros i n Hk Htag Hbefore;
    (destruct n as [|n]; [lia|]); cbn [scanDynamic].
  - change (Z.of_nat 0) with 0 in *. replace (i + 0) with i in * by lia.
    rewrite Htag.
    change (DT_INIT =? DT_NULL) with false. change (DT_INIT =? DT_INIT) with true.
    reflexivity.
  - destruct (Hbefore 0 ltac:(lia)) as [H0 H1]. replace (i + 0) with i in * by lia.
    apply Z.eqb_neq in H0, H1. rewrite H0, H1.
    rewrite (IH (i + 1) n).
    + cbn zeta. replace (i + 1 + Z.of_nat k) with (i + Z.of_nat (S k)) by lia.
      reflexivity.
    + lia.
    + replace (i + 1 + Z.of_nat k) with (i + Z.of_nat (S k)) by lia. exact Htag.
    + intros j Hj. replace (i + 1 + j) with (i + (j + 1)) by lia.
      apply Hbefore. lia.
Qed.

(** The scan ends without a [DT_INIT]: at a [DT_NULL] or at the end. *)
Lemma scanDynamic_not_found data config entry dynamic :
  forall (k : nat) (i : Z) (n : nat),
    (k <= n)%nat ->
    (k = n \/
     s64 (load64 data (dynamic + sizeof_Elf64_Dyn * (i + Z.of_nat k) + off_d_tag))
     = DT_NULL) ->
    (forall j, 0 <= j < Z.of_nat k ->
               let tag := s64 (load64 data (dynamic + sizeof_Elf64_Dyn * (i + j)
                                            + off_d_tag)) in
               tag <> DT_NULL /\ tag <> DT_INIT) ->
    scanDynamic data config entry dynamic i n = (data, false).
Proof.
  induction k as [|k IH]; intros i n Hk Hend Hbefore.
  - destruct n as [|n]; cbn [scanDynamic]; [reflexivity|].
    destruct Hend as [Hend|Hend]; [discriminate|].
    change (Z.of_nat 0) with 0 in *. replace (i + 0) with i in * by lia.
    rewrite Hend. reflexivity.
  - destruct n as [|n]; [lia|]. cbn [scanDynamic].
    destruct (Hbefore 0 ltac:(lia)) as [H0 H1]. replace (i + 0) with i in * by lia.
    apply Z.eqb_neq in H0, H1. rewrite H0, H1.
    apply (IH (i + 1) n).
    + lia.
    + destruct Hend as [Hend|Hend]; [left; lia|right].
      replace (i + 1 + Z.of_nat k) with (i + Z.of_nat (S k)) by lia. exact Hend.
    + intros j Hj. replace (i + 1 + j) with (i + (j + 1)) by lia.
      apply Hbefore. lia.
Qed.

(** Step (5) in DSO mode, on the buffer and with the entry address that
    it is given: it fails when there is no [PT_DYNAMIC] header;
    otherwise it scans the entries of the dynamic section in order, up
    to the first [DT_NULL] or the end of the segment: at the first
    [DT_INIT] the pointer of the entry becomes [entry], [config->entry]
    receives the old pointer and nothing else changes; when the scan
    ends without a [DT_INIT] the step fails.  [data1] is the buffer once
    [config_elf->dynamic] is set. *)
Lemma modifyEntry_dso B data config config_elf entry :
  B_mode B = MODE_ELF_DSO ->
  (phdr_dynamic (B_elf B) = None ->
   modifyEntry B data config config_elf entry = Err ErrMissingPtDynamic
   /\ error_kind ErrMissingPtDynamic = MissingDynamic)
  /\ (forall ph,
      phdr_dynamic (B_elf B) = Some ph ->
      let data1 := store64 data config_elf (s64 (load64 data (ph + off_p_vaddr))) in
      let dynamic := load64 data1 (ph + off_p_offset) in
      let num_dynamic := load64 data1 (ph + off_p_memsz) / sizeof_Elf64_Dyn in
      let tag i := s64 (load64 data1 (dynamic + sizeof_Elf64_Dyn * i + off_d_tag)) in
      let ptr i := dynamic + sizeof_Elf64_Dyn * i + off_d_ptr in
      (forall k,
          0 <= k < num_dynamic -> tag k = DT_INIT ->
          (forall j, 0 <= j < k -> tag j <> DT_NULL /\ tag j <> DT_INIT) ->
          exists data',
            modifyEntry B data config config_elf entry = OK data'
            /\ load64 data' (ptr k) = u64 entry
            /\ (ptr k + 8 <= config + off_entry \/ config + off_entry + 8 <= ptr k ->
                s64 (load64 data' (config + off_entry)) = s64 (load64 data1 (ptr k)))
            /\ (forall p,
                ~ (config + off_entry <= p < config + off_entry + 8) ->
                ~ (ptr k <= p < ptr k + 8) -> data' p = data1 p))
      /\ (forall k,
          0 <= k <= num_dynamic -> k = num_dynamic \/ tag k = DT_NULL ->
          (forall j, 0 <= j < k -> tag j <> DT_NULL /\ tag j <> DT_INIT) ->
          modifyEntry B data config config_elf entry = Err ErrDtInitNotFound
          /\ error_kind ErrDtInitNotFound = MissingInit)).
Proof.
  intros Hmode. split.
  - intros Hph. unfold modifyEntry. rewrite Hph, Hmode. split; reflexivity.
  - intros ph Hph data1 dynamic num_dynamic tag ptr. split.
    + intros k Hk Htag Hbefore.
      unfold modifyEntry. rewrite Hph, Hmode.
      fold data1. fold dynamic. fold num_dynamic.
      rewrite (scanDynamic_found data1 config entry dynamic (Z.to_nat k) 0
                 (Z.to_nat num_dynamic)).
      * cbn zeta. rewrite Z.add_0_l, Z2Nat.id by lia. fold (ptr k).
        eexists. split; [reflexivity|]. split; [|split].
        -- mem_simpl. unfold u64. apply Z.mod_mod. lia.
        -- intros Hsep. unfold off_entry in *. mem_simpl.
           rewrite s64_u64. apply s64_idem.
        -- intros p Hp1 Hp2. unfold store64, store_le.
           rewrite !mwrite_outside by lia. reflexivity.
      * lia.
      * rewrite Z.add_0_l, Z2Nat.id by lia. exact Htag.
      * intros j Hj. rewrite Z.add_0_l. apply Hbefore. lia.
    + intros k Hk Hend Hbefore.
      unfold modifyEntry. rewrite Hph, Hmode.
      fold data1. fold dynamic. fold num_dynamic.
      rewrite (scanDynamic_not_found data1 config entry dynamic (Z.to_nat k) 0
                 (Z.to_nat num_dynamic)).
      * split; reflexivity.
      * lia.
      * destruct Hend as [Hend|Hend]; [left; congruence|right].
        rewrite Z.add_0_l, Z2Nat.id by lia. exact Hend.
      * intros j Hj. rewrite Z.add_0_l. apply Hbefore. lia.
Qed.

(** *** The entry shim *)

Local Abbreviation shim_bytes := (shim_bytes e9loader_elf_bin opts).
Local Abbreviation elf_views_below := (elf_views_below opts).

Lemma mem_holds_write (m : mem) (p : Z) (bs : list Z) :
  mem_holds (write_bytes m p bs) p bs.
Proof.
  intros i Hi. unfold write_bytes. rewrite mwrite_inside by lia.
  f_equal. f_equal. lia.
Qed.

Lemma mem_holds_store_le (m : mem) (p v : Z) (n : nat) :
  mem_holds (store_le m p (Z.of_nat n) v) p (le_bytes n v).
Proof.
  assert (Hlen : forall k w, length (le_bytes k w) = k).
  { induction k; intros w; simpl; auto. }
  assert (Hnth : forall k w i, (i < k)%nat ->
                               nth i (le_bytes k w) 0 = byte_of w (Z.of_nat i)).
  { induction k as [|k IH]; intros w i Hi; [lia|]. destruct i as [|i].
    - simpl. unfold byte_of. now rewrite Z.div_1_r.
    - cbn [le_bytes nth]. rewrite IH by lia. rewrite byte_of_succ by lia.
      f_equal. lia. }
  intros i Hi. rewrite Hlen in Hi. unfold store_le.
  rewrite mwrite_inside by lia. rewrite Hnth by lia.
  f_equal. lia.
Qed.

Lemma mem_holds_ext (m m' : mem) (p : Z) (bs : list Z) :
  (forall q, p <= q < p + Z.of_nat (length bs) -> m' q = m q) ->
  mem_holds m p bs -> mem_holds m' p bs.
Proof. intros He H i Hi. rewrite He by lia. now apply H. Qed.

Lemma mem_holds_app (m : mem) (p : Z) (bs1 bs2 : list Z) :
  mem_holds m p bs1 -> mem_holds m (p + Z.of_nat (length bs1)) bs2 ->
  mem_holds m p (bs1 ++ bs2).
Proof.
  intros H1 H2 i Hi. rewrite length_app, Nat2Z.inj_add in Hi.
  destruct (Z.ltb_spec i (Z.of_nat (length bs1))) as [Hlt|Hge].
  - rewrite app_nth1 by lia. apply H1. lia.
  - rewrite app_nth2 by lia.
    replace (p + i) with (p + Z.of_nat (length bs1) + (i - Z.of_nat (length bs1)))
      by lia.
    rewrite H2 by lia. f_equal. lia.
Qed.

Lemma mem_holds_nil (m : mem) (p : Z) : mem_holds m p [].
Proof. intros i Hi. simpl in Hi. lia. Qed.

Lemma mem_holds_read (m : mem) (p : Z) (bs : list Z) :
  mem_holds m p bs -> read_bytes m p (length bs) = bs.
Proof.
  intros H. unfold read_bytes. apply nth_ext with (d := 0) (d' := 0).
  - now rewrite length_map, length_seq.
  - intros n Hn. rewrite length_map, length_seq in Hn.
    rewrite (nth_indep _ 0 (m (p + Z.of_nat 0)))
      by (now rewrite length_map, length_seq).
    rewrite (map_nth (fun i => m (p + Z.of_nat i)) (seq 0 (length bs)) 0%nat n).
    rewrite seq_nth by assumption. cbn [Nat.add].
    rewrite H by lia. f_equal. lia.
Qed.

(** A store outside of [p, p + length bs) keeps the bytes. *)
Lemma mem_holds_mwrite (m : mem) (p q k : Z) (src : Z -> Z) (bs : list Z) :
  p + Z.of_nat (length bs) <= q \/ q + k <= p ->
  mem_holds m p bs -> mem_holds (mwrite m q k src) p bs.
Proof.
  intros Hd. apply mem_holds_ext. intros x Hx. apply mwrite_outside. lia.
Qed.

Lemma prologue_length mode code :
  prologue mode = OK code -> Z.of_nat (length code) <= 9.
Proof.
  destruct mode; intros H; try discriminate; injection H as <-; simpl; lia.
Qed.

(** The image of the shim in the buffer after [emitShim]. *)
Lemma emitShim_image mode data size config code data' size' :
  emitShim mode data size config = OK (data', size') ->
  prologue mode = OK code ->
  0 <= size ->
  size + Z.of_nat (length (shim_bytes code size config)) < 2 ^ 64 ->
  size' = size + Z.of_nat (length (shim_bytes code size config))
  /\ mem_holds data' size (shim_bytes code size config).
Proof.
  unfold emitShim, shim_bytes. intros H Hcode Hs Hno.
  pose proof (prologue_length _ _ Hcode) as Hlen.
  rewrite Hcode in H.
  rewrite !length_app, !Nat2Z.inj_add in Hno.
  rewrite !length_app, !Nat2Z.inj_add.
  change (Z.of_nat (length (le_bytes 4 ?v))) with 4 in *.
  change (Z.of_nat (length [0x48; 0x8D; 0x15])) with 3 in *.
  destruct (option_trap_entry opts); cbn [bind] in H; injection H as <- <-;
    cbn [length] in *; change (Z.of_nat 1) with 1 in *;
    change (Z.of_nat 0) with 0 in *;
    repeat match goal with
           | |- context [u64 ?x] => rewrite (u64_small x) by lia
           end.
  - split; [lia|].
    apply mem_holds_app.
    { unfold write_bytes, store32, store8.
      unfold store_le at 1.
      repeat (apply mem_holds_mwrite; [cbn [length le_bytes]; lia|]).
      exact (mem_holds_store_le data size 0xCC 1). }
    cbn [length]. change (Z.of_nat 1) with 1.
    apply mem_holds_app.
    { unfold write_bytes at 1 2, store32, store_le.
      repeat (apply mem_holds_mwrite; [cbn [length le_bytes]; lia|]).
      apply mem_holds_write. }
    apply mem_holds_app.
    { unfold write_bytes at 1, store32, store_le.
      repeat (apply mem_holds_mwrite; [cbn [length le_bytes]; lia|]).
      apply mem_holds_write. }
    cbn [length]. change (Z.of_nat 3) with 3.
    apply mem_holds_app.
    { unfold write_bytes at 1.
      repeat (apply mem_holds_mwrite; [cbn [length le_bytes]; lia|]).
      apply (mem_holds_store_le _ _ _ 4). }
    change (Z.of_nat (length (le_bytes 4 ?v))) with 4.
    apply mem_holds_write.
  - split; [lia|].
    apply mem_holds_app; [apply mem_holds_nil|].
    cbn [length]. change (Z.of_nat 0) with 0. rewrite !Z.add_0_r.
    apply mem_holds_app.
    { unfold write_bytes at 1 2, store32, store_le.
      repeat (apply mem_holds_mwrite; [cbn [length le_bytes]; lia|]).
      apply mem_holds_write. }
    apply mem_holds_app.
    { unfold write_bytes at 1, store32, store_le.
      repeat (apply mem_holds_mwrite; [cbn [length le_bytes]; lia|]).
      apply mem_holds_write. }
    cbn [length]. change (Z.of_nat 3) with 3.
    apply mem_holds_app.
    { unfold write_bytes at 1.
      repeat (apply mem_holds_mwrite; [cbn [length le_bytes]; lia|]).
      apply (mem_holds_store_le _ _ _ 4). }
    change (Z.of_nat (length (le_bytes 4 ?v))) with 4.
    apply mem_holds_write.
Qed.

Lemma u64_add_l (a b : Z) : u64 (u64 a + b) = u64 (a + b).
Proof. unfold u64. apply Zplus_mod_idemp_l. Qed.

(** The cursor after [emitShim], modulo 2^64. *)
Lemma emitShim_size mode data size config code data' size' :
  emitShim mode data size config = OK (data', size') ->
  prologue mode = OK code ->
  size' = u64 (size + Z.of_nat (length (shim_bytes code size config))).
Proof.
  unfold emitShim, shim_bytes. intros H Hcode. rewrite Hcode in H.
  rewrite !length_app, !Nat2Z.inj_add.
  change (Z.of_nat (length (le_bytes 4 ?v))) with 4.
  change (Z.of_nat (length [0x48; 0x8D; 0x15])) with 3.
  destruct (option_trap_entry opts); cbn [bind] in H; injection H as _ <-;
    cbn [length]; repeat (rewrite u64_add_l; rewrite <- ?Z.add_assoc);
    apply (f_equal u64); lia.
Qed.

Lemma emitInits_size_range data config size inits data' size' :
  emitInits data config size inits = (data', size') ->
  0 <= size < 2 ^ 64 -> 0 <= size' < 2 ^ 64.
Proof.
  revert data size. induction inits as [|a l IH]; intros data size H Hs;
    cbn [emitInits] in H.
  - now injection H as _ <-.
  - eapply IH; [exact H|]. apply u64_range.
Qed.

Lemma fold_emitRequest_size_range config i qs data size ub data' size' ub' :
  fold_result (emitRequest config i) qs (data, size, ub) = OK (data', size', ub') ->
  0 <= size < 2 ^ 64 -> 0 <= size' < 2 ^ 64.
Proof.
  revert data size ub. induction qs as [|q qs IH]; intros data size ub H Hs;
    cbn [fold_result] in H.
  - now injection H as _ <- _.
  - apply bind_OK_inv in H. destruct H as ([[d1 s1] u1] & H1 & H2).
    eapply IH; [exact H2|].
    unfold emitRequest in H1. apply bind_OK_inv in H1.
    destruct H1 as ([[d0 u0] n0] & _ & H1). injection H1 as _ <- _.
    apply u64_range.
Qed.

Lemma emitMapArrays_size_range config mappings data size ub data' size' ub' :
  fold_result (emitMapArray config mappings) [0; 1] (data, size, ub)
  = OK (data', size', ub') ->
  0 <= size < 2 ^ 64 -> 0 <= size' < 2 ^ 64.
Proof.
  intros H Hs. cbn [fold_result] in H.
  apply bind_OK_inv in H. destruct H as ([[d1 s1] u1] & H1 & H).
  apply bind_OK_inv in H. destruct H as ([[d2 s2] u2] & H2 & H).
  injection H as _ <- _.
  rewrite emitMapArray_requests in H1, H2.
  eapply fold_emitRequest_size_range; [exact H2|].
  eapply fold_emitRequest_size_range; [exact H1|]. exact Hs.
Qed.

Lemma emitRefactorMaps_size_range config rs data size data' size' :
  fold_result (emitRefactorMap config) rs (data, size) = OK (data', size') ->
  0 <= size < 2 ^ 64 -> 0 <= size' < 2 ^ 64.
Proof.
  revert data size. induction rs as [|r rs IH]; intros data size H Hs;
    cbn [fold_result] in H.
  - now injection H as _ <-.
  - apply bind_OK_inv in H. destruct H as ([d1 s1] & H1 & H2).
    eapply IH; [exact H2|].
    unfold emitRefactorMap in H1. apply bind_OK_inv in H1.
    destruct H1 as ([[d0 u0] n0] & _ & H1). injection H1 as _ <-.
    apply u64_range.
Qed.

Lemma emitArrays_size_range B mappings mapping_size lay :
  emitArrays B mappings mapping_size = OK lay -> 0 <= lay_size lay < 2 ^ 64.
Proof.
  intros H. apply emitArrays_inv in H.
  destruct H as (data1 & n & data2 & size2 & data3 & size3 & _ & _ & _ & H3 & H4).
  cbn zeta in *.
  eapply emitMapArrays_size_range; [exact H4|].
  eapply emitInits_size_range; [exact H3|]. apply u64_range.
Qed.

(** The scan writes [config->entry] and pointers of entries it visits. *)
Lemma scanDynamic_frame data config entry dynamic :
  forall (n : nat) (i : Z) data' found,
    scanDynamic data config entry dynamic i n = (data', found) ->
    forall p,
      ~ (config + off_entry <= p < config + off_entry + 8) ->
      dynamic + sizeof_Elf64_Dyn * (i + Z.of_nat n) <= p ->
      data' p = data p.
Proof.
  induction n as [|n IH]; intros i data' found H p Hp1 Hp2;
    cbn [scanDynamic] in H.
  - now injection H as <- _.
  - destruct (_ =? DT_NULL); [now injection H as <- _|].
    destruct (_ =? DT_INIT).
    + pose proof (f_equal fst H) as Hd. cbn [fst] in Hd. rewrite <- Hd.
      unfold store64, store_le.
      unfold sizeof_Elf64_Dyn, off_d_ptr, off_entry in *.
      rewrite !mwrite_outside by lia. reflexivity.
    + eapply IH; [exact H|assumption|]. lia.
Qed.

(** Step (5) writes the two configuration records and structures of the
    input file. *)
Lemma modifyEntry_frame B data config config_elf entry data' limit :
  modifyEntry B data config config_elf entry = OK data' ->
  elf_views_below B data limit ->
  limit <= config_elf ->
  forall p,
    limit <= p ->
    ~ (config <= p < config + sizeof_e9_config_s) ->
    ~ (config_elf <= p < config_elf + 8) ->
    data' p = data p.
Proof.
  intros H (Hehdr & Hdyn & _) Hl p Hp Hc He.
  unfold modifyEntry in H.
  unfold sizeof_e9_config_s, off_entry, off_flags, off_e_entry in *.
  assert (Hd1 : forall v q, ~ (config_elf <= q < config_elf + 8) ->
                            store64 data config_elf v q = data q).
  { intros v q Hq. unfold store64, store_le. apply mwrite_outside. lia. }
  destruct (B_mode B).
  - injection H as <-.
    unfold store32, store64, store_le. rewrite !mwrite_outside by lia.
    destruct (phdr_dynamic (B_elf B)); [apply Hd1; lia | reflexivity].
  - destruct (phdr_dynamic (B_elf B)) as [ph|] eqn:Hph; [|discriminate].
    destruct (Hdyn ph eq_refl) as [Hph1 Hph2].
    unfold sizeof_Elf64_Phdr, off_p_offset, off_p_memsz, off_p_vaddr,
      sizeof_Elf64_Dyn in *.
    set (data1 := store64 data config_elf _) in *.
    assert (E1 : load64 data1 (ph + 8) = load64 data (ph + 8)).
    { apply load_le_ext. intros i Hi. apply Hd1. simpl in Hi. lia. }
    assert (E2 : load64 data1 (ph + 40) = load64 data (ph + 40)).
    { apply load_le_ext. intros i Hi. apply Hd1. simpl in Hi. lia. }
    rewrite E1, E2 in H.
    destruct (scanDynamic data1 _ _ _ _ _) as [d2 found] eqn:Hscan.
    destruct found; [|discriminate]. injection H as <-.
    destruct (Z.to_nat (load64 data (ph + 40) / 16)) as [|n] eqn:Hn.
    { cbn [scanDynamic] in Hscan. discriminate. }
    rewrite (scanDynamic_frame _ _ _ _ _ _ _ _ Hscan).
    + apply Hd1. lia.
    + unfold off_entry. lia.
    + unfold sizeof_Elf64_Dyn. rewrite <- Hn. rewrite Z2Nat.id; lia.
  - discriminate.
Qed.

(** C8: the entry shim that [emitElf] leaves in the file, when the
    structures of the input file lie before the configuration region and
    the shim after the two configuration records, starts at the file
    offset of the rewired entry point and consists of the optional trap
    byte, the prologue of the mode (9 bytes in executable mode, 4 in DSO
    mode), [48 8D 15], the four little-endian bytes of the displacement
    and the loader as it is; the displacement is minus the distance from
    the byte after it to [config_offset], so the [lea] loads the address
    of the configuration record. *)
Theorem entry_shim B mappings mapping_size out0 out code :
  emitLoader B mappings mapping_size = OK out0 ->
  emitElf B mappings mapping_size = OK out ->
  prologue (B_mode B) = OK code ->
  elf_views_below B (out_data out0) (out_config_offset out) ->
  8 <= sizeof_e9_config_elf_s ->
  let trap := if option_trap_entry opts then 1 else 0 in
  let start :=
    out_size out
    - (trap + Z.of_nat (length code) + 3 + 4
       + Z.of_nat (length e9loader_elf_bin)) in
  let cursor := start + trap + Z.of_nat (length code) + 3 in
  out_config_offset out + sizeof_e9_config_s + sizeof_e9_config_elf_s <= start ->
  (B_mode B = MODE_ELF_EXE ->
   code = [0x48; 0x8B; 0x3C; 0x24; 0x48; 0x8D; 0x74; 0x24; 0x08])
  /\ (B_mode B = MODE_ELF_DSO -> code = [0x31; 0xFF; 0x31; 0xF6])
  /\ out_entry out
     = s64 (option_loader_base opts + (start - out_config_offset out))
  /\ read_bytes (out_data out) start
       (length (shim_bytes code start (out_config_offset out)))
     = shim_bytes code start (out_config_offset out)
  /\ shim_bytes code start (out_config_offset out)
     = (if option_trap_entry opts then [0xCC] else [])
       ++ code ++ [0x48; 0x8D; 0x15]
       ++ le_bytes 4 (config_rel32 cursor (out_config_offset out))
       ++ e9loader_elf_bin
  /\ (cursor + 4 - out_config_offset out < 2 ^ 31 ->
      config_rel32 cursor (out_config_offset out)
      = - ((cursor + 4) - out_config_offset out)
      /\ (cursor + 4) + config_rel32 cursor (out_config_offset out)
         = out_config_offset out).
Proof.
  intros H0 H Hcode Hbelow HE trap start cursor Hstart.
  apply emitElf_inv in H.
  destruct H as (out0' & data5 & H0' & H5 & H6 & Hout).
  rewrite H0 in H0'. injection H0' as <-.
  assert (Hfields : out_size out = out_size out0
                    /\ out_config_offset out = out_config_offset out0
                    /\ out_entry out = out_entry out0).
  { rewrite Hout. repeat split. }
  destruct Hfields as (Hsz & Hco & Hen).
  apply emitLoader_inv in H0.
  destruct H0 as (lay & d5 & size5 & data6 & Hl & _ & _ & Hc & _ & _ & Hr & He
                  & Hs & _ & Hd & _).
  cbn zeta in *.
  pose proof (emitArrays_size_range _ _ _ _ Hl) as Hlr.
  pose proof (emitArrays_config_offset_range _ _ _ _ Hl) as Hcr.
  pose proof (emitRefactorMaps_size_range _ _ _ _ _ _ Hr Hlr) as H5r.
  pose proof (emitShim_size_range _ _ _ _ _ _ Hs) as H6r.
  pose proof (emitShim_size _ _ _ _ _ _ _ Hs Hcode) as Hmod.
  assert (Hlen : Z.of_nat (length (shim_bytes code size5 (lay_config_offset lay)))
                 = trap + Z.of_nat (length code) + 3 + 4
                   + Z.of_nat (length e9loader_elf_bin)).
  { unfold shim_bytes, trap. rewrite !length_app, !Nat2Z.inj_add.
    change (Z.of_nat (length (le_bytes 4 ?v))) with 4.
    destruct (option_trap_entry opts); cbn [length]; lia. }
  rewrite <- Hc in *. rewrite <- Hco in *. rewrite <- Hsz in *.
  assert (Hsize5 : size5 = start).
  { unfold start. rewrite Hlen in Hmod. unfold u64 in Hmod.
    unfold sizeof_e9_config_s in *.
    assert (Htr : 0 <= trap <= 1) by (unfold trap; destruct (option_trap_entry opts); lia).
    set (total := trap + Z.of_nat (length code) + 3 + 4
                  + Z.of_nat (length e9loader_elf_bin)) in *.
    assert (Htot : 0 <= total <= out_size out) by (unfold start in Hstart; lia).
    destruct (Z.lt_ge_cases (size5 + total) (2 ^ 64)) as [Hlt|Hge].
    - rewrite Z.mod_small in Hmod by lia. lia.
    - exfalso.
      assert (Hm : (size5 + total) mod 2 ^ 64 = size5 + total - 2 ^ 64).
      { symmetry. apply Z.mod_unique with (q := 1); lia. }
      lia. }
  subst size5.
  destruct (emitShim_image _ _ _ _ _ _ _ Hs Hcode) as [_ Himg].
  { unfold sizeof_e9_config_s in *. lia. }
  { rewrite Hlen. unfold start. lia. }
  assert (Hshim : shim_bytes code start (out_config_offset out)
                  = (if option_trap_entry opts then [0xCC] else [])
                    ++ code ++ [0x48; 0x8D; 0x15]
                    ++ le_bytes 4 (config_rel32 cursor (out_config_offset out))
                    ++ e9loader_elf_bin).
  { unfold shim_bytes, cursor, trap. reflexivity. }
  split; [|split; [|split; [|split; [|split]]]].
  - intros Hm. rewrite Hm in Hcode. now injection Hcode as <-.
  - intros Hm. rewrite Hm in Hcode. now injection Hcode as <-.
  - rewrite Hen. exact He.
  - apply mem_holds_read. revert Himg. apply mem_holds_ext.
    intros q Hq. rewrite Hlen in Hq.
    unfold sizeof_e9_config_s in *.
    destruct (choosePhdr opts B) as [ph|] eqn:Hch.
    2:{ rewrite modifyPhdr_missing in H6 by assumption. discriminate. }
    match type of H6 with
    | modifyPhdr _ ?d ?co ?cs = _ =>
        destruct (modifyPhdr_fields B d co cs ph Hch) as (data7 & Hm7 & Hrest)
    end.
    rewrite Hm7 in H6. injection H6 as H6.
    destruct Hbelow as (Hb1 & Hb2 & Hb3).
    pose proof (Hb3 ph Hch) as Hph. unfold sizeof_Elf64_Phdr in *.
    rewrite <- H6.
    do 8 (destruct Hrest as [_ Hrest]). rewrite Hrest by lia.
    rewrite (modifyEntry_frame _ _ _ _ _ _ (out_config_offset out) H5).
    + rewrite Hd. unfold store32, store_le, off_size.
      apply mwrite_outside. lia.
    + exact (conj Hb1 (conj Hb2 Hb3)).
    + rewrite u64_small; unfold sizeof_e9_config_s; lia.
    + lia.
    + unfold sizeof_e9_config_s. lia.
    + rewrite u64_small; unfold sizeof_e9_config_s; lia.
  - exact Hshim.
  - intros Hrange. unfold config_rel32.
    assert (Hx : 0 <= cursor + 4 - out_config_offset out).
    { unfold cursor, trap, sizeof_e9_config_s in *.
      destruct (option_trap_entry opts); lia. }
    rewrite (u64_small (cursor + 4 - out_config_offset out)) by lia.
    rewrite (s32_small (cursor + 4 - out_config_offset out))
      by (unfold INT32_MIN, INT32_MAX; lia).
    rewrite s32_small by (unfold INT32_MIN, INT32_MAX; lia).
    split; lia.
Qed.

End EmitElfFacts.

(** C9, the claim as stated fails: the emission of the unpatched example
    file returns 4194, which is not a multiple of 4096. *)
Lemma emitElf_returns_unaligned_size :
  exists out,
    ex_emitElf ex_opts (ex_binary MODE_ELF_EXE ET_EXEC) [] 65536 = OK out
    /\ out_size out = 4194
    /\ out_size out mod 4096 <> 0.
Proof.
  destruct (result_observe (ex_emitElf ex_opts (ex_binary MODE_ELF_EXE ET_EXEC)
                              [] 65536) out_size 4194) as (out & E & H).
  { vm_compute. reflexivity. }
  exists out. split; [exact E|]. rewrite H.
  split; [reflexivity | vm_compute; discriminate].
Qed.

Lemma emitElf_page_alignment_witness :
  exists out,
    ex_emitElf ex_opts (ex_binary MODE_ELF_EXE ET_EXEC) [] 65536 = OK out
    /\ (4096 | out_config_offset out)
    /\ out_size out = u64 (out_config_offset out + out_config_size out).
Proof.
  destruct (result_observe (ex_emitElf ex_opts (ex_binary MODE_ELF_EXE ET_EXEC)
                              [] 65536) out_size 4194) as (out & E & _).
  { vm_compute. reflexivity. }
  exists out. split; [exact E|].
  pose proof (emitElf_page_alignment 4096 ex_IS_ABSOLUTE ex_BASE_ADDRESS
                ex_getVirtualBounds ex_flattenMapping ex_loader 8 ex_opts
                (ex_binary MODE_ELF_EXE ET_EXEC) [] 65536 out
                ltac:(lia) ltac:(exists (2 ^ 52); reflexivity) E) as H.
  split; apply H.
Defined.

(** C2, the claim as stated fails: the emission of the example file with
    one patched page at the non-absolute address 0x400000000, above the
    loader base 0x20e9e9000, succeeds; the postload array holds the one
    record of the refactor mapping, with that address. *)
Lemma emitElf_refactor_above_loader_base :
  exists out,
    ex_emitElf ex_opts (ex_patched_binary MODE_ELF_EXE ET_EXEC 0x400000110) [] 65536
    = OK out
    /\ out_refactors out = [mkRefactor 0x400000000 4096 0 4096]
    /\ ex_IS_ABSOLUTE 0x400000000 = false
    /\ 0x400000000 > option_loader_base ex_opts
    /\ load32 (out_data out) (out_config_offset out + off_num_maps 1) = 1
    /\ out_config_offset out + load32 (out_data out) (out_config_offset out + off_maps 1)
       = out_config_offset out + 80
    /\ map_addr (out_data out) (out_config_offset out + 80) * 4096 = 0x400000000
    /\ map_abs (out_data out) (out_config_offset out + 80) = 0.
Proof.
  destruct (result_observe
              (ex_emitElf ex_opts
                 (ex_patched_binary MODE_ELF_EXE ET_EXEC 0x400000110) [] 65536)
              (fun out =>
                 (out_refactors out,
                  load32 (out_data out) (out_config_offset out + off_num_maps 1),
                  load32 (out_data out) (out_config_offset out + off_maps 1),
                  map_addr (out_data out) (out_config_offset out + 80),
                  map_abs (out_data out) (out_config_offset out + 80)))
              ([mkRefactor 0x400000000 4096 0 4096], 1, 80, 0x400000, 0))
    as (out & E & H).
  { vm_compute. reflexivity. }
  exists out. split; [exact E|].
  injection H as H1 H2 H3 H4 H5. rewrite H1, H2, H3, H4, H5.
  repeat split.
Qed.

Lemma emitElf_loader_base_guard_witness :
  exists out,
    ex_emitElf ex_opts (ex_binary MODE_ELF_EXE ET_EXEC) [ex_mapping] 65536 = OK out
    /\ forall q,
        In q (array_requests 4096 ex_getVirtualBounds true (out_mappings out)) ->
        ex_IS_ABSOLUTE (q_base q) = false ->
        q_base q <= option_loader_base ex_opts.
Proof.
  destruct (result_observe
              (ex_emitElf ex_opts (ex_binary MODE_ELF_EXE ET_EXEC) [ex_mapping] 65536)
              out_ub 0x30000) as (out & E & _).
  { vm_compute. reflexivity. }
  exists out. split; [exact E|].
  exact (proj2 (emitElf_loader_base_guard 4096 ex_IS_ABSOLUTE ex_BASE_ADDRESS
                  ex_getVirtualBounds ex_flattenMapping ex_loader 8 ex_opts
                  (ex_binary MODE_ELF_EXE ET_EXEC) [ex_mapping] 65536)
           out E true).
Defined.

Lemma phdr_repurposing_witness :
  exists out,
    ex_emitElf ex_opts (ex_binary MODE_ELF_EXE ET_EXEC) [] 65536 = OK out
    /\ choosePhdr ex_opts (ex_binary MODE_ELF_EXE ET_EXEC) = Some 120
    /\ load32 (out_data out) (120 + off_p_type) = PT_LOAD
    /\ load64 (out_data out) (120 + off_p_offset) = out_config_offset out
    /\ load64 (out_data out) (120 + off_p_filesz) = out_config_size out.
Proof.
  destruct (result_observe
              (ex_emitElf ex_opts (ex_binary MODE_ELF_EXE ET_EXEC) [] 65536)
              out_size 4194) as (out & E & _).
  { vm_compute. reflexivity. }
  exists out. split; [exact E|].
  destruct (proj2 (proj2 (phdr_repurposing 4096 ex_IS_ABSOLUTE ex_BASE_ADDRESS
                            ex_getVirtualBounds ex_flattenMapping ex_loader 8
                            ex_opts (ex_binary MODE_ELF_EXE ET_EXEC) [] 65536
                            ltac:(lia))) out E)
    as (phdr & Hc & F1 & _ & F3 & _ & _ & F6 & _).
  assert (Hp : phdr = 120) by (vm_compute in Hc; congruence).
  subst phdr. repeat split; assumption.
Defined.

Lemma entry_shim_witness :
  exists out,
    ex_emitElf ex_opts (ex_binary MODE_ELF_EXE ET_EXEC) [] 65536 = OK out
    /\ out_entry out = 0x20e9e9000 + 80
    /\ read_bytes (out_data out) (4096 + 80) 18
       = [0x48; 0x8B; 0x3C; 0x24; 0x48; 0x8D; 0x74; 0x24; 0x08;
          0x48; 0x8D; 0x15; 0xA0; 0xFF; 0xFF; 0xFF; 0x90; 0xc3].
Proof.
  destruct (result_observe
              (emitLoader 4096 ex_IS_ABSOLUTE ex_BASE_ADDRESS ex_getVirtualBounds
                 ex_flattenMapping ex_loader 8 ex_opts
                 (ex_binary MODE_ELF_EXE ET_EXEC) [] 65536)
              (fun o => (load64 (out_data o) 184, load64 (out_data o) 216))
              (232, 48)) as (out0 & E0 & Hobs0).
  { vm_compute. reflexivity. }
  destruct (result_observe
              (ex_emitElf ex_opts (ex_binary MODE_ELF_EXE ET_EXEC) [] 65536)
              (fun o => (out_size o, out_config_offset o))
              (4194, 4096)) as (out & E & Hobs).
  { vm_compute. reflexivity. }
  injection Hobs0 as Hoff Hmemsz. injection Hobs as Hsz Hco.
  exists out. split; [exact E|].
  destruct (entry_shim 4096 ex_IS_ABSOLUTE ex_BASE_ADDRESS ex_getVirtualBounds
              ex_flattenMapping ex_loader 8 ex_opts
              (ex_binary MODE_ELF_EXE ET_EXEC) [] 65536 out0 out
              [0x48; 0x8B; 0x3C; 0x24; 0x48; 0x8D; 0x74; 0x24; 0x08]
              E0 E eq_refl) as (_ & _ & Hentry & Hbytes & _).
  - rewrite Hco. split; [vm_compute; discriminate|]. split.
    + intros ph Hph. injection Hph as <-.
      change (176 + off_p_offset) with 184. change (176 + off_p_memsz) with 216.
      rewrite Hoff, Hmemsz.
      split; vm_compute; discriminate.
    + intros ph Hph. vm_compute in Hph. injection Hph as <-.
      vm_compute. discriminate.
  - lia.
  - rewrite Hco, Hsz. vm_compute. discriminate.
  - rewrite Hco, Hsz in Hentry, Hbytes. split.
    + rewrite Hentry. vm_compute. reflexivity.
    + exact Hbytes.
Defined.



(** * Further properties *)

(** ** parseElf: what a successful parse guarantees *)

Section ParseElfMore.

Variable Allocator : Type.
Variable reserve : Allocator -> Z -> Z -> bool * Allocator.
Variable RELATIVE_ADDRESS_MIN : Z.

Local Abbreviation parseElf := (parseElf Allocator reserve RELATIVE_ADDRESS_MIN).
Local Abbreviation classify := (classify Allocator reserve).
Local Abbreviation parsePhdrs := (parsePhdrs Allocator reserve).
Local Abbreviation visitPhdr := (visitPhdr Allocator reserve).
Local Abbreviation reserve_all := (reserve_all reserve).

(** The last program header of type [ty] in a list, starting from [init]. *)
Local Abbreviation last_match data ty l init :=
  (fold_left (fun acc ph =>
                if load32 data (ph + off_p_type) =? ty then Some ph else acc)
             l init).

Lemma reserve_all_app alloc l1 l2 :
  reserve_all alloc (l1 ++ l2) =
  match reserve_all alloc l1 with
  | Some alloc' => reserve_all alloc' l2
  | None => None
  end.
Proof.
  revert alloc. induction l1 as [|[lo hi] l1 IH]; intros alloc; simpl; auto.
  destruct (reserve alloc lo hi) as [[|] alloc']; auto.
Qed.

(** One turn of the loop: the field of the header's type is overwritten,
    the others are kept, and only a [PT_LOAD] header reserves. *)
Lemma visitPhdr_step data alloc info phdr :
  let ty := load32 data (phdr + off_p_type) in
  match reserve_all alloc (load_segment data phdr) with
  | Some alloc' =>
      exists info',
        visitPhdr data (alloc, info) phdr = OK (alloc', info')
        /\ ehdr info' = ehdr info
        /\ phdr_note info' = (if ty =? PT_NOTE then Some phdr else phdr_note info)
        /\ phdr_gnu_relro info' =
             (if ty =? PT_GNU_RELRO then Some phdr else phdr_gnu_relro info)
        /\ phdr_gnu_stack info' =
             (if ty =? PT_GNU_STACK then Some phdr else phdr_gnu_stack info)
        /\ phdr_dynamic info' =
             (if ty =? PT_DYNAMIC then Some phdr else phdr_dynamic info)
  | None => visitPhdr data (alloc, info) phdr = Err ErrReserveSegment
  end.
Proof.
  intros ty. unfold visitPhdr, load_segment.
  change (load32 data (phdr + off_p_type)) with ty. clearbody ty.
  destruct (Z.eqb_spec ty PT_LOAD) as [E|_].
  - rewrite E. cbn [reserve_all].
    destruct (reserve alloc _ _) as [[|] alloc']; [|reflexivity].
    exists info. repeat split; reflexivity.
  - cbn [reserve_all].
    destruct (Z.eqb_spec ty PT_DYNAMIC) as [E|_];
      [try rewrite E; eexists; repeat split; reflexivity|].
    destruct (Z.eqb_spec ty PT_NOTE) as [E|_];
      [try rewrite E; eexists; repeat split; reflexivity|].
    destruct (Z.eqb_spec ty PT_GNU_RELRO) as [E|_];
      [try rewrite E; eexists; repeat split; reflexivity|].
    destruct (Z.eqb_spec ty PT_GNU_STACK) as [E|_];
      [try rewrite E; eexists; repeat split; reflexivity|].
    exists info. repeat split; reflexivity.
Qed.

Lemma fold_visitPhdr data l alloc info :
  match reserve_all alloc (flat_map (load_segment data) l) with
  | Some alloc' =>
      exists info',
        fold_result (visitPhdr data) l (alloc, info) = OK (alloc', info')
        /\ ehdr info' = ehdr info
        /\ phdr_note info' = last_match data PT_NOTE l (phdr_note info)
        /\ phdr_gnu_relro info' =
             last_match data PT_GNU_RELRO l (phdr_gnu_relro info)
        /\ phdr_gnu_stack info' =
             last_match data PT_GNU_STACK l (phdr_gnu_stack info)
        /\ phdr_dynamic info' =
             last_match data PT_DYNAMIC l (phdr_dynamic info)
  | None =>
      fold_result (visitPhdr data) l (alloc, info) = Err ErrReserveSegment
  end.
Proof.
  revert alloc info. induction l as [|ph l IH]; intros alloc info.
  - simpl. exists info. repeat split; reflexivity.
  - cbn [flat_map fold_result fold_left]. rewrite reserve_all_app.
    pose proof (visitPhdr_step data alloc info ph) as Hs. cbv zeta in Hs.
    destruct (reserve_all alloc (load_segment data ph)) as [alloc1|].
    + destruct Hs as (info1 & -> & He & Hn & Hr & Hs & Hd). cbn [bind].
      specialize (IH alloc1 info1).
      destruct (reserve_all alloc1 _) as [alloc'|]; [|exact IH].
      destruct IH as (info' & -> & He' & Hn' & Hr' & Hs' & Hd').
      exists info'. rewrite He', Hn', Hr', Hs', Hd', He, Hn, Hr, Hs, Hd.
      repeat split; reflexivity.
    + rewrite Hs. reflexivity.
Qed.

Lemma last_match_table data phdrs ty n :
  last_of_type data phdrs n ty
    (last_match data ty (map (phdr_at phdrs) (seq 0 n)) None).
Proof.
  induction n as [|n IH].
  - simpl. intros i Hi. lia.
  - rewrite seq_S, map_app, fold_left_app. cbn [map fold_left Nat.add].
    destruct (Z.eqb_spec (load32 data (phdr_at phdrs n + off_p_type)) ty)
      as [E|E].
    + exists n. repeat split; auto. intros j Hj. lia.
    + destruct (last_match data ty (map (phdr_at phdrs) (seq 0 n)) None)
        as [p|]; cbn [last_of_type] in *.
      * destruct IH as (i & Hi & Hp & Ht & Hl).
        exists i. repeat split; auto.
        intros j Hj. destruct (Nat.eq_dec j n) as [->|]; auto.
        apply Hl. lia.
      * intros i Hi. destruct (Nat.eq_dec i n) as [->|]; auto.
        apply IH. lia.
Qed.

(** The checks before [switch (ehdr->e_type)], taken together. *)
Lemma parseElf_header B alloc :
  parseElf B alloc =
  if header_ok B then
    let data := B_patched_bytes B in
    '(pic, pie, alloc) <- classify (load16 data off_e_type) (B_mode B) alloc ;;
    alloc <-
      (if negb pie then
         let '(ok, alloc) := reserve alloc RELATIVE_ADDRESS_MIN 0x0 in
         if ok then OK alloc else Err ErrReserveNegativeRange
       else OK alloc) ;;
    parsePhdrs data (B_size B) (load64 data off_e_phoff)
      (load16 data off_e_phnum) pic alloc
  else
    parseElf B alloc.
Proof.
  destruct (header_ok B) eqn:Hok; [|reflexivity].
  unfold header_ok in Hok.
  repeat (apply andb_prop in Hok; destruct Hok as [Hok ?]).
  unfold parseElf.
  change (0 + off_e_type) with off_e_type.
  change (0 + off_e_phoff) with off_e_phoff.
  change (0 + off_e_phnum) with off_e_phnum.
  change (0 + off_e_machine) with off_e_machine.
  change (0 + EI_CLASS) with EI_CLASS. change (0 + EI_DATA) with EI_DATA.
  change (0 + EI_VERSION) with EI_VERSION.
  change (0 + 0) with 0. change (0 + 1) with 1. change (0 + 2) with 2.
  change (0 + 3) with 3.
  repeat match goal with
         | H : ?c = true |- context [?c] => rewrite H
         end.
  replace (B_size B <? sizeof_Elf64_Ehdr) with false by lia.
  replace (load64 (B_patched_bytes B) off_e_phoff <? sizeof_Elf64_Ehdr)
    with false by lia.
  replace (load64 (B_patched_bytes B) off_e_phoff >=? B_size B)
    with false by lia.
  replace (load16 (B_patched_bytes B) off_e_phnum >? PN_XNUM) with false by lia.
  match goal with
  | |- context [?a >? B_size B] => replace (a >? B_size B) with false by lia
  end.
  reflexivity.
Qed.

(** A file that fails a header check is refused as malformed. *)
Lemma parseElf_header_bad B alloc :
  header_ok B = false ->
  exists e, parseElf B alloc = Err e /\ error_kind e = MalformedInput.
Proof.
  intros Hok. unfold parseElf.
  repeat match goal with
         | |- context [if ?c then Err ?e else _] =>
             destruct c eqn:?; [exists e; split; reflexivity|]
         end.
  exfalso. unfold header_ok in Hok.
  change (0 + off_e_phoff) with off_e_phoff in *.
  change (0 + off_e_phnum) with off_e_phnum in *.
  change (0 + off_e_machine) with off_e_machine in *.
  change (0 + EI_CLASS) with EI_CLASS in *. change (0 + EI_DATA) with EI_DATA in *.
  change (0 + EI_VERSION) with EI_VERSION in *.
  change (0 + 0) with 0 in *. change (0 + 1) with 1 in *.
  change (0 + 2) with 2 in *. change (0 + 3) with 3 in *.
  repeat match goal with
         | H : negb _ = false |- _ => apply negb_false_iff in H
         | H : _ || _ = false |- _ => apply orb_false_iff in H; destruct H
         | H : _ && _ = true |- _ => apply andb_prop in H; destruct H
         end.
  repeat match goal with
         | H : ?c = true |- _ => rewrite H in Hok
         end.
  cbn [andb] in Hok.
  repeat (apply andb_false_iff in Hok; destruct Hok as [Hok|Hok]); lia.
Qed.

(** What [parseElf] has done when it returns. *)
Lemma parseElf_success_inv B alloc pic info alloc' :
  parseElf B alloc = OK (pic, info, alloc') ->
  let data := B_patched_bytes B in
  let l := map (phdr_at (load64 data off_e_phoff))
               (seq 0 (Z.to_nat (load16 data off_e_phnum))) in
  header_ok B = true
  /\ type_fits_mode B = true
  /\ pic = (load16 data off_e_type =? ET_DYN)
  /\ reserve_all alloc (reservation_requests RELATIVE_ADDRESS_MIN B)
     = Some alloc'
  /\ ehdr info = 0
  /\ phdr_note info = last_match data PT_NOTE l None
  /\ phdr_gnu_relro info = last_match data PT_GNU_RELRO l None
  /\ phdr_gnu_stack info = last_match data PT_GNU_STACK l None
  /\ phdr_dynamic info = last_match data PT_DYNAMIC l None
  /\ (forall ph, phdr_dynamic info = Some ph ->
        u64 (load64 data (ph + off_p_offset) + load64 data (ph + off_p_memsz))
        <= B_size B).
Proof.
  intros H data l.
  destruct (header_ok B) eqn:Hok.
  2:{ destruct (parseElf_header_bad B alloc Hok) as (e & He & _).
      rewrite He in H. discriminate. }
  split; [reflexivity|].
  rewrite parseElf_header, Hok in H. cbv zeta in H. fold data in H.
  unfold type_fits_mode, reservation_requests. fold data. fold l.
  unfold classify in H.
  assert (Hwalk : forall pic0 alloc0 alloc1,
             parsePhdrs data (B_size B) (load64 data off_e_phoff)
               (load16 data off_e_phnum) pic0 alloc0 = OK (pic, info, alloc1) ->
             pic = pic0
             /\ reserve_all alloc0 (flat_map (load_segment data) l) = Some alloc1
             /\ ehdr info = 0
             /\ phdr_note info = last_match data PT_NOTE l None
             /\ phdr_gnu_relro info = last_match data PT_GNU_RELRO l None
             /\ phdr_gnu_stack info = last_match data PT_GNU_STACK l None
             /\ phdr_dynamic info = last_match data PT_DYNAMIC l None
             /\ (forall ph, phdr_dynamic info = Some ph ->
                   u64 (load64 data (ph + off_p_offset)
                        + load64 data (ph + off_p_memsz)) <= B_size B)).
  { intros pic0 alloc0 alloc1 Hp. unfold parsePhdrs in Hp.
    change (map _ (seq 0 _)) with l in Hp.
    pose proof (fold_visitPhdr data l alloc0 (mkElfInfo 0 None None None None))
      as Hf.
    destruct (reserve_all alloc0 (flat_map (load_segment data) l)) as [a|].
    2:{ rewrite Hf in Hp. discriminate. }
    destruct Hf as (info1 & Hf & He & Hn & Hr & Hs & Hd).
    rewrite Hf in Hp. cbn [bind] in Hp. cbn [ehdr phdr_note phdr_gnu_relro
      phdr_gnu_stack phdr_dynamic] in He, Hn, Hr, Hs, Hd.
    destruct (phdr_dynamic info1) as [ph|] eqn:Hdyn.
    - destruct (Z.gtb_spec
                  (u64 (load64 data (ph + off_p_offset)
                        + load64 data (ph + off_p_memsz))) (B_size B));
        [discriminate|].
      injection Hp as <- <- <-. rewrite <- Hn, <- Hr, <- Hs, <- Hd.
      repeat split; auto.
      intros ph' Hph'. rewrite Hdyn in Hph'. injection Hph' as <-. assumption.
    - injection Hp as <- <- <-. rewrite <- Hn, <- Hr, <- Hs, <- Hd.
      repeat split; auto.
      intros ph' Hph'. rewrite Hdyn in Hph'. discriminate. }
  destruct (Z.eqb_spec (load16 data off_e_type) ET_EXEC) as [Ex|Ex].
  - rewrite Ex in *. change (ET_EXEC =? ET_DYN) with false. cbn [orb andb].
    destruct (Mode_eqb (B_mode B) MODE_ELF_DSO); [discriminate|].
    cbn [app reserve_all].
    destruct (reserve alloc 0 65536) as [[|] a1]; [|discriminate].
    cbn [bind negb] in H.
    destruct (reserve a1 RELATIVE_ADDRESS_MIN 0) as [[|] a2]; [|discriminate].
    cbn [bind] in H.
    destruct (Hwalk _ _ _ H) as (-> & Hres & Hrest).
    repeat split; try apply Hrest; auto.
  - destruct (Z.eqb_spec (load16 data off_e_type) ET_DYN) as [Ed|Ed];
      [|discriminate].
    cbn [bind orb andb app] in *.
    destruct (Mode_eqb (B_mode B) MODE_ELF_EXE); cbn [negb bind app reserve_all] in *.
    + destruct (Hwalk _ _ _ H) as (-> & Hres & Hrest).
      repeat split; try apply Hrest; auto.
    + destruct (reserve alloc RELATIVE_ADDRESS_MIN 0) as [[|] a2]; [|discriminate].
      cbn [bind] in H.
      destruct (Hwalk _ _ _ H) as (-> & Hres & Hrest).
      repeat split; try apply Hrest; auto.
Qed.

(** X1: when [parseElf] returns, the file has passed every header check,
    its type is [ET_DYN] or it is [ET_EXEC] and the mode is not DSO, the
    returned flag [pic] says whether the type is [ET_DYN], and [info.ehdr]
    is the start of the file. *)
Theorem parseElf_accepted_file B alloc pic info alloc' :
  parseElf B alloc = OK (pic, info, alloc') ->
  let e_type := load16 (B_patched_bytes B) off_e_type in
  header_ok B = true
  /\ ((e_type = ET_DYN /\ pic = true)
      \/ (e_type = ET_EXEC /\ pic = false /\ B_mode B <> MODE_ELF_DSO))
  /\ ehdr info = 0.
Proof.
  intros H e_type.
  destruct (parseElf_success_inv _ _ _ _ _ H)
    as (Hok & Hfit & Hpic & _ & He & _).
  cbv zeta in Hpic. fold e_type in Hpic.
  unfold type_fits_mode in Hfit. fold e_type in Hfit.
  split; [exact Hok|]. split; [|exact He].
  destruct (Z.eqb_spec e_type ET_DYN) as [Ed|Ed].
  - left. auto.
  - right. cbn [orb] in Hfit. apply andb_prop in Hfit. destruct Hfit as [Hx Hm].
    repeat split; [lia|assumption|].
    intros Hmode. rewrite Hmode in Hm. discriminate.
Qed.

(** X2: when [parseElf] returns, each of [info.phdr_note],
    [info.phdr_gnu_relro], [info.phdr_gnu_stack] and [info.phdr_dynamic]
    is the last entry of the program-header table with the type
    [PT_NOTE], [PT_GNU_RELRO], [PT_GNU_STACK], [PT_DYNAMIC], and is null
    exactly when the table has no entry of that type. *)
Theorem parseElf_records_last_phdr B alloc pic info alloc' :
  parseElf B alloc = OK (pic, info, alloc') ->
  let data := B_patched_bytes B in
  let phdrs := load64 data off_e_phoff in
  let n := Z.to_nat (load16 data off_e_phnum) in
  last_of_type data phdrs n PT_NOTE (phdr_note info)
  /\ last_of_type data phdrs n PT_GNU_RELRO (phdr_gnu_relro info)
  /\ last_of_type data phdrs n PT_GNU_STACK (phdr_gnu_stack info)
  /\ last_of_type data phdrs n PT_DYNAMIC (phdr_dynamic info).
Proof.
  intros H data phdrs n.
  destruct (parseElf_success_inv _ _ _ _ _ H)
    as (_ & _ & _ & _ & _ & Hn & Hr & Hs & Hd & _).
  cbv zeta in Hn, Hr, Hs, Hd. rewrite Hn, Hr, Hs, Hd.
  repeat split; apply last_match_table.
Qed.

(** A recorded program header lies in the file. *)
Lemma last_of_type_in_file B ty field ph :
  header_ok B = true -> B_size B < 2 ^ 63 ->
  last_of_type (B_patched_bytes B) (load64 (B_patched_bytes B) off_e_phoff)
    (Z.to_nat (load16 (B_patched_bytes B) off_e_phnum)) ty field ->
  field = Some ph ->
  sizeof_Elf64_Ehdr <= ph /\ ph + sizeof_Elf64_Phdr <= B_size B.
Proof.
  intros Hok Hsize Hl ->. cbn [last_of_type] in Hl.
  destruct Hl as (i & Hi & -> & _).
  unfold header_ok in Hok.
  repeat (apply andb_prop in Hok; destruct Hok as [Hok ?]).
  unfold phdr_at, sizeof_Elf64_Phdr, sizeof_Elf64_Ehdr, PN_XNUM, u64 in *.
  set (phoff := load64 (B_patched_bytes B) off_e_phoff) in *.
  set (phnum := load16 (B_patched_bytes B) off_e_phnum) in *.
  assert (Hn : Z.of_nat i < phnum) by lia.
  rewrite Z.mod_small in * by lia. lia.
Qed.

(** X3: when [parseElf] returns for a file of less than 2^63 bytes, every
    program header it has recorded lies in the file, after the ELF
    header, and the dynamic section of the recorded [PT_DYNAMIC] header
    ends (modulo 2^64) within the file. *)
Theorem parseElf_pointers_in_file B alloc pic info alloc' :
  parseElf B alloc = OK (pic, info, alloc') ->
  B_size B < 2 ^ 63 ->
  (forall ph,
      phdr_note info = Some ph \/ phdr_gnu_relro info = Some ph
      \/ phdr_gnu_stack info = Some ph \/ phdr_dynamic info = Some ph ->
      sizeof_Elf64_Ehdr <= ph /\ ph + sizeof_Elf64_Phdr <= B_size B)
  /\ (forall ph, phdr_dynamic info = Some ph ->
        u64 (load64 (B_patched_bytes B) (ph + off_p_offset)
             + load64 (B_patched_bytes B) (ph + off_p_memsz)) <= B_size B).
Proof.
  intros H Hsize.
  destruct (parseElf_success_inv _ _ _ _ _ H)
    as (Hok & _ & _ & _ & _ & Hn & Hr & Hs & Hd & Hdyn).
  cbv zeta in Hn, Hr, Hs, Hd, Hdyn.
  split; [|exact Hdyn].
  intros ph [Hp|[Hp|[Hp|Hp]]];
    (eapply last_of_type_in_file; [exact Hok|exact Hsize| |exact Hp]).
  - rewrite Hn. apply last_match_table.
  - rewrite Hr. apply last_match_table.
  - rewrite Hs. apply last_match_table.
  - rewrite Hd. apply last_match_table.
Qed.

(** A refused reservation stops [parseElf], whatever comes after it. *)
Lemma parseElf_refused B alloc :
  header_ok B = true -> type_fits_mode B = true ->
  reserve_all alloc (reservation_requests RELATIVE_ADDRESS_MIN B) = None ->
  exists e, parseElf B alloc = Err e /\ error_kind e = ReservationConflict.
Proof.
  intros Hok Hfit Hres. rewrite parseElf_header, Hok. cbv zeta.
  unfold type_fits_mode in Hfit. unfold reservation_requests in Hres.
  set (data := B_patched_bytes B) in *.
  set (l := map (phdr_at (load64 data off_e_phoff))
                (seq 0 (Z.to_nat (load16 data off_e_phnum)))) in *.
  assert (Hwalk : forall pic0 alloc0,
             reserve_all alloc0 (flat_map (load_segment data) l) = None ->
             parsePhdrs data (B_size B) (load64 data off_e_phoff)
               (load16 data off_e_phnum) pic0 alloc0 = Err ErrReserveSegment).
  { intros pic0 alloc0 Hn. unfold parsePhdrs.
    change (map _ (seq 0 _)) with l.
    pose proof (fold_visitPhdr data l alloc0 (mkElfInfo 0 None None None None))
      as Hf.
    rewrite Hn in Hf. rewrite Hf. reflexivity. }
  unfold classify.
  destruct (Z.eqb_spec (load16 data off_e_type) ET_EXEC) as [Ex|Ex].
  - rewrite Ex in *. change (ET_EXEC =? ET_DYN) with false in *.
    cbn [orb andb negb] in *.
    destruct (Mode_eqb (B_mode B) MODE_ELF_DSO); [discriminate|].
    cbn [app reserve_all] in Hres.
    destruct (reserve alloc 0 65536) as [[|] a1];
      [|eexists; split; reflexivity].
    cbn [bind negb].
    destruct (reserve a1 RELATIVE_ADDRESS_MIN 0) as [[|] a2];
      [|eexists; split; reflexivity].
    cbn [bind]. rewrite (Hwalk _ _ Hres). eexists; split; reflexivity.
  - destruct (Z.eqb_spec (load16 data off_e_type) ET_DYN) as [Ed|Ed];
      [|discriminate].
    cbn [bind orb andb app] in *.
    destruct (Mode_eqb (B_mode B) MODE_ELF_EXE); cbn [negb bind app reserve_all] in *.
    + rewrite (Hwalk _ _ Hres). eexists; split; reflexivity.
    + destruct (reserve alloc RELATIVE_ADDRESS_MIN 0) as [[|] a2];
        [|eexists; split; reflexivity].
      cbn [bind]. rewrite (Hwalk _ _ Hres). eexists; split; reflexivity.
Qed.

(** X4: [parseElf] reserves, in this order, the low range [0, 0x10000)
    of an [ET_EXEC] file, the negative range unless the file is a PIE
    ([ET_DYN] in executable mode), and the range of every [PT_LOAD]
    segment.  When it returns these reservations have all been granted
    and no other was made; when one of them is refused for a file that
    passes the header and type checks, it fails with a reservation
    conflict. *)
Theorem parseElf_reservations B alloc :
  (forall pic info alloc',
      parseElf B alloc = OK (pic, info, alloc') ->
      reserve_all alloc (reservation_requests RELATIVE_ADDRESS_MIN B)
      = Some alloc')
  /\ (header_ok B = true -> type_fits_mode B = true ->
      reserve_all alloc (reservation_requests RELATIVE_ADDRESS_MIN B) = None ->
      exists e, parseElf B alloc = Err e /\ error_kind e = ReservationConflict).
Proof.
  split.
  - intros pic info alloc' H.
    apply (parseElf_success_inv _ _ _ _ _ H).
  - apply parseElf_refused.
Qed.

(** The outcome of [parseElf] once the reservations are granted. *)
Lemma parseElf_granted B alloc alloc' :
  header_ok B = true -> type_fits_mode B = true ->
  reserve_all alloc (reservation_requests RELATIVE_ADDRESS_MIN B) = Some alloc' ->
  parseElf B alloc =
  if dynamic_in_file B
  then OK (load16 (B_patched_bytes B) off_e_type =? ET_DYN, phdr_info B, alloc')
  else Err ErrInvalidDynamic.
Proof.
  intros Hok Hfit Hres.
  rewrite parseElf_header, Hok. cbv zeta.
  unfold type_fits_mode in Hfit. unfold reservation_requests in Hres.
  unfold dynamic_in_file.
  set (data := B_patched_bytes B) in *.
  assert (Hwalk : forall pic0 alloc0,
             reserve_all alloc0 (flat_map (load_segment data) (phdr_table B))
             = Some alloc' ->
             parsePhdrs data (B_size B) (load64 data off_e_phoff)
               (load16 data off_e_phnum) pic0 alloc0
             = match last_phdr data PT_DYNAMIC (phdr_table B) None with
               | Some ph =>
                   if u64 (load64 data (ph + off_p_offset)
                           + load64 data (ph + off_p_memsz)) <=? B_size B
                   then OK (pic0, phdr_info B, alloc')
                   else Err ErrInvalidDynamic
               | None => OK (pic0, phdr_info B, alloc')
               end).
  { intros pic0 alloc0 Hsome. unfold parsePhdrs.
    change (map _ (seq 0 _)) with (phdr_table B).
    pose proof (fold_visitPhdr data (phdr_table B) alloc0
                  (mkElfInfo 0 None None None None)) as Hf.
    rewrite Hsome in Hf.
    destruct Hf as (info1 & -> & He & Hn & Hr & Hs & Hd).
    cbn [bind ehdr phdr_note phdr_gnu_relro phdr_gnu_stack phdr_dynamic]
      in *.
    assert (Hinfo : info1 = phdr_info B).
    { unfold phdr_info, last_phdr. fold data.
      rewrite <- Hn, <- Hr, <- Hs, <- Hd, <- He. destruct info1; reflexivity. }
    rewrite Hd. fold (last_phdr data PT_DYNAMIC (phdr_table B) None).
    destruct (last_phdr data PT_DYNAMIC (phdr_table B) None) as [ph|].
    - rewrite Hinfo.
      destruct (Z.leb_spec (u64 (load64 data (ph + off_p_offset)
                                 + load64 data (ph + off_p_memsz))) (B_size B)).
      + replace (_ >? B_size B) with false by lia. reflexivity.
      + replace (_ >? B_size B) with true by lia. reflexivity.
    - rewrite Hinfo. reflexivity. }
  unfold classify.
  destruct (Z.eqb_spec (load16 data off_e_type) ET_EXEC) as [Ex|Ex].
  - rewrite Ex in *. change (ET_EXEC =? ET_DYN) with false in *.
    cbn [orb andb negb] in *.
    destruct (Mode_eqb (B_mode B) MODE_ELF_DSO); [discriminate|].
    cbn [app reserve_all] in Hres.
    destruct (reserve alloc 0 65536) as [[|] a1]; [|discriminate].
    cbn [bind negb].
    destruct (reserve a1 RELATIVE_ADDRESS_MIN 0) as [[|] a2]; [|discriminate].
    cbn [bind]. rewrite (Hwalk _ _ Hres).
    destruct (last_phdr data PT_DYNAMIC (phdr_table B) None); reflexivity.
  - destruct (Z.eqb_spec (load16 data off_e_type) ET_DYN) as [Ed|Ed];
      [|discriminate].
    cbn [bind orb andb app] in *.
    destruct (Mode_eqb (B_mode B) MODE_ELF_EXE);
      cbn [negb bind app reserve_all] in *.
    + rewrite (Hwalk _ _ Hres).
      destruct (last_phdr data PT_DYNAMIC (phdr_table B) None); reflexivity.
    + destruct (reserve alloc RELATIVE_ADDRESS_MIN 0) as [[|] a2];
        [|discriminate].
      cbn [bind]. rewrite (Hwalk _ _ Hres).
      destruct (last_phdr data PT_DYNAMIC (phdr_table B) None); reflexivity.
Qed.

(** A file whose type does not fit the mode is refused as malformed. *)
Lemma parseElf_misfit B alloc :
  header_ok B = true -> type_fits_mode B = false ->
  exists e, parseElf B alloc = Err e /\ error_kind e = MalformedInput.
Proof.
  intros Hok Hfit. rewrite parseElf_header, Hok. cbv zeta.
  unfold type_fits_mode in Hfit. unfold classify.
  destruct (Z.eqb_spec (load16 (B_patched_bytes B) off_e_type) ET_EXEC)
    as [Ex|Ex].
  - rewrite Ex in *. change (ET_EXEC =? ET_DYN) with false in *.
    cbn [orb andb] in Hfit.
    destruct (Mode_eqb (B_mode B) MODE_ELF_DSO); [|discriminate].
    eexists. split; reflexivity.
  - destruct (load16 (B_patched_bytes B) off_e_type =? ET_DYN);
      [discriminate|].
    eexists. split; reflexivity.
Qed.

(** X5: [parseElf] returns exactly when the file passes the header
    checks, its type fits the mode, every reservation is granted and the
    dynamic section of the last [PT_DYNAMIC] header ends, in 64-bit
    arithmetic, within the file; it then returns whether the type is
    [ET_DYN], the last program header of each of the four types, and the
    allocator after the reservations. *)
Theorem parseElf_returns_iff B alloc pic info alloc' :
  parseElf B alloc = OK (pic, info, alloc')
  <-> header_ok B = true
      /\ type_fits_mode B = true
      /\ reserve_all alloc (reservation_requests RELATIVE_ADDRESS_MIN B)
         = Some alloc'
      /\ dynamic_in_file B = true
      /\ pic = (load16 (B_patched_bytes B) off_e_type =? ET_DYN)
      /\ info = phdr_info B.
Proof.
  split.
  - intros H.
    destruct (parseElf_success_inv _ _ _ _ _ H)
      as (Hok & Hfit & Hpic & Hres & He & Hn & Hr & Hs & Hd & Hdyn).
    cbv zeta in *.
    split; [exact Hok|]. split; [exact Hfit|]. split; [exact Hres|].
    split; [|split; [exact Hpic|]].
    + unfold dynamic_in_file, last_phdr, phdr_table. rewrite <- Hd.
      destruct (phdr_dynamic info) as [ph|]; [|reflexivity].
      apply Z.leb_le. apply Hdyn. reflexivity.
    + unfold phdr_info, last_phdr, phdr_table.
      rewrite <- Hn, <- Hr, <- Hs, <- Hd, <- He. destruct info; reflexivity.
  - intros (Hok & Hfit & Hres & Hdyn & -> & ->).
    rewrite (parseElf_granted B alloc alloc' Hok Hfit Hres), Hdyn.
    reflexivity.
Qed.

(** X6: when [parseElf] fails, the error is a malformed input or a
    reservation conflict.  It is a reservation conflict exactly when the
    file passes the header checks, its type fits the mode and one of the
    reservations is refused; when they are all granted, the failure is
    that of the check of the dynamic section. *)
Theorem parseElf_failure B alloc e :
  parseElf B alloc = Err e ->
  (error_kind e = MalformedInput \/ error_kind e = ReservationConflict)
  /\ (error_kind e = ReservationConflict
      <-> header_ok B = true /\ type_fits_mode B = true
          /\ reserve_all alloc (reservation_requests RELATIVE_ADDRESS_MIN B)
             = None)
  /\ (forall alloc',
         header_ok B = true -> type_fits_mode B = true ->
         reserve_all alloc (reservation_requests RELATIVE_ADDRESS_MIN B)
         = Some alloc' ->
         e = ErrInvalidDynamic /\ dynamic_in_file B = false).
Proof.
  intros H.
  destruct (header_ok B) eqn:Hok.
  2:{ destruct (parseElf_header_bad B alloc Hok) as (e' & He' & Hk).
      rewrite He' in H. injection H as <-.
      split; [left; exact Hk|]. split.
      - split; [rewrite Hk; discriminate|]. intros (Hc & _). discriminate.
      - intros alloc' Hc. discriminate. }
  destruct (type_fits_mode B) eqn:Hfit.
  2:{ destruct (parseElf_misfit B alloc Hok Hfit) as (e' & He' & Hk).
      rewrite He' in H. injection H as <-.
      split; [left; exact Hk|]. split.
      - split; [rewrite Hk; discriminate|]. intros (_ & Hc & _). discriminate.
      - intros alloc' _ Hc. discriminate. }
  destruct (reserve_all alloc (reservation_requests RELATIVE_ADDRESS_MIN B))
    as [alloc'|] eqn:Hres.
  - rewrite (parseElf_granted B alloc alloc' Hok Hfit Hres) in H.
    destruct (dynamic_in_file B); [discriminate|]. injection H as <-.
    split; [left; reflexivity|]. split.
    + split; [discriminate|]. intros (_ & _ & Hc). discriminate.
    + intros a _ _ _. split; reflexivity.
  - destruct (parseElf_refused B alloc Hok Hfit Hres) as (e' & He' & Hk).
    rewrite He' in H. injection H as <-.
    split; [right; exact Hk|]. split.
    + split; auto.
    + intros a _ _ Hc. discriminate.
Qed.

End ParseElfMore.

Section ParseThenEmit.

Variable Allocator : Type.
Variable reserve : Allocator -> Z -> Z -> bool * Allocator.
Variable RELATIVE_ADDRESS_MIN : Z.
Variable opts : Options.

Local Abbreviation parseElf := (parseElf Allocator reserve RELATIVE_ADDRESS_MIN).
Local Abbreviation elf_views_below := (elf_views_below opts).

(** X7: what [parseElf] records is what steps (5) and (6) of [emitElf]
    need: for a file of less than 2^63 bytes whose dynamic section does
    not wrap around 2^64, the entry field of the header, the recorded
    [PT_DYNAMIC] header with its dynamic section, and whichever program
    header is chosen for the loader all lie within the file, hence
    before anything that is appended to it. *)
Theorem parseElf_views_below B alloc pic info alloc' B' limit :
  parseElf B alloc = OK (pic, info, alloc') ->
  B_elf B' = info ->
  B_size B < 2 ^ 63 -> B_size B <= limit ->
  (forall ph,
      phdr_dynamic info = Some ph ->
      0 <= load64 (B_patched_bytes B) (ph + off_p_offset)
      /\ 0 <= load64 (B_patched_bytes B) (ph + off_p_memsz)
      /\ load64 (B_patched_bytes B) (ph + off_p_offset)
         + load64 (B_patched_bytes B) (ph + off_p_memsz) < 2 ^ 64) ->
  elf_views_below B' (B_patched_bytes B) limit.
Proof.
  intros H HB Hsize Hlimit Hwrap.
  destruct (parseElf_success_inv _ _ _ _ _ _ _ _ H)
    as (Hok & _ & _ & _ & He & Hn & Hr & Hs & Hd & Hdyn).
  cbv zeta in Hn, Hr, Hs, Hd, Hdyn.
  assert (Hin : forall ty field ph,
             field = fold_left
                       (fun acc p =>
                          if load32 (B_patched_bytes B) (p + off_p_type) =? ty
                          then Some p else acc)
                       (map (phdr_at (load64 (B_patched_bytes B) off_e_phoff))
                            (seq 0 (Z.to_nat (load16 (B_patched_bytes B)
                                                off_e_phnum)))) None ->
             field = Some ph ->
             sizeof_Elf64_Ehdr <= ph /\ ph + sizeof_Elf64_Phdr <= B_size B).
  { intros ty field ph Hf Hph.
    eapply (last_of_type_in_file B ty field ph Hok Hsize); [|exact Hph].
    rewrite Hf. apply last_match_table. }
  assert (H64 : sizeof_Elf64_Ehdr <= B_size B).
  { unfold header_ok in Hok.
    repeat (apply andb_prop in Hok; destruct Hok as [Hok ?]). lia. }
  unfold elf_views_below. rewrite HB.
  unfold sizeof_Elf64_Ehdr, sizeof_Elf64_Phdr, off_e_entry in *.
  split; [rewrite He; lia|]. split.
  - intros ph Hph.
    destruct (Hin _ _ ph Hd Hph) as [_ Hph2].
    split; [lia|].
    destruct (Hwrap ph Hph) as (Ho & Hm & Hsum).
    specialize (Hdyn ph Hph). rewrite u64_small in Hdyn by lia.
    unfold sizeof_Elf64_Dyn.
    pose proof (Z.mul_div_le (load64 (B_patched_bytes B) (ph + off_p_memsz)) 16
                  ltac:(lia)).
    lia.
  - intros ph Hph. unfold choosePhdr in Hph. rewrite HB in Hph.
    assert (Hcase : phdr_note info = Some ph \/ phdr_gnu_relro info = Some ph
                    \/ phdr_gnu_stack info = Some ph).
    { destruct (option_loader_phdr opts =? PT_NOTE); [auto|].
      destruct (option_loader_phdr opts =? PT_GNU_RELRO); [auto|].
      destruct (option_loader_phdr opts =? PT_GNU_STACK); [auto|].
      destruct (phdr_note info); [auto|].
      destruct (phdr_gnu_relro info); auto. }
    destruct Hcase as [Hc|[Hc|Hc]].
    + destruct (Hin _ _ ph Hn Hc). lia.
    + destruct (Hin _ _ ph Hr Hc). lia.
    + destruct (Hin _ _ ph Hs Hc). lia.
Qed.

End ParseThenEmit.

Lemma parseElf_accepted_file_witness :
  parseElf unit ex_reserve 0 (ex_binary MODE_ELF_EXE ET_DYN) tt
  = OK (true, ex_elf, tt)
  /\ header_ok (ex_binary MODE_ELF_EXE ET_DYN) = true
  /\ ((load16 (B_patched_bytes (ex_binary MODE_ELF_EXE ET_DYN)) off_e_type
       = ET_DYN /\ true = true)
      \/ (load16 (B_patched_bytes (ex_binary MODE_ELF_EXE ET_DYN)) off_e_type
          = ET_EXEC /\ true = false
          /\ B_mode (ex_binary MODE_ELF_EXE ET_DYN) <> MODE_ELF_DSO))
  /\ ehdr ex_elf = 0.
Proof.
  assert (E : parseElf unit ex_reserve 0 (ex_binary MODE_ELF_EXE ET_DYN) tt
              = OK (true, ex_elf, tt)) by (vm_compute; reflexivity).
  split; [exact E|].
  exact (parseElf_accepted_file unit ex_reserve 0 _ tt true ex_elf tt E).
Defined.

Lemma parseElf_records_last_phdr_witness :
  parseElf unit ex_reserve 0 (ex_binary MODE_ELF_DSO ET_DYN) tt
  = OK (true, ex_elf, tt)
  /\ last_of_type (mem_of_bytes (ex_file ET_DYN)) 64 3 PT_NOTE (Some 120)
  /\ last_of_type (mem_of_bytes (ex_file ET_DYN)) 64 3 PT_GNU_RELRO None
  /\ last_of_type (mem_of_bytes (ex_file ET_DYN)) 64 3 PT_GNU_STACK None
  /\ last_of_type (mem_of_bytes (ex_file ET_DYN)) 64 3 PT_DYNAMIC (Some 176).
Proof.
  assert (E : parseElf unit ex_reserve 0 (ex_binary MODE_ELF_DSO ET_DYN) tt
              = OK (true, ex_elf, tt)) by (vm_compute; reflexivity).
  split; [exact E|].
  exact (parseElf_records_last_phdr unit ex_reserve 0 _ tt true ex_elf tt E).
Defined.

Lemma parseElf_pointers_in_file_witness :
  parseElf unit ex_reserve 0 (ex_binary MODE_ELF_DSO ET_DYN) tt
  = OK (true, ex_elf, tt)
  /\ (sizeof_Elf64_Ehdr <= 176 /\ 176 + sizeof_Elf64_Phdr <= 280)
  /\ u64 (load64 (mem_of_bytes (ex_file ET_DYN)) (176 + off_p_offset)
          + load64 (mem_of_bytes (ex_file ET_DYN)) (176 + off_p_memsz)) <= 280.
Proof.
  assert (E : parseElf unit ex_reserve 0 (ex_binary MODE_ELF_DSO ET_DYN) tt
              = OK (true, ex_elf, tt)) by (vm_compute; reflexivity).
  split; [exact E|].
  destruct (parseElf_pointers_in_file unit ex_reserve 0 _ tt true ex_elf tt E)
    as [Hp Hd]; [reflexivity|].
  split.
  - apply (Hp 176). right. right. right. reflexivity.
  - apply (Hd 176). reflexivity.
Defined.

Lemma parseElf_reservations_witness :
  reserve_all ex_reserve tt (reservation_requests 0 (ex_binary MODE_ELF_EXE ET_EXEC))
  = Some tt
  /\ exists e,
       parseElf unit ex_reserve_none 0 (ex_binary MODE_ELF_EXE ET_EXEC) tt = Err e
       /\ error_kind e = ReservationConflict.
Proof.
  split.
  - apply (proj1 (parseElf_reservations unit ex_reserve 0
                    (ex_binary MODE_ELF_EXE ET_EXEC) tt) false ex_elf tt).
    vm_compute. reflexivity.
  - apply (proj2 (parseElf_reservations unit ex_reserve_none 0
                    (ex_binary MODE_ELF_EXE ET_EXEC) tt));
      vm_compute; reflexivity.
Defined.

Lemma parseElf_returns_iff_witness :
  parseElf unit ex_reserve 0 (ex_binary MODE_ELF_EXE ET_EXEC) tt
  = OK (false, ex_elf, tt).
Proof.
  apply (proj2 (parseElf_returns_iff unit ex_reserve 0
                  (ex_binary MODE_ELF_EXE ET_EXEC) tt false ex_elf tt)).
  vm_compute. repeat split; reflexivity.
Defined.

Lemma parseElf_failure_witness :
  parseElf unit ex_reserve_none 0 (ex_binary MODE_ELF_EXE ET_EXEC) tt
  = Err ErrReserveLowRange
  /\ (error_kind ErrReserveLowRange = ReservationConflict
      <-> header_ok (ex_binary MODE_ELF_EXE ET_EXEC) = true
          /\ type_fits_mode (ex_binary MODE_ELF_EXE ET_EXEC) = true
          /\ reserve_all ex_reserve_none tt
               (reservation_requests 0 (ex_binary MODE_ELF_EXE ET_EXEC))
             = None).
Proof.
  assert (E : parseElf unit ex_reserve_none 0 (ex_binary MODE_ELF_EXE ET_EXEC)
                tt = Err ErrReserveLowRange) by (vm_compute; reflexivity).
  split; [exact E|].
  exact (proj1 (proj2 (parseElf_failure unit ex_reserve_none 0
                         (ex_binary MODE_ELF_EXE ET_EXEC) tt
                         ErrReserveLowRange E))).
Defined.

Lemma parseElf_views_below_witness :
  parseElf unit ex_reserve 0 (ex_binary MODE_ELF_DSO ET_DYN) tt
  = OK (true, ex_elf, tt)
  /\ elf_views_below ex_opts (ex_binary MODE_ELF_DSO ET_DYN)
       (mem_of_bytes (ex_file ET_DYN)) 4096.
Proof.
  assert (E : parseElf unit ex_reserve 0 (ex_binary MODE_ELF_DSO ET_DYN) tt
              = OK (true, ex_elf, tt)) by (vm_compute; reflexivity).
  split; [exact E|].
  apply (parseElf_views_below unit ex_reserve 0 ex_opts
           (ex_binary MODE_ELF_DSO ET_DYN) tt true ex_elf tt
           (ex_binary MODE_ELF_DSO ET_DYN) 4096 E).
  - reflexivity.
  - reflexivity.
  - vm_compute. discriminate.
  - intros ph Hph. injection Hph as <-.
    vm_compute. split; [discriminate|]. split; [discriminate|reflexivity].
Defined.

(** ** The emission core: records, tables and layout *)

Lemma store_le_outside (m : mem) (p n v q : Z) :
  q < p \/ p + n <= q -> store_le m p n v q = m q.
Proof. intros H. unfold store_le. apply mwrite_outside. exact H. Qed.

Lemma map_bits_size old size r w x abs :
  map_bits old size r w x abs mod 2 ^ 20 = size mod 2 ^ 20.
Proof.
  unfold map_bits.
  pose proof (Z.mod_pos_bound size (2 ^ 20) ltac:(lia)).
  set (s := size mod 2 ^ 20) in *.
  set (o := (old / 2 ^ 20) mod 2 ^ 8).
  replace (s + 2 ^ 20 * o + 2 ^ 28 * b2z r + 2 ^ 29 * b2z w + 2 ^ 30 * b2z x
           + 2 ^ 31 * b2z abs)
    with (s + (o + 2 ^ 8 * b2z r + 2 ^ 9 * b2z w + 2 ^ 10 * b2z x
              + 2 ^ 11 * b2z abs) * 2 ^ 20) by lia.
  rewrite Z.mod_add by lia. apply Z.mod_small. lia.
Qed.

Lemma map_bits_flags old size r w x abs :
  let v := map_bits old size r w x abs in
  (v / 2 ^ 20) mod 2 ^ 8 = (old / 2 ^ 20) mod 2 ^ 8
  /\ (v / 2 ^ 28) mod 2 = b2z r
  /\ (v / 2 ^ 29) mod 2 = b2z w
  /\ (v / 2 ^ 30) mod 2 = b2z x
  /\ (v / 2 ^ 31) mod 2 = b2z abs.
Proof.
  cbv zeta. unfold map_bits.
  pose proof (Z.mod_pos_bound size (2 ^ 20) ltac:(lia)).
  pose proof (Z.mod_pos_bound (old / 2 ^ 20) (2 ^ 8) ltac:(lia)).
  set (s := size mod 2 ^ 20) in *. set (o := (old / 2 ^ 20) mod 2 ^ 8) in *.
  clearbody s o.
  repeat split; destruct r, w, x, abs; cbn [b2z];
    Z.div_mod_to_equations; lia.
Qed.

Section EmitLoaderMapRecord.

Variable PAGE_SIZE : Z.
Variable IS_ABSOLUTE : Z -> bool.
Variable BASE_ADDRESS : Z -> Z.

Local Abbreviation emitLoaderMap := (emitLoaderMap PAGE_SIZE IS_ABSOLUTE BASE_ADDRESS).
Local Abbreviation track_ub := (track_ub IS_ABSOLUTE).
Local Abbreviation addr_pages := (addr_pages PAGE_SIZE BASE_ADDRESS).
Local Abbreviation len_pages := (len_pages PAGE_SIZE).
Local Abbreviation offset_pages := (offset_pages PAGE_SIZE).
Local Abbreviation map_written := (map_written PAGE_SIZE IS_ABSOLUTE BASE_ADDRESS).

(** A successful call, with the three checks it has passed. *)
Lemma emitLoaderMap_OK_inv data map addr len offset r w x ub data' ub' n :
  emitLoaderMap data map addr len offset r w x ub = OK (data', ub', n) ->
  INT32_MIN <= addr_pages addr <= INT32_MAX
  /\ len_pages len < 2 ^ 21
  /\ offset_pages offset <= UINT32_MAX
  /\ data' = map_written data map addr len offset r w x
  /\ ub' = track_ub ub addr
  /\ n = sizeof_e9_map_s.
Proof.
  rewrite emitLoaderMap_cases. intros H.
  destruct ((_ <? INT32_MIN) || (_ >? INT32_MAX)) eqn:Ea; [discriminate|].
  destruct (Z.geb_spec (len_pages len) (2 ^ 21)); [discriminate|].
  destruct (Z.gtb_spec (offset_pages offset) UINT32_MAX); [discriminate|].
  apply orb_false_iff in Ea. destruct Ea as [Ea1 Ea2].
  injection H as <- <- <-. repeat split; auto; lia.
Qed.

(** The record is written in its own twelve bytes. *)
Lemma map_written_outside data map addr len offset r w x p :
  p < map \/ map + sizeof_e9_map_s <= p ->
  map_written data map addr len offset r w x p = data p.
Proof.
  intros Hp. unfold map_written, store32, sizeof_e9_map_s, off_map_addr,
    off_map_offset, off_map_bits in *.
  rewrite !store_le_outside by lia. reflexivity.
Qed.

Lemma map_written_bits data map addr len offset r w x :
  load32 (map_written data map addr len offset r w x) (map + off_map_bits)
  = map_bits (load32 data (map + off_map_bits)) (u16 (len_pages len)) r w x
      (IS_ABSOLUTE addr).
Proof.
  unfold map_written. rewrite load32_store32_same.
  rewrite (Z.mod_small _ (2 ^ 32)) by apply map_bits_range.
  f_equal. unfold off_map_bits, off_map_offset, off_map_addr.
  rewrite !load32_store32_other by lia. reflexivity.
Qed.

(** X8: the record that a successful [emitLoaderMap] leaves at [map]
    reads back as the page-divided address, the page-divided offset
    (reduced to 32 bits), the page-divided length reduced to 16 bits, the
    three permissions and the absolute flag; its reserved bits and every
    byte outside the twelve bytes of the record are as before; the
    returned size is that of a record. *)
Theorem emitLoaderMap_record_reads_back
    data map addr len offset r w x ub data' ub' n :
  emitLoaderMap data map addr len offset r w x ub = OK (data', ub', n) ->
  n = sizeof_e9_map_s
  /\ map_addr data' map = addr_pages addr
  /\ map_offset data' map = u32 (offset_pages offset)
  /\ (0 <= offset_pages offset -> map_offset data' map = offset_pages offset)
  /\ map_size data' map = u16 (len_pages len)
  /\ (0 <= len_pages len < 2 ^ 16 -> map_size data' map = len_pages len)
  /\ map_r data' map = b2z r
  /\ map_w data' map = b2z w
  /\ map_x data' map = b2z x
  /\ map_abs data' map = b2z (IS_ABSOLUTE addr)
  /\ (load32 data' (map + off_map_bits) / 2 ^ 20) mod 2 ^ 8
     = (load32 data (map + off_map_bits) / 2 ^ 20) mod 2 ^ 8
  /\ (forall p, p < map \/ map + sizeof_e9_map_s <= p -> data' p = data p).
Proof.
  intros H. apply emitLoaderMap_OK_inv in H.
  destruct H as (Ha & Hl & Ho & -> & -> & ->).
  pose proof (map_written_bits data map addr len offset r w x) as Hb.
  pose proof (map_bits_flags (load32 data (map + off_map_bits))
                (u16 (len_pages len)) r w x (IS_ABSOLUTE addr)) as Hf.
  cbv zeta in Hf. destruct Hf as (F0 & F1 & F2 & F3 & F4).
  assert (Hoff : map_offset (map_written data map addr len offset r w x) map
                 = u32 (offset_pages offset)).
  { unfold map_offset, map_written, off_map_bits, off_map_offset, off_map_addr.
    rewrite load32_store32_other by lia. rewrite load32_store32_same.
    unfold u32. apply Z.mod_mod. lia. }
  assert (Hsz : map_size (map_written data map addr len offset r w x) map
                = u16 (len_pages len)) by apply map_size_written.
  split; [reflexivity|]. split.
  { unfold map_addr, map_written, off_map_bits, off_map_offset, off_map_addr.
    rewrite !load32_store32_other by lia. rewrite load32_store32_same.
    rewrite s32_u32. rewrite !s32_small; auto.
    rewrite s32_small; auto. }
  split; [exact Hoff|]. split.
  { intros Hp. rewrite Hoff. unfold u32, UINT32_MAX in *.
    apply Z.mod_small. lia. }
  split; [exact Hsz|]. split.
  { intros Hp. rewrite Hsz. unfold u16. apply Z.mod_small. lia. }
  unfold map_r, map_w, map_x, map_abs. rewrite Hb.
  repeat split; auto.
  intros p Hp. apply map_written_outside. exact Hp.
Qed.

End EmitLoaderMapRecord.

Lemma emitLoaderMap_record_reads_back_witness :
  exists data',
    emitLoaderMap 4096 ex_IS_ABSOLUTE ex_BASE_ADDRESS ex_zeros 24
      0x403000 8192 0x5000 true false true None
    = OK (data', None, 12)
    /\ map_addr data' 24 = 0x403
    /\ map_offset data' 24 = 5
    /\ map_size data' 24 = 2
    /\ map_r data' 24 = 1 /\ map_w data' 24 = 0 /\ map_x data' 24 = 1
    /\ map_abs data' 24 = 0
    /\ data' 23 = 0 /\ data' 36 = 0.
Proof.
  exists (map_written 4096 ex_IS_ABSOLUTE ex_BASE_ADDRESS ex_zeros 24
            0x403000 8192 0x5000 true false true).
  assert (E : emitLoaderMap 4096 ex_IS_ABSOLUTE ex_BASE_ADDRESS ex_zeros 24
                0x403000 8192 0x5000 true false true None
              = OK (map_written 4096 ex_IS_ABSOLUTE ex_BASE_ADDRESS ex_zeros 24
                      0x403000 8192 0x5000 true false true, None, 12))
    by reflexivity.
  split; [exact E|].
  destruct (emitLoaderMap_record_reads_back _ _ _ _ _ _ _ _ _ _ _ _ _ _ _ E)
    as (_ & H1 & _ & H2 & _ & H3 & H4 & H5 & H6 & H7 & _ & H8).
  assert (Ho : 0 <= offset_pages 4096 0x5000) by (vm_compute; discriminate).
  assert (Hl : 0 <= len_pages 4096 8192 < 2 ^ 16)
    by (vm_compute; split; [discriminate|reflexivity]).
  rewrite H1, (H2 Ho), (H3 Hl), H4, H5, H6, H7.
  rewrite !H8 by (unfold sizeof_e9_map_s; lia).
  vm_compute. repeat split; reflexivity.
Defined.

Lemma u32_add_l (a b : Z) : u32 (u32 a + b) = u32 (a + b).
Proof. unfold u32. apply Z.add_mod_idemp_l. lia. Qed.

Lemma store32_outside (m : mem) (p v q : Z) :
  q < p \/ p + 4 <= q -> store32 m p v q = m q.
Proof. apply store_le_outside. Qed.

Lemma store64_outside (m : mem) (p v q : Z) :
  q < p \/ p + 8 <= q -> store64 m p v q = m q.
Proof. apply store_le_outside. Qed.

Lemma incr32_outside (m : mem) (p q : Z) :
  q < p \/ p + 4 <= q -> incr32 m p q = m q.
Proof. apply store_le_outside. Qed.

Lemma load32_ext (m1 m2 : mem) (p : Z) :
  (forall j, 0 <= j < 4 -> m1 (p + j) = m2 (p + j)) ->
  load32 m1 p = load32 m2 p.
Proof. intros H. apply load_le_ext. exact H. Qed.

Lemma load64_ext (m1 m2 : mem) (p : Z) :
  (forall j, 0 <= j < 8 -> m1 (p + j) = m2 (p + j)) ->
  load64 m1 p = load64 m2 p.
Proof. intros H. apply load_le_ext. exact H. Qed.

Lemma load32_incr32 (m : mem) (p : Z) :
  load32 (incr32 m p) p = u32 (load32 m p + 1).
Proof.
  unfold incr32. rewrite load32_store32_same. unfold u32.
  apply Z.mod_mod. lia.
Qed.

Section EmitTables.

Variable PAGE_SIZE : Z.
Variable IS_ABSOLUTE : Z -> bool.
Variable BASE_ADDRESS : Z -> Z.
Variable getVirtualBounds : Mapping -> Z -> list Bounds.
Variable flattenMapping : Binary -> mem -> Z -> Mapping -> Z -> mem.

#[local] Set Default Proof Using "Type".

Local Abbreviation emitLoaderMap := (emitLoaderMap PAGE_SIZE IS_ABSOLUTE BASE_ADDRESS).
Local Abbreviation emitMappings := (emitMappings flattenMapping).
Local Abbreviation emitMapArray :=
  (emitMapArray PAGE_SIZE IS_ABSOLUTE BASE_ADDRESS getVirtualBounds).
Local Abbreviation emitRefactorMap :=
  (emitRefactorMap PAGE_SIZE IS_ABSOLUTE BASE_ADDRESS).
Local Abbreviation emitRequest :=
  (emitRequest PAGE_SIZE IS_ABSOLUTE BASE_ADDRESS).
Local Abbreviation array_requests := (array_requests PAGE_SIZE getVirtualBounds).
Local Abbreviation addr_pages := (addr_pages PAGE_SIZE BASE_ADDRESS).
Local Abbreviation len_pages := (len_pages PAGE_SIZE).
Local Abbreviation offset_pages := (offset_pages PAGE_SIZE).
Local Abbreviation map_written := (map_written PAGE_SIZE IS_ABSOLUTE BASE_ADDRESS).
Local Abbreviation record_of := (record_of PAGE_SIZE IS_ABSOLUTE BASE_ADDRESS).

(** A record depends on its twelve bytes only. *)
Lemma record_of_ext (m m' : mem) (p : Z) (q : MapRequest) :
  (forall j, 0 <= j < sizeof_e9_map_s -> m' (p + j) = m (p + j)) ->
  record_of m p q -> record_of m' p q.
Proof.
  unfold sizeof_e9_map_s. intros H.
  assert (E0 : load32 m' (p + off_map_addr) = load32 m (p + off_map_addr)).
  { apply load32_ext. intros j Hj. unfold off_map_addr.
    rewrite <- !Z.add_assoc. apply H. lia. }
  assert (E1 : load32 m' (p + off_map_offset) = load32 m (p + off_map_offset)).
  { apply load32_ext. intros j Hj. unfold off_map_offset.
    rewrite <- !Z.add_assoc. apply H. lia. }
  assert (E2 : load32 m' (p + off_map_bits) = load32 m (p + off_map_bits)).
  { apply load32_ext. intros j Hj. unfold off_map_bits.
    rewrite <- !Z.add_assoc. apply H. lia. }
  unfold record_of, map_addr, map_offset, map_size, map_r, map_w, map_x,
    map_abs. rewrite E0, E1, E2. auto.
Qed.

(** The record written by a call whose address has passed the check. *)
Lemma map_written_record data map q :
  INT32_MIN <= addr_pages (q_base q) <= INT32_MAX ->
  record_of (map_written data map (q_base q) (q_len q) (q_offset q)
               (q_r q) (q_w q) (q_x q)) map q.
Proof.
  intros Ha.
  pose proof (map_written_bits PAGE_SIZE IS_ABSOLUTE BASE_ADDRESS data map
                (q_base q) (q_len q) (q_offset q) (q_r q) (q_w q) (q_x q))
    as Hb.
  pose proof (map_bits_flags (load32 data (map + off_map_bits))
                (u16 (len_pages (q_len q))) (q_r q) (q_w q) (q_x q)
                (IS_ABSOLUTE (q_base q))) as Hf.
  cbv zeta in Hf. destruct Hf as (_ & F1 & F2 & F3 & F4).
  unfold record_of. split; [|split; [|split]].
  - unfold map_addr, map_written, off_map_bits, off_map_offset, off_map_addr.
    rewrite !load32_store32_other by lia. rewrite load32_store32_same.
    rewrite s32_u32. rewrite !s32_small; auto.
    rewrite s32_small; auto.
  - unfold map_offset, map_written, off_map_bits, off_map_offset, off_map_addr.
    rewrite load32_store32_other by lia. rewrite load32_store32_same.
    unfold u32. apply Z.mod_mod. lia.
  - apply map_size_written.
  - unfold map_r, map_w, map_x, map_abs. rewrite Hb. auto.
Qed.

(** One call of the arrays, once it has succeeded. *)
Lemma emitRequest_inv config i data size ub q data' size' ub' :
  emitRequest config i (data, size, ub) q = OK (data', size', ub') ->
  INT32_MIN <= addr_pages (q_base q) <= INT32_MAX
  /\ data' = incr32 (map_written data size (q_base q) (q_len q) (q_offset q)
                       (q_r q) (q_w q) (q_x q)) (config + off_num_maps i)
  /\ size' = u64 (size + sizeof_e9_map_s).
Proof.
  intros H. unfold emitRequest in H.
  apply bind_OK_inv in H. destruct H as ([[d u] n] & H1 & H).
  apply emitLoaderMap_OK_inv in H1.
  destruct H1 as (Ha & _ & _ & -> & _ & ->).
  injection H as <- <- _. auto.
Qed.

(** The array of records that a run of calls leaves from the cursor on,
    when the cursor does not wrap. *)
Lemma fold_emitRequest_table config i qs :
  forall data size ub data' size' ub',
    fold_result (emitRequest config i) qs (data, size, ub)
    = OK (data', size', ub') ->
    0 <= i <= 1 -> 0 <= size -> config + sizeof_e9_config_s <= size ->
    size + sizeof_e9_map_s * Z.of_nat (length qs) < 2 ^ 64 ->
    size' = size + sizeof_e9_map_s * Z.of_nat (length qs)
    /\ u32 (load32 data' (config + off_num_maps i))
       = u32 (load32 data (config + off_num_maps i) + Z.of_nat (length qs))
    /\ (forall k q, nth_error qs k = Some q ->
                    record_of data' (size + sizeof_e9_map_s * Z.of_nat k) q)
    /\ (forall p,
        p < size ->
        ~ (config + off_num_maps i <= p < config + off_num_maps i + 4) ->
        data' p = data p).
Proof.
  unfold sizeof_e9_config_s, sizeof_e9_map_s, off_num_maps.
  induction qs as [|q qs IH]; intros data size ub data' size' ub' H Hi Hs Hc Hw.
  - cbn [fold_result] in H. injection H as <- <- _.
    cbn [length]. change (Z.of_nat 0) with 0.
    rewrite Z.mul_0_r, !Z.add_0_r.
    split; [reflexivity|]. split; [reflexivity|]. split; [|reflexivity].
    intros k q Hk. destruct k; discriminate.
  - cbn [fold_result] in H. apply bind_OK_inv in H.
    destruct H as ([[data1 size1] ub1] & H1 & H).
    apply emitRequest_inv in H1. destruct H1 as (Ha & Hd1 & Hs1).
    cbn [length] in *. rewrite Nat2Z.inj_succ in *.
    unfold sizeof_e9_map_s in Hs1.
    rewrite u64_small in Hs1 by lia. subst size1.
    destruct (IH _ _ _ _ _ _ H Hi ltac:(lia) ltac:(lia) ltac:(lia))
      as (I1 & I2 & I3 & I4).
    assert (Hframe1 : forall p, ~ (size <= p < size + 12) ->
                ~ (config + (48 + 4 * i) <= p < config + (48 + 4 * i) + 4) ->
                data1 p = data p).
    { intros p Hp1 Hp2. rewrite Hd1. rewrite incr32_outside by (unfold off_num_maps; lia).
      apply map_written_outside. unfold sizeof_e9_map_s. lia. }
    split; [lia|]. split; [|split].
    + rewrite I2. rewrite Hd1. unfold off_num_maps. rewrite load32_incr32.
      rewrite u32_add_l.
      rewrite (load32_ext (map_written data size _ _ _ _ _ _) data).
      * f_equal. lia.
      * intros j Hj. apply map_written_outside. unfold sizeof_e9_map_s. lia.
    + intros k q0 Hk. destruct k as [|k].
      * injection Hk as <-. change (Z.of_nat 0) with 0.
        rewrite Z.mul_0_r, Z.add_0_r.
        apply (record_of_ext data1).
        { intros j Hj. unfold sizeof_e9_map_s in Hj. apply I4; lia. }
        rewrite Hd1.
        apply (record_of_ext (map_written data size (q_base q) (q_len q)
                                (q_offset q) (q_r q) (q_w q) (q_x q))).
        { intros j Hj. unfold sizeof_e9_map_s in Hj.
          apply incr32_outside. unfold off_num_maps. lia. }
        apply map_written_record. exact Ha.
      * cbn [nth_error] in Hk. specialize (I3 _ _ Hk).
        replace (size + 12 * Z.of_nat (S k))
          with (size + 12 + 12 * Z.of_nat k) by lia.
        exact I3.
    + intros p Hp1 Hp2. rewrite I4 by lia. apply Hframe1; lia.
Qed.

(** X9: one pass of the mapping arrays, when the cursor lies after the
    configuration record and does not wrap: [config->maps[i]] is the
    offset of the cursor from the record, the array holds one record per
    call of the pass, in order, each reading back as its call,
    [config->num_maps[i]] has grown by the number of calls, the cursor
    has advanced by twelve bytes per call, and nothing before the cursor
    has changed but these two fields. *)
Theorem emitMapArray_table config mappings data size ub i data' size' ub' :
  emitMapArray config mappings (data, size, ub) i = OK (data', size', ub') ->
  0 <= i <= 1 -> 0 <= size -> config + sizeof_e9_config_s <= size ->
  let qs := array_requests (i =? 0) mappings in
  size + sizeof_e9_map_s * Z.of_nat (length qs) < 2 ^ 64 ->
  size' = size + sizeof_e9_map_s * Z.of_nat (length qs)
  /\ load32 data' (config + off_maps i) = u32 (size - config)
  /\ u32 (load32 data' (config + off_num_maps i))
     = u32 (load32 data (config + off_num_maps i) + Z.of_nat (length qs))
  /\ (forall k q, nth_error qs k = Some q ->
                  record_of data' (size + sizeof_e9_map_s * Z.of_nat k) q)
  /\ (forall p,
      p < size ->
      ~ (config + off_num_maps i <= p < config + off_num_maps i + 4) ->
      ~ (config + off_maps i <= p < config + off_maps i + 4) ->
      data' p = data p).
Proof.
  intros H Hi Hs Hc qs Hw.
  rewrite emitMapArray_requests in H. fold qs in H.
  destruct (fold_emitRequest_table _ _ _ _ _ _ _ _ _ H Hi Hs Hc Hw)
    as (I1 & I2 & I3 & I4).
  unfold sizeof_e9_config_s, off_maps, off_num_maps in *.
  split; [exact I1|]. split; [|split; [|split]].
  - rewrite (load32_ext data' (store32 data (config + (56 + 4 * i))
                                 (u32 (size - config)))).
    + rewrite load32_store32_same. unfold u32. apply Z.mod_mod. lia.
    + intros j Hj. apply I4; lia.
  - rewrite I2. f_equal. f_equal.
    apply load32_ext. intros j Hj. apply store32_outside. lia.
  - exact I3.
  - intros p Hp1 Hp2 Hp3. rewrite I4 by lia. apply store32_outside. lia.
Qed.

(** A call for a refactor is the call of an array without the tracking
    of [ub]. *)
Lemma emitRefactorMap_request config data size r ub :
  emitRefactorMap config (data, size) r =
  match emitRequest config 1 (data, size, ub) (refactor_request r) with
  | OK (d, s, _) => OK (d, s)
  | Err e => Err e
  end.
Proof.
  unfold emitRefactorMap, emitRequest, refactor_request.
  cbn [q_base q_len q_offset q_r q_w q_x].
  rewrite !emitLoaderMap_cases.
  destruct ((_ <? INT32_MIN) || (_ >? INT32_MAX)); [reflexivity|].
  destruct (_ >=? 2 ^ 21); [reflexivity|].
  destruct (_ >? UINT32_MAX); reflexivity.
Qed.

Lemma fold_emitRefactorMap_requests config rs :
  forall data size ub data' size',
    fold_result (emitRefactorMap config) rs (data, size) = OK (data', size') ->
    exists ub',
      fold_result (emitRequest config 1) (map refactor_request rs)
        (data, size, ub) = OK (data', size', ub').
Proof.
  induction rs as [|r rs IH]; intros data size ub data' size' H.
  - cbn [fold_result map] in *. injection H as <- <-. eauto.
  - cbn [fold_result map] in *. apply bind_OK_inv in H.
    destruct H as ([d1 s1] & H1 & H).
    rewrite (emitRefactorMap_request config data size r ub) in H1.
    destruct (emitRequest config 1 (data, size, ub) (refactor_request r))
      as [[[d s] u]|e]; [|discriminate].
    injection H1 as -> ->. cbn [bind].
    apply (IH _ _ u) in H. exact H.
Qed.

(** X10: the records of the refactors, when the cursor lies after the
    configuration record and does not wrap: one record per refactor, in
    order, appended to the second array; the record of a refactor maps
    its patched offset at its address, page-divided, readable and
    executable and never writable; [config->num_maps[1]] has grown by the
    number of refactors and nothing else before the cursor has changed. *)
Theorem emitRefactorMap_table config rs data size data' size' :
  fold_result (emitRefactorMap config) rs (data, size) = OK (data', size') ->
  0 <= size -> config + sizeof_e9_config_s <= size ->
  size + sizeof_e9_map_s * Z.of_nat (length rs) < 2 ^ 64 ->
  size' = size + sizeof_e9_map_s * Z.of_nat (length rs)
  /\ u32 (load32 data' (config + off_num_maps 1))
     = u32 (load32 data (config + off_num_maps 1) + Z.of_nat (length rs))
  /\ (forall k r,
      nth_error rs k = Some r ->
      let p := size + sizeof_e9_map_s * Z.of_nat k in
      map_addr data' p = addr_pages (r_addr r)
      /\ map_offset data' p = u32 (offset_pages (r_patched_offset r))
      /\ map_size data' p = u16 (len_pages (r_size r))
      /\ map_r data' p = 1 /\ map_w data' p = 0 /\ map_x data' p = 1
      /\ map_abs data' p = b2z (IS_ABSOLUTE (r_addr r)))
  /\ (forall p,
      p < size ->
      ~ (config + off_num_maps 1 <= p < config + off_num_maps 1 + 4) ->
      data' p = data p).
Proof.
  intros H Hs Hc Hw.
  destruct (fold_emitRefactorMap_requests _ _ _ _ 0 _ _ H) as (ub' & H').
  assert (Hlen : length (map refactor_request rs) = length rs)
    by apply length_map.
  destruct (fold_emitRequest_table _ _ _ _ _ _ _ _ _ H' ltac:(lia) Hs Hc
              ltac:(rewrite Hlen; exact Hw)) as (I1 & I2 & I3 & I4).
  rewrite Hlen in *.
  split; [exact I1|]. split; [exact I2|]. split; [|exact I4].
  intros k r Hk p.
  assert (Hq : nth_error (map refactor_request rs) k = Some (refactor_request r)).
  { rewrite nth_error_map, Hk. reflexivity. }
  exact (I3 _ _ Hq).
Qed.

(** The loop over [B->inits] moves the cursor by eight bytes per
    function and writes from the cursor on and to [config->num_inits]. *)
Lemma emitInits_frame config inits :
  forall data size data' size',
    emitInits data config size inits = (data', size') ->
    0 <= size ->
    size + 8 * Z.of_nat (length inits) < 2 ^ 64 ->
    size' = size + 8 * Z.of_nat (length inits)
    /\ (forall p,
        p < size ->
        ~ (config + off_num_inits <= p < config + off_num_inits + 4) ->
        data' p = data p).
Proof.
  unfold off_num_inits.
  induction inits as [|init inits IH]; intros data size data' size' H Hs Hw.
  - cbn [emitInits] in H. injection H as <- <-.
    cbn [length]. split; [lia|reflexivity].
  - cbn [emitInits] in H. cbn [length] in *. rewrite Nat2Z.inj_succ in *.
    rewrite u64_small in H by lia. unfold off_num_inits in H.
    destruct (IH _ _ _ _ H ltac:(lia) ltac:(lia)) as (I1 & I4).
    split; [lia|].
    intros p Hp1 Hp2. rewrite I4 by lia. rewrite incr32_outside by lia.
    apply store64_outside. lia.
Qed.

(** X11: the table of initialisation functions, when the cursor lies
    after the configuration record and does not wrap: the entry of index
    [k] of the table that starts at the cursor is the initialisation
    function of index [k] of the binary, the cursor has advanced by
    eight bytes per function, [config->num_inits] has grown by their
    number and nothing else before the cursor has changed. *)
Theorem emitInits_table config inits data size data' size' :
  emitInits data config size inits = (data', size') ->
  0 <= size -> config + sizeof_e9_config_s <= size ->
  size + 8 * Z.of_nat (length inits) < 2 ^ 64 ->
  size' = size + 8 * Z.of_nat (length inits)
  /\ u32 (load32 data' (config + off_num_inits))
     = u32 (load32 data (config + off_num_inits) + Z.of_nat (length inits))
  /\ (forall k init, nth_error inits k = Some init ->
                     load64 data' (size + 8 * Z.of_nat k) = u64 init)
  /\ (forall p,
      p < size ->
      ~ (config + off_num_inits <= p < config + off_num_inits + 4) ->
      data' p = data p).
Proof.
  unfold sizeof_e9_config_s, off_num_inits.
  revert data size data' size'.
  induction inits as [|init inits IH]; intros data size data' size' H Hs Hc Hw.
  - cbn [emitInits] in H. injection H as <- <-.
    cbn [length]. change (Z.of_nat 0) with 0.
    rewrite Z.mul_0_r, !Z.add_0_r.
    split; [reflexivity|]. split; [reflexivity|]. split; [|reflexivity].
    intros k q Hk. destruct k; discriminate.
  - cbn [emitInits] in H. cbn [length] in *. rewrite Nat2Z.inj_succ in *.
    rewrite u64_small in H by lia.
    unfold off_num_inits in H.
    set (data1 := incr32 (store64 data size init) (config + 64)) in *.
    destruct (IH _ _ _ _ H ltac:(lia) ltac:(lia) ltac:(lia))
      as (I1 & I2 & I3 & I4).
    assert (Hframe1 : forall p, ~ (size <= p < size + 8) ->
                                ~ (config + 64 <= p < config + 64 + 4) ->
                                data1 p = data p).
    { intros p Hp1 Hp2. unfold data1. rewrite incr32_outside by lia.
      apply store64_outside. lia. }
    split; [lia|]. split; [|split].
    + rewrite I2. unfold data1. rewrite load32_incr32, u32_add_l.
      rewrite (load32_ext (store64 data size init) data).
      * f_equal. lia.
      * intros j Hj. apply store64_outside. lia.
    + intros k i0 Hk. destruct k as [|k].
      * injection Hk as <-. change (Z.of_nat 0) with 0.
        rewrite Z.mul_0_r, Z.add_0_r.
        rewrite (load64_ext data' (store64 data size init)).
        { unfold load64, store64. apply load8_store8_same. }
        intros j Hj. rewrite I4 by lia. unfold data1.
        apply incr32_outside. lia.
      * cbn [nth_error] in Hk. specialize (I3 _ _ Hk).
        replace (size + 8 * Z.of_nat (S k))
          with (size + 8 + 8 * Z.of_nat k) by lia.
        exact I3.
    + intros p Hp1 Hp2. rewrite I4 by lia. apply Hframe1; lia.
Qed.

(** X12: step (3), when the sizes of the blobs are not negative and the
    file stays below 2^63 bytes: the blobs are laid out one after the
    other from the cursor on, in the order of the set; the mapping of
    index [k] gets as its offset the cursor plus the sizes of the
    mappings before it, and keeps every other field; each blob is
    flattened at the offset of its mapping with the fill byte [0xcc]; the
    cursor ends after the last blob. *)
Theorem emitMappings_layout B mappings data size data' size' mappings' :
  emitMappings B data size mappings = (data', size', mappings') ->
  0 <= size ->
  Forall (fun m => 0 <= m_size m) mappings ->
  size + mappings_size mappings < 2 ^ 63 ->
  size' = size + mappings_size mappings
  /\ length mappings' = length mappings
  /\ (forall k m,
      nth_error mappings k = Some m ->
      nth_error mappings' k
      = Some (set_offset m (size + mappings_size (firstn k mappings))))
  /\ data' = fold_left (fun d m => flattenMapping B d (m_offset m) m 0xcc)
               mappings' data.
Proof.
  revert data size data' size' mappings'.
  induction mappings as [|m ms IH];
    intros data size data' size' mappings' H Hs Hm Hw.
  - cbn [emitMappings] in H. injection H as <- <- <-.
    cbn [mappings_size fold_right length fold_left].
    repeat split; auto; try lia.
    intros k m Hk. destruct k; discriminate.
  - cbn [emitMappings] in H.
    inversion Hm as [|? ? Hm1 Hm2]; subst.
    assert (Ht : 0 <= mappings_size ms).
    { clear - Hm2. induction Hm2 as [|a l Ha _ IHl];
        cbn [mappings_size fold_right]; [lia|].
      fold (mappings_size l). lia. }
    cbn [mappings_size fold_right] in Hw. fold (mappings_size ms) in Hw.
    cbn [set_offset m_size] in H.
    rewrite (s64_small size) in H by lia.
    rewrite (u64_small (size + m_size m)) in H by lia.
    destruct (emitMappings B _ (size + m_size m) ms) as [[d1 s1] ms1] eqn:E.
    injection H as <- <- <-.
    destruct (IH _ _ _ _ _ E ltac:(lia) Hm2 ltac:(lia)) as (I1 & I2 & I3 & I4).
    cbn [mappings_size fold_right length]. fold (mappings_size ms).
    split; [lia|]. split; [lia|]. split.
    + intros k m0 Hk. destruct k as [|k].
      * injection Hk as <-. cbn [nth_error firstn mappings_size fold_right].
        rewrite Z.add_0_r. reflexivity.
      * cbn [nth_error] in *. rewrite (I3 _ _ Hk).
        cbn [firstn mappings_size fold_right].
        fold (mappings_size (firstn k ms)).
        do 2 f_equal. lia.
    + cbn [fold_left m_offset set_offset]. exact I4.
Qed.

(** One call of the arrays succeeds exactly when its arguments pass the
    three checks, whatever the buffer holds. *)
Lemma emitRequest_total config i st q :
  if request_fits PAGE_SIZE BASE_ADDRESS q
  then exists st', emitRequest config i st q = OK st'
  else exists e, emitRequest config i st q = Err e
                 /\ error_kind e = OverflowError.
Proof.
  destruct st as [[data size] ub]. unfold emitRequest, request_fits.
  rewrite emitLoaderMap_cases.
  destruct (Z.leb_spec INT32_MIN (addr_pages (q_base q))) as [H1|H1];
    cbn [andb].
  2:{ replace (addr_pages (q_base q) <? INT32_MIN) with true by lia.
      cbn [orb bind]. eexists. split; [reflexivity|].
      destruct (_ <? 0); reflexivity. }
  replace (addr_pages (q_base q) <? INT32_MIN) with false by lia.
  destruct (Z.leb_spec (addr_pages (q_base q)) INT32_MAX) as [H2|H2];
    cbn [andb orb].
  2:{ replace (addr_pages (q_base q) >? INT32_MAX) with true by lia.
      cbn [bind]. eexists. split; [reflexivity|].
      destruct (_ <? 0); reflexivity. }
  replace (addr_pages (q_base q) >? INT32_MAX) with false by lia.
  destruct (Z.ltb_spec (len_pages (q_len q)) (2 ^ 21)) as [H3|H3];
    cbn [andb].
  2:{ replace (len_pages (q_len q) >=? 2 ^ 21) with true by lia.
      cbn [bind]. eexists. split; reflexivity. }
  replace (len_pages (q_len q) >=? 2 ^ 21) with false by lia.
  destruct (Z.leb_spec (offset_pages (q_offset q)) UINT32_MAX) as [H4|H4].
  - replace (offset_pages (q_offset q) >? UINT32_MAX) with false by lia.
    cbn [bind]. eauto.
  - replace (offset_pages (q_offset q) >? UINT32_MAX) with true by lia.
    cbn [bind]. eexists. split; reflexivity.
Qed.

Lemma fold_emitRequest_total config i qs :
  forall st,
    if forallb (request_fits PAGE_SIZE BASE_ADDRESS) qs
    then exists st', fold_result (emitRequest config i) qs st = OK st'
    else exists e, fold_result (emitRequest config i) qs st = Err e
                   /\ error_kind e = OverflowError.
Proof.
  induction qs as [|q qs IH]; intros st; cbn [forallb fold_result].
  - eauto.
  - pose proof (emitRequest_total config i st q) as Hq.
    destruct (request_fits PAGE_SIZE BASE_ADDRESS q); cbn [andb].
    + destruct Hq as (st1 & ->). cbn [bind]. apply IH.
    + destruct Hq as (e & -> & He). cbn [bind]. eauto.
Qed.

(** X13: one pass of the mapping arrays succeeds exactly when every call
    of the pass has a page-divided address that fits 32 signed bits, a
    length below 2^21 pages and a page-divided offset that fits 32
    unsigned bits, whatever the buffer, the cursor and [ub] are; when it
    fails, the error is an overflow. *)
Theorem emitMapArray_succeeds_iff config mappings st i :
  ((exists st', emitMapArray config mappings st i = OK st')
   <-> forallb (request_fits PAGE_SIZE BASE_ADDRESS)
         (array_requests (i =? 0) mappings) = true)
  /\ (forall e, emitMapArray config mappings st i = Err e ->
                error_kind e = OverflowError).
Proof.
  destruct st as [[data size] ub]. rewrite emitMapArray_requests.
  pose proof (fold_emitRequest_total config i
                (array_requests (i =? 0) mappings)
                (store32 data (config + off_maps i) (u32 (size - config)),
                 size, ub)) as H.
  destruct (forallb (request_fits PAGE_SIZE BASE_ADDRESS)
              (array_requests (i =? 0) mappings)).
  - destruct H as (st' & H). rewrite H. split.
    + split; eauto.
    + intros e He. discriminate.
  - destruct H as (e & H & Hk). rewrite H. split.
    + split; [intros (st' & Hs); discriminate | discriminate].
    + intros e' He'. injection He' as <-. exact Hk.
Qed.

End EmitTables.

Lemma emitMapArray_table_witness :
  exists data' ub',
    emitMapArray 4096 ex_IS_ABSOLUTE ex_BASE_ADDRESS ex_getVirtualBounds
      0 [ex_mapping] (ex_zeros, 72, INTPTR_MIN) 0 = OK (data', 96, ub')
    /\ load32 data' 56 = 72
    /\ u32 (load32 data' 48) = 2
    /\ map_addr data' 84 = 0x30
    /\ map_offset data' 84 = 0
    /\ map_size data' 84 = 1.
Proof.
  destruct (result_observe
              (emitMapArray 4096 ex_IS_ABSOLUTE ex_BASE_ADDRESS
                 ex_getVirtualBounds 0 [ex_mapping] (ex_zeros, 72, INTPTR_MIN) 0)
              (fun o => snd (fst o)) 96) as ([[d s] u] & E & Hobs).
  { vm_compute. reflexivity. }
  cbn [fst snd] in Hobs. subst s.
  exists d, u. split; [exact E|].
  destruct (emitMapArray_table 4096 ex_IS_ABSOLUTE ex_BASE_ADDRESS
              ex_getVirtualBounds 0 [ex_mapping] ex_zeros 72 INTPTR_MIN 0
              d 96 u E) as (_ & I1 & I2 & I3 & _).
  - lia.
  - lia.
  - vm_compute. discriminate.
  - vm_compute. reflexivity.
  - destruct (I3 1%nat (mkMapRequest 0x30000 4096 0 true true false) eq_refl)
      as (R1 & R2 & R3 & _).
    split; [exact I1|]. split; [exact I2|].
    split; [exact R1|]. split; [exact R2|exact R3].
Defined.

Lemma emitRefactorMap_table_witness :
  exists data',
    fold_result (emitRefactorMap 4096 ex_IS_ABSOLUTE ex_BASE_ADDRESS 0)
      [mkRefactor 0x400000 4096 0 8192] (ex_zeros, 72) = OK (data', 84)
    /\ map_addr data' 72 = 0x400
    /\ map_offset data' 72 = 2
    /\ map_size data' 72 = 1
    /\ map_r data' 72 = 1 /\ map_w data' 72 = 0 /\ map_x data' 72 = 1.
Proof.
  destruct (result_observe
              (fold_result (emitRefactorMap 4096 ex_IS_ABSOLUTE ex_BASE_ADDRESS 0)
                 [mkRefactor 0x400000 4096 0 8192] (ex_zeros, 72))
              snd 84) as ([d s] & E & Hobs).
  { vm_compute. reflexivity. }
  cbn [snd] in Hobs. subst s.
  exists d. split; [exact E|].
  destruct (emitRefactorMap_table 4096 ex_IS_ABSOLUTE ex_BASE_ADDRESS 0
              [mkRefactor 0x400000 4096 0 8192] ex_zeros 72 d 84 E)
    as (_ & _ & I3 & _).
  - lia.
  - vm_compute. discriminate.
  - vm_compute. reflexivity.
  - destruct (I3 0%nat (mkRefactor 0x400000 4096 0 8192) eq_refl)
      as (R1 & R2 & R3 & R4 & R5 & R6 & _).
    split; [exact R1|]. split; [exact R2|]. split; [exact R3|].
    split; [exact R4|]. split; [exact R5|exact R6].
Defined.

Lemma emitInits_table_witness :
  exists data',
    emitInits ex_zeros 0 72 [0x401000; 0x402000] = (data', 88)
    /\ load64 data' 80 = 0x402000
    /\ u32 (load32 data' 64) = 2.
Proof.
  destruct (emitInits ex_zeros 0 72 [0x401000; 0x402000]) as [d s] eqn:E.
  destruct (emitInits_table 0 [0x401000; 0x402000] ex_zeros 72 d s E)
    as (I1 & I2 & I3 & _).
  - lia.
  - vm_compute. discriminate.
  - vm_compute. reflexivity.
  - exists d. split; [rewrite I1; reflexivity|].
    split; [exact (I3 1%nat 0x402000 eq_refl)|].
    etransitivity; [exact I2|]. vm_compute. reflexivity.
Defined.

Lemma emitMappings_layout_witness :
  exists data' mappings',
    emitMappings ex_flattenMapping (ex_binary MODE_ELF_EXE ET_EXEC) ex_zeros
      4096 [ex_mapping; mkMapping 0x50000 4096 0 5 false None]
    = (data', 4096 + 8192 + 4096, mappings')
    /\ nth_error mappings' 1
       = Some (mkMapping 0x50000 4096 (4096 + 8192) 5 false None).
Proof.
  destruct (emitMappings ex_flattenMapping (ex_binary MODE_ELF_EXE ET_EXEC)
              ex_zeros 4096 [ex_mapping; mkMapping 0x50000 4096 0 5 false None])
    as [[d s] ms] eqn:E.
  destruct (emitMappings_layout ex_flattenMapping _ _ _ _ _ _ _ E)
    as (I1 & _ & I3 & _).
  - lia.
  - repeat constructor; vm_compute; discriminate.
  - vm_compute. reflexivity.
  - exists d, ms. split; [rewrite I1; reflexivity|].
    exact (I3 1%nat (mkMapping 0x50000 4096 0 5 false None) eq_refl).
Defined.

Lemma emitMapArray_succeeds_iff_witness :
  (exists st',
      emitMapArray 4096 ex_IS_ABSOLUTE ex_BASE_ADDRESS ex_getVirtualBounds
        0 [ex_mapping] (ex_zeros, 72, INTPTR_MIN) 0 = OK st')
  /\ forall e,
       emitMapArray 4096 ex_IS_ABSOLUTE ex_BASE_ADDRESS ex_getVirtualBounds
         0 [mkMapping (2 ^ 44) 4096 0 5 true None] (ex_zeros, 72, INTPTR_MIN) 0
       = Err e -> error_kind e = OverflowError.
Proof.
  split.
  - apply (proj1 (emitMapArray_succeeds_iff 4096 ex_IS_ABSOLUTE ex_BASE_ADDRESS
                    ex_getVirtualBounds 0 [ex_mapping]
                    (ex_zeros, 72, INTPTR_MIN) 0)).
    vm_compute. reflexivity.
  - apply (proj2 (emitMapArray_succeeds_iff 4096 ex_IS_ABSOLUTE ex_BASE_ADDRESS
                    ex_getVirtualBounds 0 [mkMapping (2 ^ 44) 4096 0 5 true None]
                    (ex_zeros, 72, INTPTR_MIN) 0)).
Defined.

(** ** emitElf: steps (4) to (6) *)

Lemma u64_s64 (x : Z) : u64 (s64 x) = u64 x.
Proof.
  unfold u64, s64. rewrite Zminus_mod_idemp_l. f_equal. lia.
Qed.

Section EmitElfMore.

Variable PAGE_SIZE : Z.
Variable IS_ABSOLUTE : Z -> bool.
Variable BASE_ADDRESS : Z -> Z.
Variable getVirtualBounds : Mapping -> Z -> list Bounds.
Variable flattenMapping : Binary -> mem -> Z -> Mapping -> Z -> mem.
Variable e9loader_elf_bin : list Z.
Variable sizeof_e9_config_elf_s : Z.
Variable opts : Options.

#[local] Set Default Proof Using "Type".

Local Abbreviation round_up := (round_up PAGE_SIZE).
Local Abbreviation emitRefactoredPatch := (emitRefactoredPatch PAGE_SIZE opts).
Local Abbreviation emitMappings := (emitMappings flattenMapping).
Local Abbreviation emitConfig := (emitConfig opts).
Local Abbreviation emitMapArray :=
  (emitMapArray PAGE_SIZE IS_ABSOLUTE BASE_ADDRESS getVirtualBounds).
Local Abbreviation emitRefactorMap :=
  (emitRefactorMap PAGE_SIZE IS_ABSOLUTE BASE_ADDRESS).
Local Abbreviation emitRequest :=
  (emitRequest PAGE_SIZE IS_ABSOLUTE BASE_ADDRESS).
Local Abbreviation array_requests := (array_requests PAGE_SIZE getVirtualBounds).
Local Abbreviation emitShim := (emitShim e9loader_elf_bin opts).
Local Abbreviation emitArrays :=
  (emitArrays PAGE_SIZE IS_ABSOLUTE BASE_ADDRESS getVirtualBounds flattenMapping
     sizeof_e9_config_elf_s opts).
Local Abbreviation emitLoader :=
  (emitLoader PAGE_SIZE IS_ABSOLUTE BASE_ADDRESS getVirtualBounds flattenMapping
     e9loader_elf_bin sizeof_e9_config_elf_s opts).
Local Abbreviation modifyPhdr := (modifyPhdr PAGE_SIZE opts).
Local Abbreviation emitElf :=
  (emitElf PAGE_SIZE IS_ABSOLUTE BASE_ADDRESS getVirtualBounds flattenMapping
     e9loader_elf_bin sizeof_e9_config_elf_s opts).
Local Abbreviation shim_bytes := (shim_bytes e9loader_elf_bin opts).
Local Abbreviation elf_views_below := (elf_views_below opts).
Local Abbreviation choosePhdr := (choosePhdr opts).

Local Tactic Notation "mem_simpl" :=
  unfold load32, load64, store32, store64, store8;
  repeat first [ rewrite load4_store4_same
               | rewrite load8_store8_same
               | rewrite load_store_disjoint by (simpl Z.of_nat; lia) ].

(** Step (5) in executable mode, on the buffer and with the entry
    address that it is given, when the entry field of the ELF header
    lies before the configuration record and [config_elf] after it: the
    entry field of the header becomes [entry], [config->entry] receives
    the old entry address, the flag [E9_FLAG_EXE] is set in
    [config->flags] and the other flags are kept, [config_elf->dynamic]
    is the address of the [PT_DYNAMIC] segment when the file has one,
    and nothing else changes. *)
Lemma modifyEntry_exe B data config config_elf entry :
  B_mode B = MODE_ELF_EXE ->
  let eh := ehdr (B_elf B) in
  eh + off_e_entry + 8 <= config ->
  config + sizeof_e9_config_s <= config_elf ->
  exists data',
    modifyEntry B data config config_elf entry = OK data'
    /\ load64 data' (eh + off_e_entry) = u64 entry
    /\ s64 (load64 data' (config + off_entry))
       = s64 (load64 data (eh + off_e_entry))
    /\ load32 data' (config + off_flags)
       = u32 (Z.lor (load32 data (config + off_flags)) E9_FLAG_EXE)
    /\ Z.testbit (load32 data' (config + off_flags)) 0 = true
    /\ (forall ph, phdr_dynamic (B_elf B) = Some ph ->
                   load64 data' config_elf = u64 (load64 data (ph + off_p_vaddr)))
    /\ (forall p,
        ~ (eh + off_e_entry <= p < eh + off_e_entry + 8) ->
        ~ (config + off_entry <= p < config + off_entry + 8) ->
        ~ (config + off_flags <= p < config + off_flags + 4) ->
        ~ (config_elf <= p < config_elf + 8
           /\ phdr_dynamic (B_elf B) <> None) ->
        data' p = data p).
Proof.
  intros Hmode eh Hsep1 Hsep2. unfold modifyEntry. rewrite Hmode. fold eh.
  unfold sizeof_e9_config_s, off_e_entry, off_entry, off_flags in *.
  set (data1 := match phdr_dynamic (B_elf B) with
                | Some ph => store64 data config_elf
                               (s64 (load64 data (ph + off_p_vaddr)))
                | None => data
                end).
  assert (D1 : forall p, ~ (config_elf <= p < config_elf + 8
                            /\ phdr_dynamic (B_elf B) <> None) ->
                         data1 p = data p).
  { intros p Hp. unfold data1. destruct (phdr_dynamic (B_elf B)); auto.
    apply store64_outside.
    destruct (Z.lt_ge_cases p config_elf); [lia|].
    destruct (Z.lt_ge_cases p (config_elf + 8)); [|lia].
    exfalso. apply Hp. split; [lia|discriminate]. }
  assert (E1 : load64 data1 (eh + 24) = load64 data (eh + 24)).
  { apply load64_ext. intros j Hj. apply D1. lia. }
  assert (E2 : load32 data1 (config + 8) = load32 data (config + 8)).
  { apply load32_ext. intros j Hj. apply D1. lia. }
  eexists. split; [reflexivity|]. split; [|split; [|split; [|split; [|split]]]].
  - mem_simpl. unfold u64. apply Z.mod_mod. lia.
  - mem_simpl. fold (load64 data1 (eh + 24)). rewrite E1.
    rewrite s64_u64. apply s64_idem.
  - mem_simpl. fold (load32 data1 (config + 8)). rewrite E2. reflexivity.
  - mem_simpl. fold (load32 data1 (config + 8)).
    rewrite Z.mod_pow2_bits_low by lia.
    rewrite Z.lor_spec. apply orb_true_iff. right. reflexivity.
  - intros ph Hph.
    rewrite (load64_ext _ data1).
    + unfold data1. rewrite Hph. mem_simpl. exact (u64_s64 _).
    + intros j Hj. rewrite store32_outside by lia.
      rewrite !store64_outside by lia. reflexivity.
  - intros p Hp1 Hp2 Hp3 Hp4.
    rewrite store32_outside by lia. rewrite !store64_outside by lia.
    apply D1. exact Hp4.
Qed.

(** X15: when [emitElf] returns, the mode is executable or DSO (the
    other modes have no entry shim), in DSO mode the file has a
    [PT_DYNAMIC] header, a program header was available for the loader,
    [B->config] is the loader base and no mapping reaches above it. *)
Theorem emitElf_success_requires B mappings mapping_size out :
  emitElf B mappings mapping_size = OK out ->
  (B_mode B = MODE_ELF_EXE
   \/ (B_mode B = MODE_ELF_DSO
       /\ exists ph, phdr_dynamic (B_elf B) = Some ph))
  /\ (exists ph, choosePhdr B = Some ph)
  /\ out_B_config out = option_loader_base opts
  /\ out_ub out <= option_loader_base opts.
Proof.
  intros H. apply emitElf_inv in H.
  destruct H as (out0 & data5 & H0 & H5 & H6 & Hout).
  apply emitLoader_inv in H0.
  destruct H0 as (lay & d5 & s5 & d6 & _ & _ & _ & _ & _ & Hub & _ & _ & Hshim
                  & _ & _ & Hcfg).
  rewrite Hout. cbn [out_B_config out_ub set_data].
  split; [|split; [|split]]; auto.
  - unfold modifyEntry in H5.
    destruct (B_mode B); [left; reflexivity| |discriminate].
    right. split; [reflexivity|].
    destruct (phdr_dynamic (B_elf B)) as [ph|]; [eauto|discriminate].
  - unfold modifyPhdr in H6.
    destruct (choosePhdr B) as [ph|]; [eauto|discriminate].
Qed.

(** Step (5) writes [config->flags], [config->entry], the first field of
    the record after it, and structures of the input file. *)
Lemma modifyEntry_frame_fields B data config config_elf entry data' limit :
  modifyEntry B data config config_elf entry = OK data' ->
  elf_views_below B data limit ->
  limit <= config_elf ->
  forall p,
    limit <= p ->
    ~ (config + off_flags <= p < config + off_flags + 4) ->
    ~ (config + off_entry <= p < config + off_entry + 8) ->
    ~ (config_elf <= p < config_elf + 8) ->
    data' p = data p.
Proof.
  intros H (Hehdr & Hdyn & _) Hl p Hp Hf Hc He.
  unfold modifyEntry in H.
  unfold off_entry, off_flags, off_e_entry in *.
  assert (Hd1 : forall v q, ~ (config_elf <= q < config_elf + 8) ->
                            store64 data config_elf v q = data q).
  { intros v q Hq. apply store64_outside. lia. }
  destruct (B_mode B).
  - injection H as <-.
    rewrite store32_outside by lia. rewrite !store64_outside by lia.
    destruct (phdr_dynamic (B_elf B)); [apply Hd1; lia | reflexivity].
  - destruct (phdr_dynamic (B_elf B)) as [ph|] eqn:Hph; [|discriminate].
    destruct (Hdyn ph eq_refl) as [Hph1 Hph2].
    unfold sizeof_Elf64_Phdr, off_p_offset, off_p_memsz, off_p_vaddr,
      sizeof_Elf64_Dyn in *.
    set (data1 := store64 data config_elf _) in *.
    assert (E1 : load64 data1 (ph + 8) = load64 data (ph + 8)).
    { apply load64_ext. intros i Hi. apply Hd1. lia. }
    assert (E2 : load64 data1 (ph + 40) = load64 data (ph + 40)).
    { apply load64_ext. intros i Hi. apply Hd1. lia. }
    rewrite E1, E2 in H.
    destruct (scanDynamic data1 _ _ _ _ _) as [d2 found] eqn:Hscan.
    destruct found; [|discriminate]. injection H as <-.
    destruct (Z.to_nat (load64 data (ph + 40) / 16)) as [|n] eqn:Hn.
    { cbn [scanDynamic] in Hscan. discriminate. }
    rewrite (scanDynamic_frame _ _ _ _ _ _ _ _ Hscan).
    + apply Hd1. lia.
    + unfold off_entry. lia.
    + unfold sizeof_Elf64_Dyn. rewrite <- Hn. rewrite Z2Nat.id; lia.
  - discriminate.
Qed.

(** The length of the shim and the loader. *)
Lemma shim_bytes_length code start config :
  Z.of_nat (length (shim_bytes code start config))
  = (if option_trap_entry opts then 1 else 0) + Z.of_nat (length code) + 3 + 4
    + Z.of_nat (length e9loader_elf_bin).
Proof.
  unfold shim_bytes. rewrite !length_app, !Nat2Z.inj_add.
  change (Z.of_nat (length (le_bytes 4 ?v))) with 4.
  destruct (option_trap_entry opts); cbn [length]; lia.
Qed.

(** The shim is written from the cursor on. *)
Lemma emitShim_frame mode data size config code data' size' :
  emitShim mode data size config = OK (data', size') ->
  prologue mode = OK code ->
  0 <= size ->
  size + Z.of_nat (length (shim_bytes code size config)) < 2 ^ 64 ->
  forall p, p < size -> data' p = data p.
Proof.
  intros H Hcode Hs Hno p Hp. rewrite shim_bytes_length in Hno.
  unfold emitShim in H. rewrite Hcode in H.
  destruct (option_trap_entry opts); cbn [bind] in H; injection H as <- _;
    repeat match goal with
           | |- context [u64 ?x] => rewrite (u64_small x) by lia
           end;
    unfold write_bytes, store32, store8, store_le;
    rewrite !mwrite_outside by lia; reflexivity.
Qed.

(** The cursor of a run of calls, modulo 2^64. *)
Lemma fold_emitRequest_cursor config i qs :
  forall data size ub data' size' ub',
    fold_result (emitRequest config i) qs (data, size, ub)
    = OK (data', size', ub') ->
    0 <= size < 2 ^ 64 ->
    size' = u64 (size + sizeof_e9_map_s * Z.of_nat (length qs)).
Proof.
  induction qs as [|q qs IH]; intros data size ub data' size' ub' H Hs.
  - cbn [fold_result] in H. injection H as _ <- _.
    cbn [length]. rewrite Z.mul_0_r, Z.add_0_r. symmetry.
    apply u64_small. exact Hs.
  - cbn [fold_result] in H. apply bind_OK_inv in H.
    destruct H as ([[d1 s1] u1] & H1 & H).
    apply (emitRequest_inv PAGE_SIZE IS_ABSOLUTE BASE_ADDRESS) in H1.
    destruct H1 as (_ & _ & ->).
    rewrite (IH _ _ _ _ _ _ H (u64_range _)).
    rewrite u64_add_l. f_equal. cbn [length]. lia.
Qed.

Lemma emitInits_cursor config inits :
  forall data size data' size',
    emitInits data config size inits = (data', size') ->
    0 <= size < 2 ^ 64 ->
    size' = u64 (size + 8 * Z.of_nat (length inits)).
Proof.
  induction inits as [|init inits IH]; intros data size data' size' H Hs.
  - cbn [emitInits] in H. injection H as _ <-.
    cbn [length]. rewrite Z.mul_0_r, Z.add_0_r. symmetry.
    apply u64_small. exact Hs.
  - cbn [emitInits] in H. rewrite (IH _ _ _ _ H (u64_range _)).
    rewrite u64_add_l. f_equal. cbn [length]. lia.
Qed.

(** The two passes of the mapping arrays, one after the other. *)
Lemma emitMapArrays_inv config mappings data size ub data' size' ub' :
  fold_result (emitMapArray config mappings) [0; 1] (data, size, ub)
  = OK (data', size', ub') ->
  exists data1 size1 ub1,
    fold_result (emitRequest config 0) (array_requests true mappings)
      (store32 data (config + off_maps 0) (u32 (size - config)), size, ub)
    = OK (data1, size1, ub1)
    /\ fold_result (emitRequest config 1) (array_requests false mappings)
         (store32 data1 (config + off_maps 1) (u32 (size1 - config)), size1, ub1)
       = OK (data', size', ub').
Proof.
  intros H. cbn [fold_result] in H.
  apply bind_OK_inv in H. destruct H as ([[d1 s1] u1] & H1 & H).
  apply bind_OK_inv in H. destruct H as ([[d2 s2] u2] & H2 & H).
  injection H as <- <- <-.
  rewrite emitMapArray_requests in H1, H2.
  exists d1, s1, u1. split; [exact H1|exact H2].
Qed.

(** X16: the size of the configuration region that [emitElf] appends,
    modulo 2^64: the configuration record (72 bytes) and the ELF record,
    eight bytes per initialisation function, twelve bytes per call of
    the two mapping arrays and per refactor, and the shim with the
    loader (the optional trap byte, the prologue, seven bytes of [lea]
    and the loader binary).  The returned size is the configuration
    offset plus this size. *)
Theorem emitElf_config_size B mappings mapping_size out code :
  emitElf B mappings mapping_size = OK out ->
  prologue (B_mode B) = OK code ->
  let total :=
    sizeof_e9_config_s + sizeof_e9_config_elf_s
    + 8 * Z.of_nat (length (B_inits B))
    + sizeof_e9_map_s
      * (Z.of_nat (length (array_requests true (out_mappings out)))
         + Z.of_nat (length (array_requests false (out_mappings out)))
         + Z.of_nat (length (out_refactors out)))
    + ((if option_trap_entry opts then 1 else 0) + Z.of_nat (length code)
       + 3 + 4 + Z.of_nat (length e9loader_elf_bin)) in
  out_size out = u64 (out_config_offset out + total)
  /\ out_config_size out = u64 total.
Proof.
  intros H Hcode total.
  apply emitElf_inv in H. destruct H as (out0 & data5 & H0 & _ & _ & Hout).
  apply emitLoader_inv in H0.
  destruct H0 as (lay & d5 & size5 & data6 & Hl & Hrs & Hms & Hc & _ & _ & Hr
                  & _ & Hs & Hcs & _ & _).
  cbn zeta in *.
  pose proof (emitArrays_config_offset_range _ _ _ _ _ _ _ _ _ _ _ Hl) as Hcr.
  apply emitArrays_inv in Hl.
  destruct Hl as (data1 & n & data2 & size2 & data3 & size3 & _ & _ & Hc2 & H3
                  & H4).
  cbn zeta in *.
  assert (Hfields : out_size out = out_size out0
                    /\ out_config_offset out = out_config_offset out0
                    /\ out_config_size out = out_config_size out0
                    /\ out_mappings out = out_mappings out0
                    /\ out_refactors out = out_refactors out0).
  { rewrite Hout. repeat split. }
  destruct Hfields as (F1 & F2 & F3 & F4 & F5).
  unfold total. rewrite F1, F2, F3, F4, F5, Hms, Hrs, Hc.
  rewrite <- Hc2 in H3.
  set (config := lay_config_offset lay) in *.
  apply emitInits_cursor in H3; [|apply u64_range].
  apply emitMapArrays_inv in H4.
  destruct H4 as (d4 & size4 & ub4 & P0 & P1).
  apply fold_emitRequest_cursor in P0; [|rewrite H3; apply u64_range].
  apply fold_emitRequest_cursor in P1; [|rewrite P0; apply u64_range].
  destruct (fold_emitRefactorMap_requests PAGE_SIZE IS_ABSOLUTE BASE_ADDRESS
              _ _ _ _ 0 _ _ Hr) as (ub5 & Hr').
  apply fold_emitRequest_cursor in Hr'; [|rewrite P1; apply u64_range].
  rewrite length_map in Hr'.
  pose proof (emitShim_size _ _ _ _ _ _ _ _ _ Hs Hcode) as Hshim.
  rewrite shim_bytes_length in Hshim.
  assert (Hsize : out_size out0
                  = u64 (config
                         + (sizeof_e9_config_s + sizeof_e9_config_elf_s
                            + 8 * Z.of_nat (length (B_inits B))
                            + sizeof_e9_map_s
                              * (Z.of_nat (length (array_requests true
                                                     (lay_mappings lay)))
                                 + Z.of_nat (length (array_requests false
                                                       (lay_mappings lay)))
                                 + Z.of_nat (length (lay_refactors lay)))
                            + ((if option_trap_entry opts then 1 else 0)
                               + Z.of_nat (length code) + 3 + 4
                               + Z.of_nat (length e9loader_elf_bin))))).
  { rewrite Hshim, Hr', P1, P0, H3.
    unfold sizeof_e9_map_s, sizeof_e9_config_s.
    repeat (rewrite u64_add_l; rewrite <- ?Z.add_assoc).
    apply (f_equal u64). lia. }
  split; [exact Hsize|].
  rewrite Hcs, Hsize. unfold u64. rewrite Zminus_mod_idemp_l. f_equal. lia.
Qed.

(** The scan writes [config->entry] and the pointer of an entry of the
    section. *)
Lemma scanDynamic_writes data config entry dynamic :
  forall (n : nat) (i : Z) data' found,
    scanDynamic data config entry dynamic i n = (data', found) ->
    forall p,
      ~ (config + off_entry <= p < config + off_entry + 8) ->
      p < dynamic + sizeof_Elf64_Dyn * i
      \/ dynamic + sizeof_Elf64_Dyn * (i + Z.of_nat n) <= p ->
      data' p = data p.
Proof.
  induction n as [|n IH]; intros i data' found H p Hp1 Hp2;
    cbn [scanDynamic] in H.
  - now injection H as <- _.
  - destruct (_ =? DT_NULL); [now injection H as <- _|].
    destruct (_ =? DT_INIT).
    + pose proof (f_equal fst H) as Hd. cbn [fst] in Hd. rewrite <- Hd.
      unfold sizeof_Elf64_Dyn, off_d_ptr, off_entry in *.
      rewrite !store64_outside by lia. reflexivity.
    + eapply IH; [exact H|assumption|].
      unfold sizeof_Elf64_Dyn in *. lia.
Qed.

(** Below the configuration record, step (5) writes the entry field of
    the header (executable mode) or within the dynamic section (DSO
    mode). *)
Lemma modifyEntry_frame_low B data config config_elf entry data' :
  modifyEntry B data config config_elf entry = OK data' ->
  elf_views_below B data config ->
  config <= config_elf ->
  forall p,
    p < config ->
    ~ elf_written opts B data p ->
    data' p = data p.
Proof.
  intros H (Hehdr & Hdyn & _) Hl p Hp Hw.
  unfold modifyEntry in H.
  unfold off_entry, off_flags, off_e_entry in *.
  assert (Hd1 : forall v q, q < config_elf ->
                            store64 data config_elf v q = data q).
  { intros v q Hq. apply store64_outside. lia. }
  destruct (B_mode B) eqn:Hmode.
  - injection H as <-.
    assert (Hne : ~ (ehdr (B_elf B) + 24 <= p < ehdr (B_elf B) + 24 + 8)).
    { intros Hin. apply Hw. left. unfold off_e_entry. auto. }
    rewrite store32_outside by lia. rewrite !store64_outside by lia.
    destruct (phdr_dynamic (B_elf B)); [apply Hd1; lia | reflexivity].
  - destruct (phdr_dynamic (B_elf B)) as [ph|] eqn:Hph; [|discriminate].
    destruct (Hdyn ph eq_refl) as [Hph1 Hph2].
    assert (Hne : ~ (load64 data (ph + off_p_offset) <= p
                     < load64 data (ph + off_p_offset)
                       + sizeof_Elf64_Dyn
                         * (load64 data (ph + off_p_memsz) / sizeof_Elf64_Dyn))).
    { intros Hin. apply Hw. right. left. split; [exact Hmode|].
      exists ph. auto. }
    unfold sizeof_Elf64_Phdr, off_p_offset, off_p_memsz, off_p_vaddr,
      sizeof_Elf64_Dyn in *.
    set (data1 := store64 data config_elf _) in *.
    assert (E1 : load64 data1 (ph + 8) = load64 data (ph + 8)).
    { apply load64_ext. intros i Hi. apply Hd1. lia. }
    assert (E2 : load64 data1 (ph + 40) = load64 data (ph + 40)).
    { apply load64_ext. intros i Hi. apply Hd1. lia. }
    rewrite E1, E2 in H.
    destruct (scanDynamic data1 _ _ _ _ _) as [d2 found] eqn:Hscan.
    destruct found; [|discriminate]. injection H as <-.
    destruct (Z.to_nat (load64 data (ph + 40) / 16)) as [|n] eqn:Hn.
    { cbn [scanDynamic] in Hscan. discriminate. }
    rewrite (scanDynamic_writes _ _ _ _ _ _ _ _ Hscan).
    + apply Hd1. lia.
    + unfold off_entry. lia.
    + unfold sizeof_Elf64_Dyn. rewrite <- Hn. rewrite Z2Nat.id by lia. lia.
  - discriminate.
Qed.

(** Step (3) writes from the cursor on, when [flattenMapping] writes
    from the base of the blob on. *)
Lemma emitMappings_frame B :
  (forall B' d base m fill p,
      p < base -> flattenMapping B' d base m fill p = d p) ->
  forall mappings data size data' size' mappings',
    emitMappings B data size mappings = (data', size', mappings') ->
    0 <= size ->
    Forall (fun m => 0 <= m_size m) mappings ->
    size + mappings_size mappings < 2 ^ 64 ->
    size' = size + mappings_size mappings
    /\ forall p, p < size -> data' p = data p.
Proof.
  intros Hflat.
  induction mappings as [|m ms IH];
    intros data size data' size' mappings' H Hs Hm Hw.
  - cbn [emitMappings] in H. injection H as <- <- _.
    cbn [mappings_size fold_right]. split; [lia|reflexivity].
  - cbn [emitMappings] in H.
    inversion Hm as [|? ? Hm1 Hm2]; subst.
    assert (Ht : 0 <= mappings_size ms).
    { clear - Hm2. induction Hm2 as [|a l Ha _ IHl];
        cbn [mappings_size fold_right]; [lia|].
      fold (mappings_size l). lia. }
    cbn [mappings_size fold_right] in *. fold (mappings_size ms) in *.
    cbn [set_offset m_size] in H.
    rewrite (u64_small (size + m_size m)) in H by lia.
    destruct (emitMappings B _ (size + m_size m) ms) as [[d1 s1] ms1] eqn:E.
    injection H as <- <- _.
    destruct (IH _ _ _ _ _ E ltac:(lia) Hm2 ltac:(lia)) as (I1 & I2).
    split; [lia|].
    intros p Hp. rewrite I2 by lia. apply Hflat. exact Hp.
Qed.

Lemma round_up_ge size :
  0 < PAGE_SIZE -> 0 <= size -> size + PAGE_SIZE <= 2 ^ 64 ->
  size <= round_up size.
Proof.
  intros HP Hs Hno. unfold round_up.
  pose proof (Z.mod_pos_bound size PAGE_SIZE HP) as Hm.
  destruct (Z.eqb_spec (size mod PAGE_SIZE) 0); [lia|].
  rewrite u64_small by lia. lia.
Qed.

(** The buffers and cursors behind a successful emission, when the
    structures of the input file lie before the configuration region
    and the region does not wrap: the cursors are exact, and steps (5)
    and (6), the shim and [config->size] leave the tables as they are. *)
Lemma emitElf_stages B mappings mapping_size out0 out code :
  emitLoader B mappings mapping_size = OK out0 ->
  emitElf B mappings mapping_size = OK out ->
  prologue (B_mode B) = OK code ->
  elf_views_below B (out_data out0) (out_config_offset out) ->
  8 <= sizeof_e9_config_elf_s ->
  let config := out_config_offset out in
  let c0 := config + sizeof_e9_config_s + sizeof_e9_config_elf_s in
  let c1 := c0 + 8 * Z.of_nat (length (B_inits B)) in
  let c2 := c1 + sizeof_e9_map_s
                 * Z.of_nat (length (array_requests true (out_mappings out))) in
  let c3 := c2 + sizeof_e9_map_s
                 * Z.of_nat (length (array_requests false (out_mappings out))) in
  let c4 := c3 + sizeof_e9_map_s * Z.of_nat (length (out_refactors out)) in
  let c5 := c4 + ((if option_trap_entry opts then 1 else 0)
                  + Z.of_nat (length code) + 3 + 4
                  + Z.of_nat (length e9loader_elf_bin)) in
  c5 < 2 ^ 64 ->
  exists data1 n size2 data2 data3 data4 ub0 data5 ub1 data6 ub2,
    0 <= config
    /\ emitRefactoredPatch (B_original_bytes B) (B_patched_bytes B)
         (round_up (B_patched_size B)) mapping_size (B_Is B) []
       = OK (data1, out_refactors out, n)
    /\ emitMappings (set_config B (option_loader_base opts)) data1
         (u64 (round_up (B_patched_size B) + n)) mappings
       = (data2, size2, out_mappings out)
    /\ config = round_up size2
    /\ emitInits (emitConfig (set_config B (option_loader_base opts)) data2
                    config c0) config c0 (B_inits B) = (data3, c1)
    /\ fold_result (emitRequest config 0)
         (array_requests true (out_mappings out))
         (store32 data3 (config + off_maps 0) (u32 (c1 - config)), c1,
          INTPTR_MIN) = OK (data4, c2, ub0)
    /\ fold_result (emitRequest config 1)
         (array_requests false (out_mappings out))
         (store32 data4 (config + off_maps 1) (u32 (c2 - config)), c2, ub0)
       = OK (data5, c3, ub1)
    /\ fold_result (emitRequest config 1)
         (map refactor_request (out_refactors out)) (data5, c3, 0)
       = OK (data6, c4, ub2)
    /\ out_size out = c5
    /\ out_config_size out = c5 - config
    /\ load32 (out_data out) (config + off_size)
       = u32 (round_up (out_config_size out))
    /\ (forall p,
        config <= p < c4 ->
        ~ (config + off_flags <= p < config + off_flags + 4) ->
        ~ (config + off_size <= p < config + off_size + 4) ->
        ~ (config + off_entry <= p < config + off_entry + 8) ->
        ~ (config + sizeof_e9_config_s <= p < config + sizeof_e9_config_s + 8) ->
        out_data out p = data6 p)
    /\ (forall p,
        p < config -> ~ elf_written opts B (out_data out0) p ->
        out_data out p = data6 p).
Proof.
  intros H0 H Hcode Hbelow HE config c0 c1 c2 c3 c4 c5 Hno.
  apply emitElf_inv in H.
  destruct H as (out0' & data5' & H0' & H5 & H6 & Hout).
  rewrite H0 in H0'. injection H0' as <-.
  assert (Hfields : out_size out = out_size out0
                    /\ out_config_offset out = out_config_offset out0
                    /\ out_config_size out = out_config_size out0
                    /\ out_mappings out = out_mappings out0
                    /\ out_refactors out = out_refactors out0).
  { rewrite Hout. repeat split. }
  destruct Hfields as (F1 & F2 & F3 & F4 & F5).
  apply emitLoader_inv in H0.
  destruct H0 as (lay & d5 & size5 & d6 & Hl & Hrs & Hms & Hc & _ & _ & Hr
                  & _ & Hs & Hcs & Hd & _).
  cbn zeta in *.
  pose proof (emitArrays_config_offset_range _ _ _ _ _ _ _ _ _ _ _ Hl) as Hcr.
  apply emitArrays_inv in Hl.
  destruct Hl as (data1 & n & data2 & size2 & data3 & size3 & H1 & H2 & Hc2
                  & H3 & H4).
  cbn zeta in *.
  rewrite <- Hc2 in H3, H4. rewrite <- Hc in *. rewrite <- F2 in *.
  rewrite <- Hms in *. rewrite <- Hrs in *. rewrite <- F4 in *.
  rewrite <- F5 in *. fold config in H3, H4, Hr, Hs, Hcs, Hd, Hcr, H5, H6.
  assert (Hpos : 0 <= Z.of_nat (length code)) by lia.
  assert (Hpos2 : 0 <= Z.of_nat (length e9loader_elf_bin)) by lia.
  assert (Htrap : 0 <= (if option_trap_entry opts then 1 else 0) <= 1)
    by (destruct (option_trap_entry opts); lia).
  unfold sizeof_e9_config_s, sizeof_e9_map_s in *.
  assert (Hc0 : u64 (u64 (config + 72) + sizeof_e9_config_elf_s) = c0).
  { unfold c0. rewrite (u64_small (config + 72)) by lia.
    apply u64_small. lia. }
  rewrite Hc0 in H3.
  destruct (emitInits_frame _ _ _ _ _ _ H3 ltac:(lia) ltac:(lia)) as (S3 & _).
  fold c1 in S3. subst size3.
  apply emitMapArrays_inv in H4.
  destruct H4 as (data4 & size4 & ub0 & P0 & P1).
  pose proof (fold_emitRequest_cursor _ _ _ _ _ _ _ _ _ P0 ltac:(lia)) as S4.
  unfold sizeof_e9_map_s in S4. fold c2 in S4.
  rewrite u64_small in S4 by lia. subst size4.
  pose proof (fold_emitRequest_cursor _ _ _ _ _ _ _ _ _ P1 ltac:(lia)) as S5.
  unfold sizeof_e9_map_s in S5. fold c3 in S5.
  rewrite u64_small in S5 by lia.
  destruct (fold_emitRefactorMap_requests PAGE_SIZE IS_ABSOLUTE BASE_ADDRESS
              _ _ _ _ 0 _ _ Hr) as (ub2 & Hr').
  rewrite S5 in Hr', Hr.
  pose proof (fold_emitRequest_cursor _ _ _ _ _ _ _ _ _ Hr' ltac:(lia)) as S6.
  rewrite length_map in S6. unfold sizeof_e9_map_s in S6. fold c4 in S6.
  rewrite u64_small in S6 by lia. subst size5.
  destruct (emitShim_image _ _ _ _ _ _ _ _ _ Hs Hcode) as [S7 _];
    [lia | rewrite shim_bytes_length; fold c5; lia |].
  rewrite shim_bytes_length in S7. fold c5 in S7.
  pose proof (emitShim_frame _ _ _ _ _ _ _ Hs Hcode ltac:(lia)
                ltac:(rewrite shim_bytes_length; fold c5; lia)) as Fshim.
  destruct (choosePhdr B) as [ph|] eqn:Hch.
  2:{ rewrite (modifyPhdr_missing PAGE_SIZE opts) in H6 by assumption.
      discriminate. }
  destruct (modifyPhdr_fields PAGE_SIZE opts B data5' config
              (out_config_size out0) ph Hch) as (data7 & Hm7 & Hrest).
  rewrite Hm7 in H6. injection H6 as H6.
  do 8 (destruct Hrest as [_ Hrest]).
  destruct Hbelow as (Hb1 & Hb2 & Hb3).
  pose proof (Hb3 ph Hch) as Hph. unfold sizeof_Elf64_Phdr in *.
  assert (Ftail : forall p,
             config <= p ->
             ~ (config + off_flags <= p < config + off_flags + 4) ->
             ~ (config + off_entry <= p < config + off_entry + 8) ->
             ~ (config + 72 <= p < config + 72 + 8) ->
             out_data out p = out_data out0 p).
  { intros p Hp Hf He Hce. rewrite <- H6. rewrite Hrest by lia.
    apply (modifyEntry_frame_fields _ _ _ _ _ _ config H5).
    - exact (conj Hb1 (conj Hb2 Hb3)).
    - rewrite u64_small; lia.
    - exact Hp.
    - exact Hf.
    - exact He.
    - rewrite u64_small; lia. }
  exists data1, n, size2, data2, data3, data4, ub0, (lay_data lay),
    (lay_ub lay), d5, ub2.
  split; [lia|]. split; [exact H1|]. split; [exact H2|].
  split; [exact Hc2|]. split; [exact H3|]. split; [exact P0|].
  rewrite <- S5. split; [exact P1|]. rewrite S5.
  split; [exact Hr'|]. split; [rewrite F1; exact S7|].
  split; [rewrite F3, Hcs, S7; apply u64_small; lia|]. split.
  { rewrite (load32_ext _ (out_data out0)).
    + rewrite Hd, load32_store32_same. rewrite F3. unfold u32.
      apply Z.mod_mod. lia.
    + intros j Hj. unfold off_size, off_flags, off_entry in *.
      apply Ftail; lia. }
  split.
  - intros p Hp Hf Hsz He Hce. rewrite Ftail by (auto; lia).
    rewrite Hd. rewrite store32_outside by (unfold off_size in *; lia).
    apply Fshim. lia.
  - intros p Hp Hw. rewrite <- H6.
    rewrite Hrest.
    2:{ intros Hin. apply Hw. right. right. exists ph.
        unfold sizeof_Elf64_Phdr. auto. }
    rewrite (modifyEntry_frame_low _ _ _ _ _ _ H5).
    + rewrite Hd. rewrite store32_outside by (unfold off_size; lia).
      apply Fshim. lia.
    + exact (conj Hb1 (conj Hb2 Hb3)).
    + rewrite u64_small; lia.
    + exact Hp.
    + exact Hw.
Qed.

(** The entries of the table of initialisation functions. *)
Lemma emitInits_entries config inits :
  forall data size data' size',
    emitInits data config size inits = (data', size') ->
    0 <= size -> config + sizeof_e9_config_s <= size ->
    size + 8 * Z.of_nat (length inits) < 2 ^ 64 ->
    forall k init, nth_error inits k = Some init ->
                   load64 data' (size + 8 * Z.of_nat k) = u64 init.
Proof.
  unfold sizeof_e9_config_s.
  induction inits as [|init inits IH];
    intros data size data' size' H Hs Hc Hw k i0 Hk.
  - destruct k; discriminate.
  - cbn [emitInits] in H. cbn [length] in Hw. rewrite Nat2Z.inj_succ in Hw.
    rewrite u64_small in H by lia. destruct k as [|k].
    + injection Hk as <-. change (Z.of_nat 0) with 0.
      rewrite Z.mul_0_r, Z.add_0_r.
      destruct (emitInits_frame _ _ _ _ _ _ H ltac:(lia) ltac:(lia))
        as (_ & Hf).
      rewrite (load64_ext data' (store64 data size init)).
      { unfold load64, store64. apply load8_store8_same. }
      intros j Hj. unfold off_num_inits in *. rewrite Hf by lia.
      apply incr32_outside. lia.
    + cbn [nth_error] in Hk.
      replace (size + 8 * Z.of_nat (S k))
        with (size + 8 + 8 * Z.of_nat k) by lia.
      apply (IH _ _ _ _ H); auto; lia.
Qed.

(** X17: the head of the configuration record in the file that
    [emitElf] returns, when the structures of the input file lie before
    the configuration region and the region does not wrap: the record
    starts with the magic bytes [E9PATCH\0]; [base] is the loader base,
    [mmap] is [B->mmap] when that is set, [size] is the size of the
    region rounded up to a page, and [inits], [maps[0]] and [maps[1]]
    are the offsets, from the record, of the table of initialisation
    functions (right after the two records), of the preload array (after
    that table) and of the postload array (after the preload array). *)
Theorem emitElf_config_header B mappings mapping_size out0 out code :
  emitLoader B mappings mapping_size = OK out0 ->
  emitElf B mappings mapping_size = OK out ->
  prologue (B_mode B) = OK code ->
  elf_views_below B (out_data out0) (out_config_offset out) ->
  8 <= sizeof_e9_config_elf_s ->
  let config := out_config_offset out in
  let records := sizeof_e9_config_s + sizeof_e9_config_elf_s in
  let inits := 8 * Z.of_nat (length (B_inits B)) in
  let pre := sizeof_e9_map_s
             * Z.of_nat (length (array_requests true (out_mappings out))) in
  let post := sizeof_e9_map_s
              * Z.of_nat (length (array_requests false (out_mappings out)))
              + sizeof_e9_map_s * Z.of_nat (length (out_refactors out)) in
  let shim := (if option_trap_entry opts then 1 else 0)
              + Z.of_nat (length code) + 3 + 4
              + Z.of_nat (length e9loader_elf_bin) in
  config + records + inits + pre + post + shim < 2 ^ 64 ->
  out_size out = config + records + inits + pre + post + shim
  /\ out_config_size out = records + inits + pre + post + shim
  /\ read_bytes (out_data out) config 8 = magic
  /\ load64 (out_data out) (config + off_base) = u64 (option_loader_base opts)
  /\ (B_mmap B <> INTPTR_MIN ->
      load64 (out_data out) (config + off_mmap) = u64 (B_mmap B))
  /\ load32 (out_data out) (config + off_size)
     = u32 (round_up (out_config_size out))
  /\ load32 (out_data out) (config + off_inits) = u32 records
  /\ load32 (out_data out) (config + off_maps 0) = u32 (records + inits)
  /\ load32 (out_data out) (config + off_maps 1) = u32 (records + inits + pre).
Proof.
  intros H0 H Hcode Hbelow HE config records inits pre post shim Hno.
  destruct (emitElf_stages B mappings mapping_size out0 out code H0 H Hcode
              Hbelow HE)
    as (data1 & n & size2 & data2 & data3 & data4 & ub0 & data5 & ub1 & data6
        & ub2 & Hc & _ & _ & _ & H3 & P0 & P1 & Pr & Hsize & Hcs & Hsz & Ftail
        & _).
  { fold config. unfold records, inits, pre, post, shim in Hno. lia. }
  fold config in H3, P0, P1, Pr, Hsize, Hcs, Hsz, Ftail.
  unfold sizeof_e9_config_s, sizeof_e9_map_s in *.
  assert (Hpos : 0 <= Z.of_nat (length code)) by lia.
  assert (Hpos2 : 0 <= Z.of_nat (length e9loader_elf_bin)) by lia.
  assert (Htrap : 0 <= (if option_trap_entry opts then 1 else 0) <= 1)
    by (destruct (option_trap_entry opts); lia).
  destruct (emitInits_frame _ _ _ _ _ _ H3 ltac:(lia)
              ltac:(unfold records, inits, pre, post, shim in Hno; lia))
    as (_ & F3).
  destruct (fold_emitRequest_table _ _ _ _ _ _ _ _ _ _ _ _ P0 ltac:(lia)
              ltac:(lia) ltac:(unfold sizeof_e9_config_s; lia)
              ltac:(unfold sizeof_e9_map_s, records, inits, pre, post, shim in *;
                    lia)) as (_ & _ & _ & F4).
  destruct (fold_emitRequest_table _ _ _ _ _ _ _ _ _ _ _ _ P1 ltac:(lia)
              ltac:(lia) ltac:(unfold sizeof_e9_config_s; lia)
              ltac:(unfold sizeof_e9_map_s, records, inits, pre, post, shim in *;
                    lia)) as (_ & _ & _ & F5).
  destruct (fold_emitRequest_table _ _ _ _ _ _ _ _ _ _ _ _ Pr ltac:(lia)
              ltac:(lia) ltac:(unfold sizeof_e9_config_s; lia)
              ltac:(rewrite length_map;
                    unfold sizeof_e9_map_s, records, inits, pre, post, shim in *;
                    lia)) as (_ & _ & _ & F6).
  unfold off_num_maps, off_maps, off_num_inits, off_flags, off_size, off_entry
    in *.
  set (dc := emitConfig (set_config B (option_loader_base opts)) data2 config
               (config + 72 + sizeof_e9_config_elf_s)) in *.
  (* what steps (4) to (6) keep of the head of the record *)
  assert (Fhead : forall p,
             config <= p < config + 72 ->
             ~ (config + 8 <= p < config + 16) ->
             ~ (config + 24 <= p < config + 32) ->
             ~ (config + 48 <= p < config + 68) ->
             out_data out p = dc p).
  { intros p Hp Hp1 Hp2 Hp3.
    rewrite Ftail by lia. rewrite F6 by lia. rewrite F5 by lia.
    rewrite store32_outside by lia. rewrite F4 by lia.
    rewrite store32_outside by lia. apply F3; lia. }
  split; [rewrite Hsize; unfold records, inits, pre, post, shim; lia|].
  split; [rewrite Hcs; unfold records, inits, pre, post, shim; lia|].
  split; [|split; [|split; [|split; [exact Hsz|split; [|split]]]]].
  - apply (mem_holds_read _ _ magic).
    apply (mem_holds_ext dc).
    { intros q Hq. cbn [length magic] in Hq. apply Fhead; lia. }
    unfold dc, emitConfig, store32, store64, store_le, off_magic, off_base,
      off_mmap, off_inits. cbn [set_config B_mmap].
    apply mem_holds_mwrite; [cbn [length magic]; lia|].
    destruct (negb (B_mmap B =? INTPTR_MIN)).
    + apply mem_holds_mwrite; [cbn [length magic]; lia|].
      apply mem_holds_mwrite; [cbn [length magic]; lia|].
      rewrite Z.add_0_r. apply mem_holds_write.
    + apply mem_holds_mwrite; [cbn [length magic]; lia|].
      rewrite Z.add_0_r. apply mem_holds_write.
  - unfold off_base. rewrite (load64_ext _ dc) by (intros j Hj; apply Fhead; lia).
    unfold dc, emitConfig, off_magic, off_base, off_mmap, off_inits.
    cbn [set_config B_mmap].
    destruct (negb (B_mmap B =? INTPTR_MIN)); mem_simpl; reflexivity.
  - intros Hmmap. unfold off_mmap.
    rewrite (load64_ext _ dc) by (intros j Hj; apply Fhead; lia).
    unfold dc, emitConfig, off_magic, off_base, off_mmap, off_inits.
    cbn [set_config B_mmap].
    replace (B_mmap B =? INTPTR_MIN) with false by lia. cbn [negb].
    mem_simpl. reflexivity.
  - unfold off_inits.
    rewrite (load32_ext _ dc) by (intros j Hj; apply Fhead; lia).
    unfold dc, emitConfig, off_magic, off_base, off_mmap, off_inits.
    cbn [set_config B_mmap].
    mem_simpl. fold (u32 (u32 (config + 72 + sizeof_e9_config_elf_s - config))).
    unfold u32. rewrite Z.mod_mod by lia. f_equal. unfold records. lia.
  - rewrite (load32_ext _ (store32 data3 (config + (56 + 4 * 0))
                             (u32 (config + 72 + sizeof_e9_config_elf_s
                                   + 8 * Z.of_nat (length (B_inits B))
                                   - config)))).
    + rewrite load32_store32_same. unfold u32. rewrite Z.mod_mod by lia.
      f_equal. unfold records, inits. lia.
    + intros j Hj. rewrite Ftail by lia. rewrite F6 by lia.
      rewrite F5 by lia. rewrite store32_outside by lia.
      apply F4; lia.
  - rewrite (load32_ext _ (store32 data4 (config + (56 + 4 * 1))
                             (u32 (config + 72 + sizeof_e9_config_elf_s
                                   + 8 * Z.of_nat (length (B_inits B))
                                   + 12 * Z.of_nat
                                            (length (array_requests true
                                                       (out_mappings out)))
                                   - config)))).
    + rewrite load32_store32_same. unfold u32. rewrite Z.mod_mod by lia.
      f_equal. unfold records, inits, pre, sizeof_e9_map_s. lia.
    + intros j Hj. rewrite Ftail by lia. rewrite F6 by lia.
      apply F5; lia.
Qed.

Local Abbreviation record_of := (record_of PAGE_SIZE IS_ABSOLUTE BASE_ADDRESS).

(** X18: the tables of the configuration region in the file that
    [emitElf] returns, under the same conditions: the table of
    initialisation functions holds the functions of [B->inits] in order;
    the preload array holds one record per call of the preload pass, in
    order; the postload array holds the records of the postload pass
    followed by one record per refactor; every record reads back as its
    call. *)
Theorem emitElf_config_tables B mappings mapping_size out0 out code :
  emitLoader B mappings mapping_size = OK out0 ->
  emitElf B mappings mapping_size = OK out ->
  prologue (B_mode B) = OK code ->
  elf_views_below B (out_data out0) (out_config_offset out) ->
  8 <= sizeof_e9_config_elf_s ->
  let config := out_config_offset out in
  let records := sizeof_e9_config_s + sizeof_e9_config_elf_s in
  let inits := 8 * Z.of_nat (length (B_inits B)) in
  let pre := sizeof_e9_map_s
             * Z.of_nat (length (array_requests true (out_mappings out))) in
  let post := sizeof_e9_map_s
              * Z.of_nat (length (array_requests false (out_mappings out))) in
  let refs := sizeof_e9_map_s * Z.of_nat (length (out_refactors out)) in
  let shim := (if option_trap_entry opts then 1 else 0)
              + Z.of_nat (length code) + 3 + 4
              + Z.of_nat (length e9loader_elf_bin) in
  config + records + inits + pre + post + refs + shim < 2 ^ 64 ->
  (forall k init,
      nth_error (B_inits B) k = Some init ->
      load64 (out_data out) (config + records + 8 * Z.of_nat k) = u64 init)
  /\ (forall k q,
      nth_error (array_requests true (out_mappings out)) k = Some q ->
      record_of (out_data out)
        (config + records + inits + sizeof_e9_map_s * Z.of_nat k) q)
  /\ (forall k q,
      nth_error (array_requests false (out_mappings out)) k = Some q ->
      record_of (out_data out)
        (config + records + inits + pre + sizeof_e9_map_s * Z.of_nat k) q)
  /\ (forall k r,
      nth_error (out_refactors out) k = Some r ->
      record_of (out_data out)
        (config + records + inits + pre + post + sizeof_e9_map_s * Z.of_nat k)
        (refactor_request r)).
Proof.
  intros H0 H Hcode Hbelow HE config records inits pre post refs shim Hno.
  destruct (emitElf_stages B mappings mapping_size out0 out code H0 H Hcode
              Hbelow HE)
    as (data1 & n & size2 & data2 & data3 & data4 & ub0 & data5 & ub1 & data6
        & ub2 & Hc & _ & _ & _ & H3 & P0 & P1 & Pr & _ & _ & _ & Ftail & _).
  { fold config. unfold records, inits, pre, post, refs, shim in Hno. lia. }
  fold config in H3, P0, P1, Pr, Ftail.
  assert (Hpos : 0 <= Z.of_nat (length code)) by lia.
  assert (Hpos2 : 0 <= Z.of_nat (length e9loader_elf_bin)) by lia.
  assert (Htrap : 0 <= (if option_trap_entry opts then 1 else 0) <= 1)
    by (destruct (option_trap_entry opts); lia).
  unfold records, inits, pre, post, refs, shim in *.
  unfold sizeof_e9_config_s, sizeof_e9_map_s in *.
  clear records inits pre post refs shim.
  rewrite !(Z.add_assoc config 72 sizeof_e9_config_elf_s).
  pose proof (emitInits_entries _ _ _ _ _ _ H3 ltac:(lia)
                ltac:(unfold sizeof_e9_config_s; lia) ltac:(lia)) as T3.
  destruct (emitInits_frame _ _ _ _ _ _ H3 ltac:(lia) ltac:(lia)) as (_ & F3).
  destruct (fold_emitRequest_table _ _ _ _ _ _ _ _ _ _ _ _ P0 ltac:(lia)
              ltac:(lia) ltac:(unfold sizeof_e9_config_s; lia)
              ltac:(unfold sizeof_e9_map_s; lia)) as (_ & _ & T4 & F4).
  destruct (fold_emitRequest_table _ _ _ _ _ _ _ _ _ _ _ _ P1 ltac:(lia)
              ltac:(lia) ltac:(unfold sizeof_e9_config_s; lia)
              ltac:(unfold sizeof_e9_map_s; lia)) as (_ & _ & T5 & F5).
  destruct (fold_emitRequest_table _ _ _ _ _ _ _ _ _ _ _ _ Pr ltac:(lia)
              ltac:(lia) ltac:(unfold sizeof_e9_config_s; lia)
              ltac:(rewrite length_map; unfold sizeof_e9_map_s; lia))
    as (_ & _ & T6 & F6).
  unfold sizeof_e9_map_s in T4, T5, T6.
  unfold off_num_maps, off_maps, off_num_inits, off_flags, off_size, off_entry
    in *.
  split; [|split; [|split]].
  - intros k init Hk.
    assert (Hlt : (k < length (B_inits B))%nat)
      by (apply nth_error_Some; rewrite Hk; discriminate).
    rewrite <- (T3 k init Hk).
    apply load64_ext. intros j Hj.
    rewrite Ftail by lia. rewrite F6 by lia. rewrite F5 by lia.
    rewrite store32_outside by lia. rewrite F4 by lia.
    apply store32_outside. lia.
  - intros k q Hk.
    assert (Hlt : (k < length (array_requests true (out_mappings out)))%nat)
      by (apply nth_error_Some; rewrite Hk; discriminate).
    apply (record_of_ext PAGE_SIZE IS_ABSOLUTE BASE_ADDRESS data4);
      [|exact (T4 k q Hk)].
    unfold sizeof_e9_map_s. intros j Hj.
    rewrite Ftail by lia. rewrite F6 by lia. rewrite F5 by lia.
    apply store32_outside. lia.
  - intros k q Hk.
    assert (Hlt : (k < length (array_requests false (out_mappings out)))%nat)
      by (apply nth_error_Some; rewrite Hk; discriminate).
    apply (record_of_ext PAGE_SIZE IS_ABSOLUTE BASE_ADDRESS data5);
      [|exact (T5 k q Hk)].
    unfold sizeof_e9_map_s. intros j Hj.
    rewrite Ftail by lia. apply F6; lia.
  - intros k r Hk.
    assert (Hlt : (k < length (out_refactors out))%nat)
      by (apply nth_error_Some; rewrite Hk; discriminate).
    assert (Hq : nth_error (map refactor_request (out_refactors out)) k
                 = Some (refactor_request r)).
    { rewrite nth_error_map, Hk. reflexivity. }
    apply (record_of_ext PAGE_SIZE IS_ABSOLUTE BASE_ADDRESS data6);
      [|exact (T6 k _ Hq)].
    unfold sizeof_e9_map_s. intros j Hj.
    apply Ftail; lia.
Qed.

(** X19: [emitElf] keeps the file it is given, when [flattenMapping]
    writes from the base of its blob on, the structures of the input
    file lie before the configuration region and nothing wraps: after
    step (2) every byte before the cursor stays as that step left it,
    except in the structures that steps (5) and (6) rewrite (the entry
    field of the header in executable mode, the dynamic section in DSO
    mode, the program header chosen for the loader); the blobs and the
    configuration region are appended after it. *)
Theorem emitElf_keeps_file B mappings mapping_size out0 out code :
  emitLoader B mappings mapping_size = OK out0 ->
  emitElf B mappings mapping_size = OK out ->
  prologue (B_mode B) = OK code ->
  elf_views_below B (out_data out0) (out_config_offset out) ->
  8 <= sizeof_e9_config_elf_s ->
  (forall B' d base m fill p,
      p < base -> flattenMapping B' d base m fill p = d p) ->
  0 < PAGE_SIZE ->
  Forall (fun m => 0 <= m_size m) mappings ->
  let config := out_config_offset out in
  let region :=
    sizeof_e9_config_s + sizeof_e9_config_elf_s
    + 8 * Z.of_nat (length (B_inits B))
    + sizeof_e9_map_s
      * (Z.of_nat (length (array_requests true (out_mappings out)))
         + Z.of_nat (length (array_requests false (out_mappings out)))
         + Z.of_nat (length (out_refactors out)))
    + ((if option_trap_entry opts then 1 else 0) + Z.of_nat (length code)
       + 3 + 4 + Z.of_nat (length e9loader_elf_bin)) in
  config + region < 2 ^ 64 ->
  exists data1 n,
    emitRefactoredPatch (B_original_bytes B) (B_patched_bytes B)
      (round_up (B_patched_size B)) mapping_size (B_Is B) []
    = OK (data1, out_refactors out, n)
    /\ let cursor := u64 (round_up (B_patched_size B) + n) in
       (cursor + mappings_size mappings + PAGE_SIZE <= 2 ^ 64 ->
        cursor + mappings_size mappings <= config
        /\ out_size out = config + region
        /\ forall p,
            p < cursor -> ~ elf_written opts B (out_data out0) p ->
            out_data out p = data1 p).
Proof.
  intros H0 H Hcode Hbelow HE Hflat HP Hsizes config region Hno.
  destruct (emitElf_stages B mappings mapping_size out0 out code H0 H Hcode
              Hbelow HE)
    as (data1 & n & size2 & data2 & data3 & data4 & ub0 & data5 & ub1 & data6
        & ub2 & Hc & H1 & H2 & Hc2 & H3 & P0 & P1 & Pr & Hsize & _ & _ & _
        & Flow).
  { fold config. unfold region in Hno. unfold sizeof_e9_map_s in *. lia. }
  fold config in H3, P0, P1, Pr, Hsize, Flow, Hc2.
  exists data1, n. split; [exact H1|]. intros cursor Hcur.
  fold cursor in H2.
  assert (Hcr : 0 <= cursor) by apply u64_range.
  assert (Ht : 0 <= mappings_size mappings).
  { clear - Hsizes. induction Hsizes as [|a l Ha _ IHl];
      cbn [mappings_size fold_right]; [lia|].
    fold (mappings_size l). lia. }
  destruct (emitMappings_frame _ Hflat _ _ _ _ _ _ H2 Hcr Hsizes ltac:(lia))
    as (Hs2 & F2).
  pose proof (round_up_ge size2 HP ltac:(lia) ltac:(lia)) as Hge.
  rewrite <- Hc2 in Hge.
  assert (Hpos : 0 <= Z.of_nat (length code)) by lia.
  assert (Hpos2 : 0 <= Z.of_nat (length e9loader_elf_bin)) by lia.
  assert (Htrap : 0 <= (if option_trap_entry opts then 1 else 0) <= 1)
    by (destruct (option_trap_entry opts); lia).
  unfold region in *. unfold sizeof_e9_config_s, sizeof_e9_map_s in *.
  destruct (emitInits_frame _ _ _ _ _ _ H3 ltac:(lia) ltac:(lia)) as (_ & F3).
  destruct (fold_emitRequest_table _ _ _ _ _ _ _ _ _ _ _ _ P0 ltac:(lia)
              ltac:(lia) ltac:(unfold sizeof_e9_config_s; lia)
              ltac:(unfold sizeof_e9_map_s; lia)) as (_ & _ & _ & F4).
  destruct (fold_emitRequest_table _ _ _ _ _ _ _ _ _ _ _ _ P1 ltac:(lia)
              ltac:(lia) ltac:(unfold sizeof_e9_config_s; lia)
              ltac:(unfold sizeof_e9_map_s; lia)) as (_ & _ & _ & F5).
  destruct (fold_emitRequest_table _ _ _ _ _ _ _ _ _ _ _ _ Pr ltac:(lia)
              ltac:(lia) ltac:(unfold sizeof_e9_config_s; lia)
              ltac:(rewrite length_map; unfold sizeof_e9_map_s; lia))
    as (_ & _ & _ & F6).
  unfold off_num_maps, off_maps, off_num_inits in *.
  split; [lia|]. split; [rewrite Hsize; lia|].
  intros p Hp Hw.
  rewrite Flow by (auto; lia). rewrite F6 by lia. rewrite F5 by lia.
  rewrite store32_outside by lia. rewrite F4 by lia.
  rewrite store32_outside by lia. rewrite F3 by lia.
  rewrite <- (F2 p Hp).
  unfold emitConfig, write_bytes, store32, store64, store_le, off_magic,
    off_base, off_mmap, off_inits.
  destruct (negb (B_mmap (set_config B (option_loader_base opts)) =? INTPTR_MIN));
    rewrite !mwrite_outside by (cbn [length magic]; lia); reflexivity.
Qed.

(** X20: the rounding that [emitElf] applies to the file size, to the
    start of the configuration region and to [config->size], when it
    does not wrap: the result is the least multiple of the page size
    that is not below the size, less than one page above it, and the
    size itself when that is a page multiple. *)
Theorem round_up_least size :
  0 < PAGE_SIZE -> 0 <= size -> size + PAGE_SIZE <= 2 ^ 64 ->
  (PAGE_SIZE | round_up size)
  /\ size <= round_up size < size + PAGE_SIZE
  /\ (forall m, (PAGE_SIZE | m) -> size <= m -> round_up size <= m)
  /\ ((PAGE_SIZE | size) -> round_up size = size).
Proof.
  intros HP Hs Hno. unfold round_up.
  pose proof (Z.mod_pos_bound size PAGE_SIZE HP) as Hm.
  pose proof (Z.div_mod size PAGE_SIZE ltac:(lia)) as Hdm.
  destruct (Z.eqb_spec (size mod PAGE_SIZE) 0) as [E|E].
  - split; [apply Z.mod_divide; lia|]. split; [lia|]. split; [|reflexivity].
    intros m _ Hle. exact Hle.
  - rewrite u64_small by lia.
    split; [|split; [lia|split]].
    + exists (size / PAGE_SIZE + 1). lia.
    + intros m [k Hk] Hle.
      assert (size / PAGE_SIZE < k) by nia. nia.
    + intros Hd. apply Z.mod_divide in Hd; [contradiction|lia].
Qed.

(** *** Step (5) in the file that emitElf returns *)

(** The entry address that step (4) computes is the address of the byte
    at which the shim starts, and [emitShim] runs from that byte. *)
Lemma emitLoader_entry B mappings mapping_size out0 code :
  emitLoader B mappings mapping_size = OK out0 ->
  prologue (B_mode B) = OK code ->
  8 <= sizeof_e9_config_elf_s ->
  let config := out_config_offset out0 in
  let start :=
    out_size out0
    - ((if option_trap_entry opts then 1 else 0) + Z.of_nat (length code)
       + 3 + 4 + Z.of_nat (length e9loader_elf_bin)) in
  config + sizeof_e9_config_s + sizeof_e9_config_elf_s <= start ->
  0 <= config
  /\ out_size out0 < 2 ^ 64
  /\ out_entry out0 = s64 (option_loader_base opts + (start - config))
  /\ exists data5 data6,
      emitShim (B_mode B) data5 start config = OK (data6, out_size out0)
      /\ out_data out0
         = store32 data6 (config + off_size)
             (u32 (round_up (out_config_size out0))).
Proof.
  intros H0 Hcode HE config start Hstart.
  apply emitLoader_inv in H0.
  destruct H0 as (lay & d5 & size5 & data6 & Hl & _ & _ & Hc & _ & _ & Hr & He
                  & Hs & _ & Hd & _).
  cbn zeta in *.
  pose proof (emitArrays_size_range _ _ _ _ _ _ _ _ _ _ _ Hl) as Hlr.
  pose proof (emitArrays_config_offset_range _ _ _ _ _ _ _ _ _ _ _ Hl) as Hcr.
  pose proof (emitRefactorMaps_size_range _ _ _ _ _ _ _ _ _ Hr Hlr) as H5r.
  pose proof (emitShim_size_range _ _ _ _ _ _ _ _ Hs) as H6r.
  pose proof (emitShim_size _ _ _ _ _ _ _ _ _ Hs Hcode) as Hmod.
  rewrite shim_bytes_length in Hmod.
  rewrite <- Hc in *. fold config in Hcr, He, Hs, Hd.
  assert (Hsize5 : size5 = start).
  { unfold start in *. unfold u64 in Hmod. unfold sizeof_e9_config_s in *.
    set (total := (if option_trap_entry opts then 1 else 0)
                  + Z.of_nat (length code) + 3 + 4
                  + Z.of_nat (length e9loader_elf_bin)) in *.
    assert (Htot : 0 <= total)
      by (unfold total; destruct (option_trap_entry opts); lia).
    destruct (Z.lt_ge_cases (size5 + total) (2 ^ 64)) as [Hlt|Hge].
    - rewrite Z.mod_small in Hmod; lia.
    - exfalso.
      assert (Hm : (size5 + total) mod 2 ^ 64 = size5 + total - 2 ^ 64).
      { symmetry. apply Z.mod_unique with (q := 1); lia. }
      lia. }
  subst size5.
  split; [lia|]. split; [lia|]. split; [exact He|].
  exists d5, data6. split; assumption.
Qed.

(** Steps (5) and (6) close the emission: a failure of step (5) is the
    failure of [emitElf], and after a successful step (5) the chosen
    program header is all that changes. *)
Lemma emitElf_step5_fails B mappings mapping_size out0 e :
  emitLoader B mappings mapping_size = OK out0 ->
  modifyEntry B (out_data out0) (out_config_offset out0)
    (u64 (out_config_offset out0 + sizeof_e9_config_s)) (out_entry out0)
  = Err e ->
  emitElf B mappings mapping_size = Err e.
Proof.
  intros H0 H5. rewrite (emitElf_after_loader _ _ _ _ _ _ _ _ _ _ _ _ H0).
  rewrite H5. reflexivity.
Qed.

Lemma emitElf_step6 B mappings mapping_size out0 data5 php :
  emitLoader B mappings mapping_size = OK out0 ->
  modifyEntry B (out_data out0) (out_config_offset out0)
    (u64 (out_config_offset out0 + sizeof_e9_config_s)) (out_entry out0)
  = OK data5 ->
  choosePhdr B = Some php ->
  exists out,
    emitElf B mappings mapping_size = OK out
    /\ out = set_data out0 (out_data out)
    /\ forall p, ~ (php <= p < php + sizeof_Elf64_Phdr) -> out_data out p = data5 p.
Proof.
  intros H0 H5 Hch.
  rewrite (emitElf_after_loader _ _ _ _ _ _ _ _ _ _ _ _ H0).
  rewrite H5. cbn [bind].
  destruct (modifyPhdr_fields PAGE_SIZE opts B data5 (out_config_offset out0)
              (out_config_size out0) php Hch)
    as (data7 & Hm & _ & _ & _ & _ & _ & _ & _ & _ & Hframe).
  rewrite Hm. cbn [bind]. eexists. split; [reflexivity|].
  split; [reflexivity|]. exact Hframe.
Qed.

(** The shim and the loader in the file that [emitElf] returns. *)
Lemma emitElf_shim_kept B mappings mapping_size out0 out code :
  emitLoader B mappings mapping_size = OK out0 ->
  emitElf B mappings mapping_size = OK out ->
  prologue (B_mode B) = OK code ->
  elf_views_below B (out_data out0) (out_config_offset out0) ->
  8 <= sizeof_e9_config_elf_s ->
  let config := out_config_offset out0 in
  let start :=
    out_size out0
    - ((if option_trap_entry opts then 1 else 0) + Z.of_nat (length code)
       + 3 + 4 + Z.of_nat (length e9loader_elf_bin)) in
  config + sizeof_e9_config_s + sizeof_e9_config_elf_s <= start ->
  read_bytes (out_data out) start (length (shim_bytes code start config))
  = shim_bytes code start config.
Proof.
  intros H0 H Hcode Hbelow HE config start Hstart.
  destruct (emitLoader_entry B mappings mapping_size out0 code H0 Hcode HE
              Hstart) as (Hc0 & Hsz & _ & d5 & data6 & Hs & Hd).
  fold config in Hc0, Hs, Hd. fold start in Hs.
  apply emitElf_inv in H.
  destruct H as (out0' & data5 & H0' & H5 & H6 & Hout).
  rewrite H0 in H0'. injection H0' as <-.
  fold config in H5, H6.
  pose proof (shim_bytes_length code start config) as Hlen.
  assert (Htrap : 0 <= (if option_trap_entry opts then 1 else 0) <= 1)
    by (destruct (option_trap_entry opts); lia).
  destruct (emitShim_image _ _ _ _ _ _ _ _ _ Hs Hcode) as [_ Himg].
  { unfold sizeof_e9_config_s in *. lia. }
  { rewrite Hlen. unfold start. lia. }
  apply mem_holds_read. revert Himg. apply mem_holds_ext.
  intros q Hq. rewrite Hlen in Hq.
  unfold sizeof_e9_config_s in *.
  destruct (choosePhdr B) as [ph|] eqn:Hch.
  2:{ rewrite modifyPhdr_missing in H6 by assumption. discriminate. }
  destruct (modifyPhdr_fields PAGE_SIZE opts B data5 config
              (out_config_size out0) ph Hch)
    as (data7 & Hm7 & _ & _ & _ & _ & _ & _ & _ & _ & Hrest).
  rewrite Hm7 in H6. injection H6 as H6.
  destruct Hbelow as (Hb1 & Hb2 & Hb3).
  pose proof (Hb3 ph Hch) as Hph. unfold sizeof_Elf64_Phdr in *.
  rewrite <- H6. rewrite Hrest by lia.
  rewrite (modifyEntry_frame opts _ _ _ _ _ _ config H5).
  - rewrite Hd. apply store32_outside. unfold off_size. lia.
  - exact (conj Hb1 (conj Hb2 Hb3)).
  - rewrite u64_small; unfold sizeof_e9_config_s; lia.
  - lia.
  - unfold sizeof_e9_config_s. lia.
  - rewrite u64_small; unfold sizeof_e9_config_s; lia.
Qed.

(** C6: in DSO mode, once steps (1) to (4) of [emitElf] have succeeded
    with the structures of the input file before the configuration
    region, [emitElf] fails when there is no [PT_DYNAMIC] header (missing
    dynamic).  Otherwise step (5) scans the entries of the dynamic
    section in order, up to the first [DT_NULL] or the end of the
    segment.  When the scan ends without a [DT_INIT], [emitElf] fails
    (missing init).  When it meets a [DT_INIT] and a program header is
    available for the loader, [emitElf] returns a file in which the
    pointer of that entry is the entry address of the shim (the loader
    base plus the distance from [config_offset] to the byte at which the
    shim starts), [config->entry] holds the pointer that the entry held,
    and no other byte before the configuration region has changed, the
    program header of the loader apart. *)
Theorem dso_entry_rewiring B mappings mapping_size out0 :
  B_mode B = MODE_ELF_DSO ->
  emitLoader B mappings mapping_size = OK out0 ->
  let config := out_config_offset out0 in
  let data0 := out_data out0 in
  let code := [0x31; 0xFF; 0x31; 0xF6] in
  let start :=
    out_size out0
    - ((if option_trap_entry opts then 1 else 0) + Z.of_nat (length code)
       + 3 + 4 + Z.of_nat (length e9loader_elf_bin)) in
  elf_views_below B data0 config ->
  8 <= sizeof_e9_config_elf_s ->
  config + sizeof_e9_config_s + sizeof_e9_config_elf_s <= start ->
  (phdr_dynamic (B_elf B) = None ->
   emitElf B mappings mapping_size = Err ErrMissingPtDynamic
   /\ error_kind ErrMissingPtDynamic = MissingDynamic)
  /\ (forall ph,
      phdr_dynamic (B_elf B) = Some ph ->
      let dynamic := load64 data0 (ph + off_p_offset) in
      let num_dynamic := load64 data0 (ph + off_p_memsz) / sizeof_Elf64_Dyn in
      let tag i :=
        s64 (load64 data0 (dynamic + sizeof_Elf64_Dyn * i + off_d_tag)) in
      let ptr i := dynamic + sizeof_Elf64_Dyn * i + off_d_ptr in
      (forall k,
          0 <= k < num_dynamic -> tag k = DT_INIT ->
          (forall j, 0 <= j < k -> tag j <> DT_NULL /\ tag j <> DT_INIT) ->
          forall php,
            choosePhdr B = Some php ->
            php + sizeof_Elf64_Phdr <= ptr k \/ ptr k + 8 <= php ->
            exists out,
              emitElf B mappings mapping_size = OK out
              /\ out_entry out
                 = s64 (option_loader_base opts + (start - config))
              /\ read_bytes (out_data out) start
                   (length (shim_bytes code start config))
                 = shim_bytes code start config
              /\ load64 (out_data out) (ptr k) = u64 (out_entry out)
              /\ s64 (load64 (out_data out) (config + off_entry))
                 = s64 (load64 data0 (ptr k))
              /\ (forall p,
                  p < config ->
                  ~ (ptr k <= p < ptr k + 8) ->
                  ~ (php <= p < php + sizeof_Elf64_Phdr) ->
                  out_data out p = data0 p))
      /\ (forall k,
          0 <= k <= num_dynamic -> k = num_dynamic \/ tag k = DT_NULL ->
          (forall j, 0 <= j < k -> tag j <> DT_NULL /\ tag j <> DT_INIT) ->
          emitElf B mappings mapping_size = Err ErrDtInitNotFound
          /\ error_kind ErrDtInitNotFound = MissingInit)).
Proof.
  intros Hmode H0 config data0 code start Hbelow HE Hstart.
  assert (Hcode : prologue (B_mode B) = OK code) by (rewrite Hmode; reflexivity).
  destruct (emitLoader_entry B mappings mapping_size out0 code H0 Hcode HE
              Hstart) as (Hc0 & Hsz & Hentry & _).
  fold config in Hc0, Hentry. fold start in Hentry.
  assert (Htrap : 0 <= (if option_trap_entry opts then 1 else 0) <= 1)
    by (destruct (option_trap_entry opts); lia).
  assert (Hce : u64 (config + sizeof_e9_config_s) = config + sizeof_e9_config_s).
  { apply u64_small. unfold start, sizeof_e9_config_s in *. lia. }
  split.
  - intros Hph. split; [|reflexivity].
    apply (emitElf_step5_fails _ _ _ _ _ H0).
    apply (proj1 (modifyEntry_dso B data0 config _ (out_entry out0) Hmode)).
    exact Hph.
  - intros ph Hph dynamic num_dynamic tag ptr.
    pose proof Hbelow as (Hb1 & Hb2 & Hb3).
    destruct (Hb2 ph Hph) as [Hph1 Hph2].
    fold data0 dynamic num_dynamic in Hph2.
    destruct (proj2 (modifyEntry_dso B data0 config
                       (u64 (config + sizeof_e9_config_s)) (out_entry out0)
                       Hmode) ph Hph) as [Hfound Hnot].
    cbv zeta in Hfound, Hnot. rewrite Hce in Hfound, Hnot.
    set (data1 := store64 data0 (config + sizeof_e9_config_s)
                    (s64 (load64 data0 (ph + off_p_vaddr)))) in *.
    assert (Hd1 : forall q, q < config + sizeof_e9_config_s ->
                            data1 q = data0 q).
    { intros q Hq. apply store64_outside. lia. }
    unfold sizeof_Elf64_Phdr, sizeof_e9_config_s, off_p_offset, off_p_memsz,
      sizeof_Elf64_Dyn, off_d_tag, off_d_ptr, off_entry in *.
    assert (E1 : load64 data1 (ph + 8) = dynamic).
    { apply load64_ext. intros i Hi. apply Hd1. lia. }
    assert (E2 : load64 data1 (ph + 40) / 16 = num_dynamic).
    { unfold num_dynamic. f_equal. apply load64_ext. intros i Hi.
      apply Hd1. lia. }
    rewrite E1, E2 in Hfound, Hnot.
    assert (Etag : forall i, 0 <= i < num_dynamic ->
                             s64 (load64 data1 (dynamic + 16 * i + 0)) = tag i).
    { intros i Hi. unfold tag. f_equal. apply load64_ext. intros j Hj.
      apply Hd1. lia. }
    assert (Eptr : forall i, 0 <= i < num_dynamic ->
                             load64 data1 (ptr i) = load64 data0 (ptr i)).
    { intros i Hi. unfold ptr. apply load64_ext. intros j Hj.
      apply Hd1. lia. }
    split.
    + intros k Hk Htag Hbefore php Hch Hdisj.
      pose proof (Hb3 php Hch) as Hphp.
      destruct (Hfound k Hk) as (data5 & Hm & Hp & He & Hframe).
      { rewrite Etag by lia. exact Htag. }
      { intros j Hj. rewrite Etag by lia. apply Hbefore. lia. }
      fold (ptr k) in Hp, He, Hframe.
      destruct (emitElf_step6 B mappings mapping_size out0 data5 php H0)
        as (out & E & Hout & Hf6);
        [unfold sizeof_e9_config_s; fold config; rewrite Hce; exact Hm|exact Hch|].
      unfold sizeof_Elf64_Phdr in Hf6.
      assert (Hen : out_entry out = out_entry out0)
        by (rewrite Hout; reflexivity).
      exists out. split; [exact E|].
      split; [rewrite Hen; exact Hentry|].
      split; [exact (emitElf_shim_kept B mappings mapping_size out0 out code
                       H0 E Hcode Hbelow HE Hstart)|].
      split; [|split].
      * rewrite Hen, <- Hp. apply load64_ext. intros i Hi. apply Hf6.
        unfold ptr in *. lia.
      * rewrite <- (Eptr k Hk), <- He by (unfold ptr; lia).
        f_equal. apply load64_ext. intros i Hi. apply Hf6. lia.
      * intros p Hp1 Hp2 Hp3. rewrite Hf6 by exact Hp3.
        rewrite Hframe by (auto; lia). apply Hd1. lia.
    + intros k Hk Hend Hbefore. split; [|reflexivity].
      apply (emitElf_step5_fails _ _ _ _ _ H0).
      unfold sizeof_e9_config_s. fold config. rewrite Hce.
      apply (Hnot k Hk).
      * destruct Hend as [Hend|Hend]; [left; exact Hend|].
        destruct (Z.eq_dec k num_dynamic) as [Heq|Hne]; [left; exact Heq|].
        right. rewrite Etag by lia. exact Hend.
      * intros j Hj. rewrite Etag by lia. apply Hbefore. lia.
Qed.

(** X14: in executable mode, once steps (1) to (4) of [emitElf] have
    succeeded with the structures of the input file before the
    configuration region, and a program header that lies after the ELF
    header is available for the loader, [emitElf] returns a file in
    which the entry field of the ELF header is the entry address of the
    shim (the loader base plus the distance from [config_offset] to the
    byte at which the shim starts), [config->entry] holds the entry
    address that the header held, the flag [E9_FLAG_EXE] is set in
    [config->flags] and the other flags are kept, [config_elf->dynamic]
    is the address of the [PT_DYNAMIC] segment when the file has one,
    and steps (5) and (6) change no other byte, the program header of
    the loader apart. *)
Theorem exe_entry_rewiring B mappings mapping_size out0 php :
  B_mode B = MODE_ELF_EXE ->
  emitLoader B mappings mapping_size = OK out0 ->
  choosePhdr B = Some php ->
  let config := out_config_offset out0 in
  let data0 := out_data out0 in
  let eh := ehdr (B_elf B) in
  let code := [0x48; 0x8B; 0x3C; 0x24; 0x48; 0x8D; 0x74; 0x24; 0x08] in
  let start :=
    out_size out0
    - ((if option_trap_entry opts then 1 else 0) + Z.of_nat (length code)
       + 3 + 4 + Z.of_nat (length e9loader_elf_bin)) in
  elf_views_below B data0 config ->
  eh + sizeof_Elf64_Ehdr <= php ->
  8 <= sizeof_e9_config_elf_s ->
  config + sizeof_e9_config_s + sizeof_e9_config_elf_s <= start ->
  exists out,
    emitElf B mappings mapping_size = OK out
    /\ out_entry out = s64 (option_loader_base opts + (start - config))
    /\ read_bytes (out_data out) start (length (shim_bytes code start config))
       = shim_bytes code start config
    /\ load64 (out_data out) (eh + off_e_entry) = u64 (out_entry out)
    /\ s64 (load64 (out_data out) (config + off_entry))
       = s64 (load64 data0 (eh + off_e_entry))
    /\ load32 (out_data out) (config + off_flags)
       = u32 (Z.lor (load32 data0 (config + off_flags)) E9_FLAG_EXE)
    /\ Z.testbit (load32 (out_data out) (config + off_flags)) 0 = true
    /\ (forall ph,
        phdr_dynamic (B_elf B) = Some ph ->
        load64 (out_data out) (config + sizeof_e9_config_s)
        = u64 (load64 data0 (ph + off_p_vaddr)))
    /\ (forall p,
        ~ (eh + off_e_entry <= p < eh + off_e_entry + 8) ->
        ~ (config + off_entry <= p < config + off_entry + 8) ->
        ~ (config + off_flags <= p < config + off_flags + 4) ->
        ~ (config + sizeof_e9_config_s <= p < config + sizeof_e9_config_s + 8
           /\ phdr_dynamic (B_elf B) <> None) ->
        ~ (php <= p < php + sizeof_Elf64_Phdr) ->
        out_data out p = data0 p).
Proof.
  intros Hmode H0 Hch config data0 eh code start Hbelow Hphp HE Hstart.
  assert (Hcode : prologue (B_mode B) = OK code) by (rewrite Hmode; reflexivity).
  destruct (emitLoader_entry B mappings mapping_size out0 code H0 Hcode HE
              Hstart) as (Hc0 & Hsz & Hentry & _).
  fold config in Hc0, Hentry. fold start in Hentry.
  assert (Htrap : 0 <= (if option_trap_entry opts then 1 else 0) <= 1)
    by (destruct (option_trap_entry opts); lia).
  assert (Hce : u64 (config + sizeof_e9_config_s) = config + sizeof_e9_config_s).
  { apply u64_small. unfold start, sizeof_e9_config_s in *. lia. }
  pose proof Hbelow as (Hb1 & _ & Hb3).
  pose proof (Hb3 php Hch) as Hlow. fold eh in Hb1.
  destruct (modifyEntry_exe B data0 config (config + sizeof_e9_config_s)
              (out_entry out0) Hmode Hb1 ltac:(lia))
    as (data5 & Hm & H1 & H2 & H3 & H4 & H5 & Hframe).
  fold eh in H1, H2, Hframe.
  destruct (emitElf_step6 B mappings mapping_size out0 data5 php H0)
    as (out & E & Hout & Hf6); [fold config; rewrite Hce; exact Hm|exact Hch|].
  assert (Hen : out_entry out = out_entry out0) by (rewrite Hout; reflexivity).
  unfold sizeof_Elf64_Phdr, sizeof_Elf64_Ehdr, sizeof_e9_config_s, off_e_entry,
    off_entry, off_flags in *.
  assert (L32 : load32 (out_data out) (config + 8) = load32 data5 (config + 8)).
  { apply load32_ext. intros i Hi. apply Hf6. lia. }
  exists out. split; [exact E|].
  split; [rewrite Hen; exact Hentry|].
  split; [exact (emitElf_shim_kept B mappings mapping_size out0 out code
                   H0 E Hcode Hbelow HE Hstart)|].
  split; [|split; [|split; [|split; [|split]]]].
  - rewrite Hen, <- H1. apply load64_ext. intros i Hi. apply Hf6. lia.
  - rewrite <- H2. f_equal. apply load64_ext. intros i Hi. apply Hf6. lia.
  - rewrite L32. exact H3.
  - rewrite L32. exact H4.
  - intros ph Hph. rewrite <- (H5 ph Hph).
    apply load64_ext. intros i Hi. apply Hf6. lia.
  - intros p P1 P2 P3 P4 P5. rewrite Hf6 by exact P5.
    apply Hframe; assumption.
Qed.

(** *** The records of the mapping arrays in the file that emitElf returns *)

(** The calls of a pass, by the head of the chain, the node and the
    sub-range that each is made for. *)
Lemma In_array_requests preload mappings' q :
  In q (array_requests preload mappings') <->
  exists head node b,
    In head mappings' /\ In node (chain head) /\ m_preload node = preload
    /\ In b (getVirtualBounds node PAGE_SIZE)
    /\ q = request_of (m_offset head) node b.
Proof.
  unfold array_requests. rewrite in_flat_map. split.
  - intros (head & Hh & Hq). apply In_mapping_requests in Hq.
    destruct Hq as (node & b & Hn & Hp & Hb & ->).
    exists head, node, b. auto.
  - intros (head & node & b & Hh & Hn & Hp & Hb & ->).
    exists head. split; [exact Hh|].
    apply In_mapping_requests. exists node, b. auto.
Qed.

(** C10: the records of the two mapping arrays in the file that
    [emitElf] returns, when the structures of the input file lie before
    the configuration region and the region does not wrap.  The array of
    a pass starts after the table of initialisation functions (the
    preload array) or after the preload array (the postload array).  For
    every mapping of the set, with the file offset that step (3) gave
    it, every node of its chain that belongs to the pass (the head
    included) and every sub-range of the node, the array holds a record
    whose offset is the offset of the head of the chain plus the lower
    bound, divided by the page size, and whose address is the base of the
    node plus the lower bound, rebased and divided by the page size; and
    every record of the array is the record of such a node and
    sub-range.  The offset field of the node itself is not read. *)
Theorem map_offsets_from_chain_head B mappings mapping_size out0 out code :
  emitLoader B mappings mapping_size = OK out0 ->
  emitElf B mappings mapping_size = OK out ->
  prologue (B_mode B) = OK code ->
  elf_views_below B (out_data out0) (out_config_offset out) ->
  8 <= sizeof_e9_config_elf_s ->
  let config := out_config_offset out in
  let records := sizeof_e9_config_s + sizeof_e9_config_elf_s in
  let inits := 8 * Z.of_nat (length (B_inits B)) in
  let count (preload : bool) :=
    Z.of_nat (length (array_requests preload (out_mappings out))) in
  let pre := sizeof_e9_map_s * count true in
  let post := sizeof_e9_map_s * count false in
  let refs := sizeof_e9_map_s * Z.of_nat (length (out_refactors out)) in
  let shim := (if option_trap_entry opts then 1 else 0)
              + Z.of_nat (length code) + 3 + 4
              + Z.of_nat (length e9loader_elf_bin) in
  config + records + inits + pre + post + refs + shim < 2 ^ 64 ->
  forall preload : bool,
    let table := config + records + inits + (if preload then 0 else pre) in
    (forall head node b,
        In head (out_mappings out) -> In node (chain head) ->
        m_preload node = preload -> In b (getVirtualBounds node PAGE_SIZE) ->
        exists k,
          0 <= k < count preload
          /\ map_offset (out_data out) (table + sizeof_e9_map_s * k)
             = u32 (offset_pages PAGE_SIZE (s64 (m_offset head + b_lb b)))
          /\ map_addr (out_data out) (table + sizeof_e9_map_s * k)
             = addr_pages PAGE_SIZE BASE_ADDRESS (s64 (m_base node + b_lb b)))
    /\ (forall k,
        0 <= k < count preload ->
        exists head node b,
          In head (out_mappings out) /\ In node (chain head)
          /\ m_preload node = preload
          /\ In b (getVirtualBounds node PAGE_SIZE)
          /\ map_offset (out_data out) (table + sizeof_e9_map_s * k)
             = u32 (offset_pages PAGE_SIZE (s64 (m_offset head + b_lb b)))
          /\ map_addr (out_data out) (table + sizeof_e9_map_s * k)
             = addr_pages PAGE_SIZE BASE_ADDRESS (s64 (m_base node + b_lb b))).
Proof.
  intros H0 H Hcode Hbelow HE config records inits count pre post refs shim Hno
    preload table.
  destruct (emitElf_stages B mappings mapping_size out0 out code H0 H Hcode
              Hbelow HE)
    as (data1 & n & size2 & data2 & data3 & data4 & ub0 & data5 & ub1 & data6
        & ub2 & Hc & _ & _ & _ & H3 & P0 & P1 & Pr & _ & _ & _ & Ftail & _).
  { fold config. unfold records, inits, pre, post, refs, shim, count in Hno.
    lia. }
  fold config in H3, P0, P1, Pr, Ftail.
  assert (Hpos : 0 <= Z.of_nat (length code)) by lia.
  assert (Hpos2 : 0 <= Z.of_nat (length e9loader_elf_bin)) by lia.
  assert (Htrap : 0 <= (if option_trap_entry opts then 1 else 0) <= 1)
    by (destruct (option_trap_entry opts); lia).
  unfold records, inits, pre, post, refs, shim, count in *.
  unfold sizeof_e9_config_s, sizeof_e9_map_s in *.
  clear records inits pre post refs shim. subst table.
  rewrite !(Z.add_assoc config 72 sizeof_e9_config_elf_s).
  set (table := config + 72 + sizeof_e9_config_elf_s
                + 8 * Z.of_nat (length (B_inits B))
                + (if preload
                   then 0
                   else 12 * Z.of_nat (length (array_requests true
                                                 (out_mappings out))))).
  destruct (fold_emitRequest_table _ _ _ _ _ _ _ _ _ _ _ _ P0 ltac:(lia)
              ltac:(lia) ltac:(unfold sizeof_e9_config_s; lia)
              ltac:(unfold sizeof_e9_map_s; lia)) as (_ & _ & T4 & F4).
  destruct (fold_emitRequest_table _ _ _ _ _ _ _ _ _ _ _ _ P1 ltac:(lia)
              ltac:(lia) ltac:(unfold sizeof_e9_config_s; lia)
              ltac:(unfold sizeof_e9_map_s; lia)) as (_ & _ & T5 & F5).
  destruct (fold_emitRequest_table _ _ _ _ _ _ _ _ _ _ _ _ Pr ltac:(lia)
              ltac:(lia) ltac:(unfold sizeof_e9_config_s; lia)
              ltac:(rewrite length_map; unfold sizeof_e9_map_s; lia))
    as (_ & _ & _ & F6).
  unfold sizeof_e9_map_s in T4, T5.
  unfold off_num_maps, off_maps, off_num_inits, off_flags, off_size, off_entry
    in *.
  (* the record of the call of index [i] of the pass *)
  assert (Trec : forall i q,
             nth_error (array_requests preload (out_mappings out)) i = Some q ->
             record_of (out_data out) (table + 12 * Z.of_nat i) q).
  { intros i q Hi.
    assert (Hlt : (i < length (array_requests preload (out_mappings out)))%nat)
      by (apply nth_error_Some; rewrite Hi; discriminate).
    unfold table. destruct preload.
    - apply (record_of_ext PAGE_SIZE IS_ABSOLUTE BASE_ADDRESS data4).
      + unfold sizeof_e9_map_s. intros j Hj.
        rewrite Ftail by lia. rewrite F6 by lia. rewrite F5 by lia.
        apply store32_outside. lia.
      + rewrite Z.add_0_r. exact (T4 i q Hi).
    - apply (record_of_ext PAGE_SIZE IS_ABSOLUTE BASE_ADDRESS data5).
      + unfold sizeof_e9_map_s. intros j Hj.
        rewrite Ftail by lia. apply F6; lia.
      + exact (T5 i q Hi). }
  split.
  - intros head node b Hh Hn Hp Hb.
    assert (Hq : In (request_of (m_offset head) node b)
                   (array_requests preload (out_mappings out))).
    { apply In_array_requests. exists head, node, b. auto. }
    apply In_nth_error in Hq. destruct Hq as [i Hi].
    assert (Hlt : (i < length (array_requests preload (out_mappings out)))%nat)
      by (apply nth_error_Some; rewrite Hi; discriminate).
    destruct (Trec i _ Hi) as (Ra & Ro & _).
    exists (Z.of_nat i). split; [lia|]. split; [exact Ro|exact Ra].
  - intros k Hk.
    destruct (nth_error (array_requests preload (out_mappings out))
                (Z.to_nat k)) as [q|] eqn:Hi.
    2:{ apply nth_error_None in Hi. lia. }
    destruct (proj1 (In_array_requests preload (out_mappings out) q)
                (nth_error_In _ _ Hi))
      as (head & node & b & Hh & Hn & Hp & Hb & ->).
    destruct (Trec _ _ Hi) as (Ra & Ro & _).
    rewrite Z2Nat.id in Ra, Ro by lia.
    exists head, node, b. repeat split; assumption.
Qed.

End EmitElfMore.

Lemma dso_entry_rewiring_witness :
  exists out,
    ex_emitElf ex_opts (ex_binary MODE_ELF_DSO ET_DYN) [] 65536 = OK out
    /\ out_entry out = 0x20e9e9050
    /\ read_bytes (out_data out) (4096 + 0x50) 13
       = [0x31; 0xFF; 0x31; 0xF6; 0x48; 0x8D; 0x15; 0xA5; 0xFF; 0xFF; 0xFF;
          0x90; 0xc3]
    /\ load64 (out_data out) 256 = 0x20e9e9050
    /\ s64 (load64 (out_data out) (4096 + off_entry)) = 0x1200.
Proof.
  destruct (result_observe
              (emitLoader 4096 ex_IS_ABSOLUTE ex_BASE_ADDRESS ex_getVirtualBounds
                 ex_flattenMapping ex_loader 8 ex_opts
                 (ex_binary MODE_ELF_DSO ET_DYN) [] 65536)
              (fun o => (out_size o, out_config_offset o,
                         load64 (out_data o) 184, load64 (out_data o) 216,
                         load64 (out_data o) 232, load64 (out_data o) 248,
                         load64 (out_data o) 256))
              (4189, 4096, 232, 48, 1, 12, 0x1200)) as (out0 & E0 & Hobs).
  { vm_compute. reflexivity. }
  injection Hobs as Hsz Hco Hoff Hmemsz Htag0 Htag1 Hptr.
  assert (Hbelow : elf_views_below ex_opts (ex_binary MODE_ELF_DSO ET_DYN)
                     (out_data out0) (out_config_offset out0)).
  { rewrite Hco. split; [vm_compute; discriminate|]. split.
    - intros ph Hph. injection Hph as <-.
      change (176 + off_p_offset) with 184. change (176 + off_p_memsz) with 216.
      rewrite Hoff, Hmemsz. split; vm_compute; discriminate.
    - intros ph Hph. vm_compute in Hph. injection Hph as <-.
      vm_compute. discriminate. }
  assert (HE : 8 <= 8) by lia.
  assert (Hstart : out_config_offset out0 + sizeof_e9_config_s + 8
                   <= out_size out0
                      - ((if option_trap_entry ex_opts then 1 else 0)
                         + Z.of_nat (length [0x31; 0xFF; 0x31; 0xF6]) + 3 + 4
                         + Z.of_nat (length ex_loader))).
  { rewrite Hco, Hsz. vm_compute. discriminate. }
  destruct (proj2 (dso_entry_rewiring 4096 ex_IS_ABSOLUTE ex_BASE_ADDRESS
                     ex_getVirtualBounds ex_flattenMapping ex_loader 8 ex_opts
                     (ex_binary MODE_ELF_DSO ET_DYN) [] 65536 out0 eq_refl E0
                     Hbelow HE Hstart) 176 eq_refl) as [Hfound _].
  cbv zeta in Hfound.
  change (176 + off_p_offset) with 184 in Hfound.
  change (176 + off_p_memsz) with 216 in Hfound.
  rewrite Hoff, Hmemsz, Hsz, Hco in Hfound.
  destruct (Hfound 1) with (php := 120) as (out & E & He & Hshim & Hp & Hc & _).
  - vm_compute. split; [discriminate|reflexivity].
  - change (232 + sizeof_Elf64_Dyn * 1 + off_d_tag) with 248.
    rewrite Htag1. reflexivity.
  - intros j Hj. assert (j = 0) by lia. subst j.
    change (232 + sizeof_Elf64_Dyn * 0 + off_d_tag) with 232.
    rewrite Htag0. vm_compute. split; discriminate.
  - reflexivity.
  - left. vm_compute. discriminate.
  - exists out. split; [exact E|].
    split; [etransitivity; [exact He|]; vm_compute; reflexivity|].
    split; [exact Hshim|].
    change (232 + sizeof_Elf64_Dyn * 1 + off_d_ptr) with 256 in Hp, Hc.
    split.
    + etransitivity; [exact Hp|]. rewrite He. vm_compute. reflexivity.
    + etransitivity; [exact Hc|]. rewrite Hptr. vm_compute. reflexivity.
Defined.

Lemma exe_entry_rewiring_witness :
  exists out,
    ex_emitElf ex_opts (ex_binary MODE_ELF_EXE ET_EXEC) [] 65536 = OK out
    /\ out_entry out = 0x20e9e9050
    /\ read_bytes (out_data out) (4096 + 0x50) 18
       = [0x48; 0x8B; 0x3C; 0x24; 0x48; 0x8D; 0x74; 0x24; 0x08;
          0x48; 0x8D; 0x15; 0xA0; 0xFF; 0xFF; 0xFF; 0x90; 0xc3]
    /\ load64 (out_data out) 24 = 0x20e9e9050
    /\ s64 (load64 (out_data out) (4096 + off_entry)) = 0x1040
    /\ load32 (out_data out) (4096 + off_flags) = 1
    /\ load64 (out_data out) 4168 = 232.
Proof.
  destruct (result_observe
              (emitLoader 4096 ex_IS_ABSOLUTE ex_BASE_ADDRESS ex_getVirtualBounds
                 ex_flattenMapping ex_loader 8 ex_opts
                 (ex_binary MODE_ELF_EXE ET_EXEC) [] 65536)
              (fun o => (out_size o, out_config_offset o,
                         load64 (out_data o) 184, load64 (out_data o) 216,
                         load64 (out_data o) 24, load32 (out_data o) 4104,
                         load64 (out_data o) 192))
              (4194, 4096, 232, 48, 0x1040, 0, 232)) as (out0 & E0 & Hobs).
  { vm_compute. reflexivity. }
  injection Hobs as Hsz Hco Hoff Hmemsz Hold Hflags Hvaddr.
  assert (Hbelow : elf_views_below ex_opts (ex_binary MODE_ELF_EXE ET_EXEC)
                     (out_data out0) (out_config_offset out0)).
  { rewrite Hco. split; [vm_compute; discriminate|]. split.
    - intros ph Hph. injection Hph as <-.
      change (176 + off_p_offset) with 184. change (176 + off_p_memsz) with 216.
      rewrite Hoff, Hmemsz. split; vm_compute; discriminate.
    - intros ph Hph. vm_compute in Hph. injection Hph as <-.
      vm_compute. discriminate. }
  assert (Hphp : 0 + sizeof_Elf64_Ehdr <= 120) by (vm_compute; discriminate).
  assert (HE : 8 <= 8) by lia.
  assert (Hstart : out_config_offset out0 + sizeof_e9_config_s + 8
                   <= out_size out0
                      - ((if option_trap_entry ex_opts then 1 else 0)
                         + Z.of_nat (length [0x48; 0x8B; 0x3C; 0x24; 0x48; 0x8D;
                                             0x74; 0x24; 0x08]) + 3 + 4
                         + Z.of_nat (length ex_loader))).
  { rewrite Hco, Hsz. vm_compute. discriminate. }
  destruct (exe_entry_rewiring 4096 ex_IS_ABSOLUTE ex_BASE_ADDRESS
              ex_getVirtualBounds ex_flattenMapping ex_loader 8 ex_opts
              (ex_binary MODE_ELF_EXE ET_EXEC) [] 65536 out0 120 eq_refl E0
              eq_refl Hbelow Hphp HE Hstart)
    as (out & E & He & Hshim & Hp & Hc & Hf & _ & Hd & _).
  rewrite Hsz, Hco in *.
  exists out. split; [exact E|].
  split; [etransitivity; [exact He|]; vm_compute; reflexivity|].
  split; [exact Hshim|].
  split; [etransitivity; [exact Hp|]; rewrite He; vm_compute; reflexivity|].
  split.
  { etransitivity; [exact Hc|].
    change (ehdr (B_elf (ex_binary MODE_ELF_EXE ET_EXEC)) + off_e_entry) with 24.
    rewrite Hold. vm_compute. reflexivity. }
  split.
  { etransitivity; [exact Hf|].
    change (4096 + off_flags) with 4104. rewrite Hflags. vm_compute. reflexivity. }
  etransitivity; [exact (Hd 176 eq_refl)|].
  change (176 + off_p_vaddr) with 192. rewrite Hvaddr. vm_compute. reflexivity.
Defined.

Lemma map_offsets_from_chain_head_witness :
  exists out,
    ex_emitElf ex_opts (ex_binary MODE_ELF_EXE ET_EXEC) [ex_chain_mapping] 65536
    = OK out
    /\ out_mappings out
       = [mkMapping 0x10000 8192 4096 5 true
            (Some (mkMapping 0x30000 4096 0x7000 3 true None))]
    /\ (exists k,
           0 <= k < 2
           /\ map_offset (out_data out) (12288 + 80 + 12 * k) = 1
           /\ map_addr (out_data out) (12288 + 80 + 12 * k) = 0x30)
    /\ map_addr (out_data out) (12288 + 80 + 12 * 1) = 0x30
    /\ map_offset (out_data out) (12288 + 80 + 12 * 1) = 1
    /\ offset_pages 4096 0x7000 = 7.
Proof.
  destruct (result_observe
              (emitLoader 4096 ex_IS_ABSOLUTE ex_BASE_ADDRESS ex_getVirtualBounds
                 ex_flattenMapping ex_loader 8 ex_opts
                 (ex_binary MODE_ELF_EXE ET_EXEC) [ex_chain_mapping] 65536)
              (fun o => (load64 (out_data o) 184, load64 (out_data o) 216))
              (232, 48)) as (out0 & E0 & Hobs0).
  { vm_compute. reflexivity. }
  destruct (result_observe
              (ex_emitElf ex_opts (ex_binary MODE_ELF_EXE ET_EXEC)
                 [ex_chain_mapping] 65536)
              (fun o => (out_config_offset o, out_mappings o, out_refactors o,
                         map_addr (out_data o) (12288 + 80 + 12 * 1)))
              (12288,
               [mkMapping 0x10000 8192 4096 5 true
                  (Some (mkMapping 0x30000 4096 0x7000 3 true None))],
               [], 0x30))
    as (out & E & Hobs).
  { vm_compute. reflexivity. }
  injection Hobs0 as Hoff Hmemsz. injection Hobs as Hco Hm Hr Haddr.
  exists out. split; [exact E|]. split; [exact Hm|].
  destruct (map_offsets_from_chain_head 4096 ex_IS_ABSOLUTE ex_BASE_ADDRESS
              ex_getVirtualBounds ex_flattenMapping ex_loader 8 ex_opts
              (ex_binary MODE_ELF_EXE ET_EXEC) [ex_chain_mapping] 65536 out0 out
              [0x48; 0x8B; 0x3C; 0x24; 0x48; 0x8D; 0x74; 0x24; 0x08]
              E0 E eq_refl) with (preload := true)
    as (Tnode & Trec).
  - rewrite Hco. split; [vm_compute; discriminate|]. split.
    + intros ph Hph. injection Hph as <-.
      change (176 + off_p_offset) with 184. change (176 + off_p_memsz) with 216.
      rewrite Hoff, Hmemsz.
      split; vm_compute; discriminate.
    + intros ph Hph. vm_compute in Hph. injection Hph as <-.
      vm_compute. discriminate.
  - lia.
  - rewrite Hco, Hm, Hr. vm_compute. reflexivity.
  - rewrite Hco, Hm in *.
    split; [|split; [exact Haddr|split; [|reflexivity]]].
    + destruct (Tnode
                  (mkMapping 0x10000 8192 4096 5 true
                     (Some (mkMapping 0x30000 4096 0x7000 3 true None)))
                  (mkMapping 0x30000 4096 0x7000 3 true None)
                  (mkBounds 0 4096))
        as (k & Hk & Ho & Ha).
      * left. reflexivity.
      * right. left. reflexivity.
      * reflexivity.
      * left. reflexivity.
      * exists k. split; [exact Hk|]. split; [exact Ho|exact Ha].
    + destruct (Trec 1) as (head & node & b & Hh & Hn & _ & Hb & Ho & _).
      * vm_compute. split; [discriminate|reflexivity].
      * destruct Hh as [<-|[]].
        destruct Hn as [<-|[<-|[]]]; destruct Hb as [<-|[]]; exact Ho.
Defined.

Lemma emitElf_success_requires_witness :
  exists out,
    ex_emitElf ex_opts (ex_binary MODE_ELF_DSO ET_DYN) [] 65536 = OK out
    /\ (exists ph, phdr_dynamic (B_elf (ex_binary MODE_ELF_DSO ET_DYN)) = Some ph)
    /\ (exists ph, choosePhdr ex_opts (ex_binary MODE_ELF_DSO ET_DYN) = Some ph)
    /\ out_B_config out = 0x20e9e9000
    /\ out_ub out <= 0x20e9e9000.
Proof.
  destruct (result_observe
              (ex_emitElf ex_opts (ex_binary MODE_ELF_DSO ET_DYN) [] 65536)
              (fun _ => tt) tt) as (out & E & _).
  { vm_compute. reflexivity. }
  exists out. split; [exact E|].
  destruct (emitElf_success_requires _ _ _ _ _ _ _ _ _ _ _ _ E)
    as ([Hm|[_ Hd]] & Hp & Hc & Hu).
  - discriminate Hm.
  - split; [exact Hd|]. split; [exact Hp|]. split; [exact Hc|exact Hu].
Defined.

Lemma emitElf_config_size_witness :
  exists out,
    ex_emitElf ex_opts ex_init_binary [ex_mapping] 65536 = OK out
    /\ out_config_size out = 80 + 16 + 12 * 3 + 18
    /\ out_size out = out_config_offset out + 150.
Proof.
  destruct (result_observe
              (ex_emitElf ex_opts ex_init_binary [ex_mapping] 65536)
              (fun o => (out_config_offset o, out_mappings o, out_refactors o))
              (16384,
               [mkMapping 0x10000 8192 8192 5 true
                  (Some (mkMapping 0x30000 4096 777 3 true None))],
               [mkRefactor 0x400000 4096 0 4096]))
    as (out & E & Hobs).
  { vm_compute. reflexivity. }
  injection Hobs as Hco Hm Hr.
  exists out. split; [exact E|].
  pose proof (emitElf_config_size 4096 ex_IS_ABSOLUTE ex_BASE_ADDRESS
                ex_getVirtualBounds ex_flattenMapping ex_loader 8 ex_opts
                ex_init_binary [ex_mapping] 65536 out
                [0x48; 0x8B; 0x3C; 0x24; 0x48; 0x8D; 0x74; 0x24; 0x08]
                E eq_refl) as Hsize.
  cbv zeta in Hsize. rewrite Hco, Hm, Hr in Hsize.
  destruct Hsize as [H1 H2]. rewrite Hco. split.
  - etransitivity; [exact H2|]. vm_compute. reflexivity.
  - etransitivity; [exact H1|]. vm_compute. reflexivity.
Defined.

Lemma emitElf_config_header_witness :
  exists out,
    ex_emitElf ex_opts ex_init_binary [ex_mapping] 65536 = OK out
    /\ read_bytes (out_data out) 16384 8 = [69; 57; 80; 65; 84; 67; 72; 0]
    /\ load64 (out_data out) (16384 + off_base) = 0x20e9e9000
    /\ load32 (out_data out) (16384 + off_size) = 4096
    /\ load32 (out_data out) (16384 + off_inits) = 80
    /\ load32 (out_data out) (16384 + off_maps 0) = 96
    /\ load32 (out_data out) (16384 + off_maps 1) = 120.
Proof.
  destruct (result_observe
              (emitLoader 4096 ex_IS_ABSOLUTE ex_BASE_ADDRESS ex_getVirtualBounds
                 ex_flattenMapping ex_loader 8 ex_opts
                 ex_init_binary [ex_mapping] 65536)
              (fun o => (load64 (out_data o) 184, load64 (out_data o) 216))
              (232, 48)) as (out0 & E0 & Hobs0).
  { vm_compute. reflexivity. }
  destruct (result_observe
              (ex_emitElf ex_opts ex_init_binary [ex_mapping] 65536)
              (fun o => (out_config_offset o, out_mappings o, out_refactors o))
              (16384,
               [mkMapping 0x10000 8192 8192 5 true
                  (Some (mkMapping 0x30000 4096 777 3 true None))],
               [mkRefactor 0x400000 4096 0 4096]))
    as (out & E & Hobs).
  { vm_compute. reflexivity. }
  injection Hobs0 as Hoff Hmemsz. injection Hobs as Hco Hm Hr.
  exists out. split; [exact E|].
  destruct (emitElf_config_header 4096 ex_IS_ABSOLUTE ex_BASE_ADDRESS
              ex_getVirtualBounds ex_flattenMapping ex_loader 8 ex_opts
              ex_init_binary [ex_mapping] 65536 out0 out
              [0x48; 0x8B; 0x3C; 0x24; 0x48; 0x8D; 0x74; 0x24; 0x08]
              E0 E eq_refl)
    as (_ & Hcs & Hmagic & Hbase & _ & Hsz & Hin & Hm0 & Hm1).
  - rewrite Hco. split; [vm_compute; discriminate|]. split.
    + intros ph Hph. injection Hph as <-.
      change (176 + off_p_offset) with 184. change (176 + off_p_memsz) with 216.
      rewrite Hoff, Hmemsz.
      split; vm_compute; discriminate.
    + intros ph Hph. vm_compute in Hph. injection Hph as <-.
      vm_compute. discriminate.
  - lia.
  - rewrite Hco, Hm, Hr. vm_compute. reflexivity.
  - rewrite Hcs in Hsz. rewrite Hco, Hm, Hr in *.
    split; [exact Hmagic|].
    split; [etransitivity; [exact Hbase|]; vm_compute; reflexivity|].
    split; [etransitivity; [exact Hsz|]; vm_compute; reflexivity|].
    split; [etransitivity; [exact Hin|]; vm_compute; reflexivity|].
    split; [etransitivity; [exact Hm0|]; vm_compute; reflexivity|].
    etransitivity; [exact Hm1|]. vm_compute. reflexivity.
Defined.

Lemma emitElf_config_tables_witness :
  exists out,
    ex_emitElf ex_opts ex_init_binary [ex_mapping] 65536 = OK out
    /\ load64 (out_data out) (16384 + 80 + 8) = 0x402000
    /\ map_addr (out_data out) (16384 + 96 + 12) = 0x30
    /\ map_addr (out_data out) (16384 + 120) = 0x400
    /\ map_offset (out_data out) (16384 + 120) = 1
    /\ map_w (out_data out) (16384 + 120) = 0.
Proof.
  destruct (result_observe
              (emitLoader 4096 ex_IS_ABSOLUTE ex_BASE_ADDRESS ex_getVirtualBounds
                 ex_flattenMapping ex_loader 8 ex_opts
                 ex_init_binary [ex_mapping] 65536)
              (fun o => (load64 (out_data o) 184, load64 (out_data o) 216))
              (232, 48)) as (out0 & E0 & Hobs0).
  { vm_compute. reflexivity. }
  destruct (result_observe
              (ex_emitElf ex_opts ex_init_binary [ex_mapping] 65536)
              (fun o => (out_config_offset o, out_mappings o, out_refactors o))
              (16384,
               [mkMapping 0x10000 8192 8192 5 true
                  (Some (mkMapping 0x30000 4096 777 3 true None))],
               [mkRefactor 0x400000 4096 0 4096]))
    as (out & E & Hobs).
  { vm_compute. reflexivity. }
  injection Hobs0 as Hoff Hmemsz. injection Hobs as Hco Hm Hr.
  exists out. split; [exact E|].
  destruct (emitElf_config_tables 4096 ex_IS_ABSOLUTE ex_BASE_ADDRESS
              ex_getVirtualBounds ex_flattenMapping ex_loader 8 ex_opts
              ex_init_binary [ex_mapping] 65536 out0 out
              [0x48; 0x8B; 0x3C; 0x24; 0x48; 0x8D; 0x74; 0x24; 0x08]
              E0 E eq_refl)
    as (Tin & Tpre & _ & Tref).
  - rewrite Hco. split; [vm_compute; discriminate|]. split.
    + intros ph Hph. injection Hph as <-.
      change (176 + off_p_offset) with 184. change (176 + off_p_memsz) with 216.
      rewrite Hoff, Hmemsz.
      split; vm_compute; discriminate.
    + intros ph Hph. vm_compute in Hph. injection Hph as <-.
      vm_compute. discriminate.
  - lia.
  - rewrite Hco, Hm, Hr. vm_compute. reflexivity.
  - rewrite Hco, Hm, Hr in *.
    split; [exact (Tin 1%nat 0x402000 eq_refl)|].
    destruct (Tpre 1%nat (mkMapRequest 0x30000 4096 8192 true true false)
                eq_refl) as (P1 & _).
    split; [exact P1|].
    destruct (Tref 0%nat (mkRefactor 0x400000 4096 0 4096) eq_refl)
      as (R1 & R2 & _ & _ & R5 & _).
    split; [exact R1|]. split; [exact R2|exact R5].
Defined.

Lemma emitElf_keeps_file_witness :
  exists out data1 n,
    ex_emitElf ex_opts ex_init_binary [ex_mapping] 65536 = OK out
    /\ emitRefactoredPatch 4096 ex_opts (B_original_bytes ex_init_binary)
         (B_patched_bytes ex_init_binary) 4096 65536 (B_Is ex_init_binary) []
       = OK (data1, out_refactors out, n)
    /\ out_data out 0x200 = data1 0x200.
Proof.
  destruct (result_observe
              (emitLoader 4096 ex_IS_ABSOLUTE ex_BASE_ADDRESS ex_getVirtualBounds
                 ex_flattenMapping ex_loader 8 ex_opts
                 ex_init_binary [ex_mapping] 65536)
              (fun o => (load64 (out_data o) 184, load64 (out_data o) 216))
              (232, 48)) as (out0 & E0 & Hobs0).
  { vm_compute. reflexivity. }
  destruct (result_observe
              (ex_emitElf ex_opts ex_init_binary [ex_mapping] 65536)
              (fun o => (out_config_offset o, out_mappings o, out_refactors o))
              (16384,
               [mkMapping 0x10000 8192 8192 5 true
                  (Some (mkMapping 0x30000 4096 777 3 true None))],
               [mkRefactor 0x400000 4096 0 4096]))
    as (out & E & Hobs).
  { vm_compute. reflexivity. }
  destruct (result_observe
              (emitRefactoredPatch 4096 ex_opts (B_original_bytes ex_init_binary)
                 (B_patched_bytes ex_init_binary) 4096 65536
                 (B_Is ex_init_binary) [])
              snd 4096) as (x & Ex & Hx).
  { vm_compute. reflexivity. }
  injection Hobs0 as Hoff Hmemsz. injection Hobs as Hco Hm Hr.
  destruct (emitElf_keeps_file 4096 ex_IS_ABSOLUTE ex_BASE_ADDRESS
              ex_getVirtualBounds ex_flattenMapping ex_loader 8 ex_opts
              ex_init_binary [ex_mapping] 65536 out0 out
              [0x48; 0x8B; 0x3C; 0x24; 0x48; 0x8D; 0x74; 0x24; 0x08]
              E0 E eq_refl)
    as (data1 & n & H1 & Hkeep).
  - rewrite Hco. split; [vm_compute; discriminate|]. split.
    + intros ph Hph. injection Hph as <-.
      change (176 + off_p_offset) with 184. change (176 + off_p_memsz) with 216.
      rewrite Hoff, Hmemsz.
      split; vm_compute; discriminate.
    + intros ph Hph. vm_compute in Hph. injection Hph as <-.
      vm_compute. discriminate.
  - lia.
  - intros B' d base m fill p Hp. unfold ex_flattenMapping.
    apply mwrite_outside. left. exact Hp.
  - lia.
  - repeat constructor. vm_compute. discriminate.
  - rewrite Hco, Hm, Hr. vm_compute. reflexivity.
  - exists out, data1, n. split; [exact E|]. split; [exact H1|].
    assert (Hn : n = 4096).
    { change (round_up 4096 (B_patched_size ex_init_binary)) with 4096 in H1.
      destruct x as [[xd xr] xn]. cbn [snd] in Hx.
      rewrite Ex in H1. injection H1 as _ _ <-. exact Hx. }
    subst n. cbv zeta in Hkeep.
    destruct Hkeep as (_ & _ & Hp).
    + vm_compute. discriminate.
    + apply Hp.
      * vm_compute. reflexivity.
      * intros [[_ Hin]|[[Hmode _]|(ph & Hc & Hin)]].
        -- unfold ex_init_binary, ex_elf, off_e_entry in Hin.
           cbn [B_elf ehdr] in Hin. lia.
        -- discriminate Hmode.
        -- vm_compute in Hc. injection Hc as <-.
           unfold sizeof_Elf64_Phdr in Hin. lia.
Defined.

Lemma round_up_least_witness :
  round_up 4096 280 = 4096 /\ round_up 4096 8192 = 8192.
Proof.
  assert (HP : 0 < 4096) by lia.
  assert (Hno : 8192 + 4096 <= 2 ^ 64) by lia.
  assert (Hs : 0 <= 8192) by lia.
  split; [reflexivity|].
  apply (round_up_least 4096 8192 HP Hs Hno).
  exists 2. reflexivity.
Defined.

(** ** emitRefactoredPatch: the refactors it plans *)

Lemma s64_range (x : Z) : - 2 ^ 63 <= s64 x < 2 ^ 63.
Proof.
  unfold s64. pose proof (Z.mod_pos_bound (x + 2 ^ 63) (2 ^ 64) ltac:(lia)).
  lia.
Qed.

Lemma divisor_half (p : Z) : 0 < p < 2 ^ 64 -> (p | 2 ^ 64) -> p <= 2 ^ 63.
Proof.
  intros Hp [k Hk].
  assert (2 <= k) by nia. nia.
Qed.

(** Step #2 changes the patched offsets only. *)
Lemma restore_pages_fields original :
  forall rs data size data' size' rs',
    restore_pages original data size rs = (data', size', rs') ->
    Forall2 (fun r r' => r_addr r' = r_addr r /\ r_size r' = r_size r
                         /\ r_original_offset r' = r_original_offset r) rs rs'.
Proof.
  induction rs as [|r rs IH]; intros data size data' size' rs' H;
    cbn [restore_pages] in H.
  - injection H as _ _ <-. constructor.
  - destruct (restore_pages original _ _ rs) as [[d1 s1] l1] eqn:E.
    injection H as _ _ <-. constructor; [|eapply IH; exact E].
    cbn [set_patched_offset r_addr r_size r_original_offset]. auto.
Qed.

Section PlannerMore.

Variable PAGE_SIZE : Z.
Variable opts : Options.

Local Abbreviation page_floor := (page_floor PAGE_SIZE).
Local Abbreviation page_offsets := (page_offsets PAGE_SIZE).
Local Abbreviation find_refactoring := (find_refactoring PAGE_SIZE).
Local Abbreviation findRefactorings := (findRefactorings PAGE_SIZE).
Local Abbreviation emitRefactoredPatch := (emitRefactoredPatch PAGE_SIZE opts).
Local Abbreviation dirty_pages := (dirty_pages PAGE_SIZE).
Local Abbreviation page_has_instr := (page_has_instr PAGE_SIZE).
Local Abbreviation planned := (planned PAGE_SIZE).
Local Abbreviation planned_state := (planned_state PAGE_SIZE).

(** One turn of the search keeps the shape of the refactors. *)
Lemma find_refactoring_planned (S : Z -> Prop) original data mapping_size Is
    st offset st' :
  0 < PAGE_SIZE < 2 ^ 64 -> (PAGE_SIZE | 2 ^ 64) ->
  find_refactoring original data mapping_size Is st offset = OK st' ->
  (mem_eqb original data offset PAGE_SIZE = false -> S offset) ->
  planned_state S st -> planned_state S st'.
Proof.
  intros HP HD H HS (Hc & Hr). destruct st as [c rs]. cbn [fst snd] in *.
  pose proof (divisor_half _ HP HD) as Hhalf.
  unfold find_refactoring in H.
  destruct (mem_eqb original data offset PAGE_SIZE).
  { injection H as <-. split; auto. }
  specialize (HS eq_refl).
  destruct (lower_bound Is offset) as [ins|]; [|discriminate].
  destruct (Z.eqb_spec (page_floor (I_offset ins)) offset) as [Eo|Eo];
    [|discriminate]. cbn [negb] in H.
  pose proof (s64_range (u64 (I_addr ins) - u64 (I_addr ins) mod PAGE_SIZE))
    as Hrange. fold (page_floor (I_addr ins)) in Hrange.
  pose proof (page_floor_divide PAGE_SIZE ltac:(lia) HD (I_addr ins)) as Hdiv.
  destruct ((curr_addr c <? 0) || (page_floor (I_addr ins) <? curr_addr c)
            || (s64 (curr_addr c + curr_size c + mapping_size)
                <? page_floor (I_addr ins))) eqn:E.
  - injection H as <-. unfold planned_state.
    cbn [fst snd curr_addr curr_offset curr_size]. split.
    + intros H0. unfold planned, newRefactor.
      cbn [r_addr r_size r_original_offset].
      rewrite Eo. repeat split; auto; try lia. apply Z.divide_refl.
    + destruct (Z.geb_spec (curr_addr c) 0) as [H0|H0]; auto.
      apply Forall_app. split; auto.
  - injection H as <-. unfold planned_state.
    cbn [fst snd curr_addr curr_offset curr_size].
    apply orb_false_iff in E. destruct E as [E _].
    apply orb_false_iff in E. destruct E as [E1 E2].
    assert (H0 : 0 <= curr_addr c) by lia.
    destruct (Hc H0) as (Ha & Hda & Hs & Hds & Ho).
    unfold newRefactor in *. cbn [r_addr r_size r_original_offset] in *.
    split; auto. intros _. unfold planned.
    cbn [r_addr r_size r_original_offset].
    replace (curr_size c
             + (page_floor (I_addr ins) + PAGE_SIZE - (curr_addr c + curr_size c)))
      with (page_floor (I_addr ins) + PAGE_SIZE - curr_addr c) by lia.
    rewrite u64_small by lia.
    repeat split; auto; try lia.
    apply Z.divide_sub_r; auto. apply Z.divide_add_r; auto.
    apply Z.divide_refl.
Qed.

Lemma fold_find_refactoring_planned (S : Z -> Prop) original data mapping_size
    Is l :
  0 < PAGE_SIZE < 2 ^ 64 -> (PAGE_SIZE | 2 ^ 64) ->
  (forall o, In o l -> mem_eqb original data o PAGE_SIZE = false -> S o) ->
  forall st st',
    fold_result (find_refactoring original data mapping_size Is) l st = OK st' ->
    planned_state S st -> planned_state S st'.
Proof.
  intros HP HD. induction l as [|o l IH]; intros HS st st' H Hst;
    cbn [fold_result] in H.
  - injection H as <-. exact Hst.
  - apply bind_OK_inv in H. destruct H as (st1 & H1 & H2).
    apply (IH (fun o' Ho' => HS o' (or_intror Ho')) st1 st' H2).
    eapply find_refactoring_planned; eauto.
    apply HS. left. reflexivity.
Qed.

(** One turn of the search adds at most one refactor, and none for a
    page that is not patched. *)
Lemma find_refactoring_count original data mapping_size Is st offset st' :
  find_refactoring original data mapping_size Is st offset = OK st' ->
  (planned_count st'
   <= planned_count st
      + (if mem_eqb original data offset PAGE_SIZE then 0 else 1))%nat.
Proof.
  intros H. destruct st as [c rs]. unfold find_refactoring in H.
  destruct (mem_eqb original data offset PAGE_SIZE).
  { injection H as <-. lia. }
  destruct (lower_bound Is offset) as [ins|]; [|discriminate].
  destruct (negb (page_floor (I_offset ins) =? offset)); [discriminate|].
  destruct ((curr_addr c <? 0) || (page_floor (I_addr ins) <? curr_addr c)
            || (s64 (curr_addr c + curr_size c + mapping_size)
                <? page_floor (I_addr ins))) eqn:E;
    injection H as <-; unfold planned_count;
    cbn [fst snd curr_addr curr_offset curr_size].
  - destruct (Z.geb_spec (curr_addr c) 0) as [H0|H0].
    + rewrite length_app. cbn [length].
      replace (0 <=? curr_addr c) with true by lia.
      destruct (0 <=? page_floor (I_addr ins)); lia.
    + replace (0 <=? curr_addr c) with false by lia.
      destruct (0 <=? page_floor (I_addr ins)); lia.
  - lia.
Qed.

Lemma fold_find_refactoring_count original data mapping_size Is l :
  forall st st',
    fold_result (find_refactoring original data mapping_size Is) l st = OK st' ->
    (planned_count st'
     <= planned_count st
        + length (filter (fun o => negb (mem_eqb original data o PAGE_SIZE)) l))%nat.
Proof.
  induction l as [|o l IH]; intros st st' H; cbn [fold_result] in H.
  - injection H as <-. cbn [filter length]. lia.
  - apply bind_OK_inv in H. destruct H as (st1 & H1 & H2).
    apply find_refactoring_count in H1. apply IH in H2.
    cbn [filter]. destruct (mem_eqb original data o PAGE_SIZE);
      cbn [negb length] in *; lia.
Qed.

(** X21: the refactors that [emitRefactoredPatch] returns, for a page
    size that divides 2^64: each has an address that is not negative and
    is a page multiple, a size of at least one page that is a page
    multiple, and as its file offset the offset of a page that differs
    from the original file; there are at most as many refactors as there
    are such pages. *)
Theorem emitRefactoredPatch_plan original data size mapping_size Is data' rs n :
  0 < PAGE_SIZE < 2 ^ 64 -> (PAGE_SIZE | 2 ^ 64) ->
  emitRefactoredPatch original data size mapping_size Is [] = OK (data', rs, n) ->
  Forall (planned (fun o => In o (dirty_pages original data size))) rs
  /\ (length rs <= length (dirty_pages original data size))%nat.
Proof.
  intros HP HD H. unfold emitRefactoredPatch in H.
  destruct (option_loader_static opts).
  { injection H as _ <- _. split; [constructor|cbn [length]; lia]. }
  destruct (negb (size mod PAGE_SIZE =? 0)); [discriminate|].
  apply bind_OK_inv in H. destruct H as (rs0 & H1 & H2).
  destruct (restore_pages original data size rs0) as [[d1 s1] l1] eqn:E.
  injection H2 as _ <- _.
  apply restore_pages_fields in E.
  unfold findRefactorings in H1.
  apply bind_OK_inv in H1. destruct H1 as ([c rs1] & Hf & H1).
  injection H1 as <-.
  set (S := fun o => In o (dirty_pages original data size)).
  assert (Hst : planned_state S (c, rs1)).
  { eapply (fold_find_refactoring_planned S); [exact HP|exact HD| |exact Hf|].
    - intros o Ho Hd. unfold S, dirty_pages. apply filter_In.
      split; [exact Ho|]. rewrite Hd. reflexivity.
    - split; cbn [fst snd curr_addr]; [|constructor].
      unfold INTPTR_MIN. lia. }
  pose proof (fold_find_refactoring_count _ _ _ _ _ _ _ Hf) as Hcount.
  unfold planned_count in Hcount.
  cbn [fst snd curr_addr length] in Hcount.
  change (0 <=? INTPTR_MIN) with false in Hcount.
  change (length (filter _ _))
    with (length (dirty_pages original data size)) in Hcount.
  destruct Hst as (Hc & Hr). cbn [fst snd] in Hc, Hr.
  assert (Hplan : Forall (planned S)
                    (if curr_addr c >=? 0
                     then rs1 ++ [newRefactor (curr_addr c) (curr_offset c)
                                    (curr_size c)]
                     else rs1)
                  /\ (length (if curr_addr c >=? 0
                              then rs1 ++ [newRefactor (curr_addr c)
                                             (curr_offset c) (curr_size c)]
                              else rs1)
                      <= length (dirty_pages original data size))%nat).
  { destruct (Z.geb_spec (curr_addr c) 0) as [H0|H0].
    - replace (0 <=? curr_addr c) with true in Hcount by lia.
      split; [|rewrite length_app; cbn [length]; lia].
      apply Forall_app. split; auto.
    - replace (0 <=? curr_addr c) with false in Hcount by lia.
      split; [exact Hr|]. lia. }
  destruct Hplan as (Hp1 & Hp2).
  split.
  - clear - E Hp1. induction E as [|r r' rs rs' (Ha & Hs & Ho) _ IH]; auto.
    inversion Hp1 as [|? ? Hr Hrs]; subst. constructor; auto.
    unfold planned in *. rewrite Ha, Hs, Ho. exact Hr.
  - rewrite <- (Forall2_length E). exact Hp2.
Qed.

(** One turn of the search on a patched page succeeds exactly when the
    instruction found for the page starts in it. *)
Lemma find_refactoring_total original data mapping_size Is st offset :
  mem_eqb original data offset PAGE_SIZE = false ->
  if page_has_instr Is offset
  then exists st', find_refactoring original data mapping_size Is st offset = OK st'
  else find_refactoring original data mapping_size Is st offset = Err ErrAssertion.
Proof.
  intros Hd. destruct st as [c rs]. unfold find_refactoring, page_has_instr.
  rewrite Hd.
  destruct (lower_bound Is offset) as [ins|]; [|reflexivity].
  destruct (page_floor (I_offset ins) =? offset); cbn [negb]; [|reflexivity].
  destruct ((curr_addr c <? 0) || _ || _); eauto.
Qed.

Lemma fold_find_refactoring_total original data mapping_size Is l :
  (forall o, In o l -> mem_eqb original data o PAGE_SIZE = false) ->
  forall st,
    if forallb (page_has_instr Is) l
    then exists st',
        fold_result (find_refactoring original data mapping_size Is) l st = OK st'
    else fold_result (find_refactoring original data mapping_size Is) l st
         = Err ErrAssertion.
Proof.
  induction l as [|o l IH]; intros Hd st; cbn [forallb fold_result].
  - eauto.
  - pose proof (find_refactoring_total original data mapping_size Is st o
                  (Hd o (or_introl eq_refl))) as Ho.
    destruct (page_has_instr Is o); cbn [andb].
    + destruct Ho as (st1 & ->). cbn [bind].
      apply IH. intros o' Ho'. apply Hd. right. exact Ho'.
    + rewrite Ho. reflexivity.
Qed.

Lemma dirty_pages_dirty original data size o :
  In o (dirty_pages original data size) ->
  mem_eqb original data o PAGE_SIZE = false.
Proof.
  unfold dirty_pages. intros H. apply filter_In in H. destruct H as [_ H].
  apply negb_true_iff. exact H.
Qed.

(** The search succeeds exactly when every patched page has its
    instruction. *)
Lemma findRefactorings_total original data size mapping_size Is rs :
  if forallb (page_has_instr Is) (dirty_pages original data size)
  then exists rs',
      findRefactorings original data size mapping_size Is rs = OK rs'
  else findRefactorings original data size mapping_size Is rs = Err ErrAssertion.
Proof.
  unfold findRefactorings. rewrite fold_find_refactoring_dirty.
  fold (dirty_pages original data size).
  pose proof (fold_find_refactoring_total original data mapping_size Is
                (dirty_pages original data size)
                (dirty_pages_dirty original data size)
                (mkCluster INTPTR_MIN (-1) 0, rs)) as H.
  destruct (forallb (page_has_instr Is) (dirty_pages original data size)).
  - destruct H as ([c rs1] & ->). cbn [bind]. eauto.
  - rewrite H. reflexivity.
Qed.

(** X22: unless the loader is static, [emitRefactoredPatch] returns
    exactly when the size is a page multiple and, for every page that
    differs from the original file, the first instruction at or after
    the start of the page exists and starts in that page; otherwise it
    stops on an assertion, which is the only way it fails. *)
Theorem emitRefactoredPatch_succeeds_iff original data size mapping_size Is :
  option_loader_static opts = false ->
  ((exists out,
       emitRefactoredPatch original data size mapping_size Is [] = OK out)
   <-> size mod PAGE_SIZE = 0
       /\ forall o, In o (dirty_pages original data size) ->
                    page_has_instr Is o = true)
  /\ (forall e,
         emitRefactoredPatch original data size mapping_size Is [] = Err e ->
         e = ErrAssertion /\ error_kind e = InternalError).
Proof.
  intros Hstatic. unfold emitRefactoredPatch. rewrite Hstatic.
  pose proof (findRefactorings_total original data size mapping_size Is [])
    as Hf.
  destruct (Z.eqb_spec (size mod PAGE_SIZE) 0) as [Hs|Hs]; cbn [negb].
  2:{ split.
      - split; [intros (out & H); discriminate | intros (H & _); contradiction].
      - intros e H. injection H as <-. split; reflexivity. }
  destruct (forallb (page_has_instr Is) (dirty_pages original data size))
    eqn:Hall.
  - destruct Hf as (rs & ->). cbn [bind].
    destruct (restore_pages original data size rs) as [[d1 s1] l1].
    split.
    + split; [|eauto]. intros _. split; [exact Hs|].
      rewrite forallb_forall in Hall. exact Hall.
    + intros e H. discriminate.
  - rewrite Hf. cbn [bind]. split.
    + split; [intros (out & H); discriminate|].
      intros (_ & H). rewrite <- forallb_forall in H.
      rewrite H in Hall. discriminate.
    + intros e H. injection H as <-. split; reflexivity.
Qed.

(** X23: with a static loader, or when no page differs from the original
    file (and the size is a page multiple), [emitRefactoredPatch] leaves
    the buffer as it is, plans no refactor and returns a growth of 0. *)
Theorem emitRefactoredPatch_nothing_to_do original data size mapping_size Is :
  option_loader_static opts = true
  \/ (size mod PAGE_SIZE = 0 /\ dirty_pages original data size = []) ->
  emitRefactoredPatch original data size mapping_size Is [] = OK (data, [], 0).
Proof.
  intros [Hstatic|[Hs Hd]]; unfold emitRefactoredPatch.
  - rewrite Hstatic. reflexivity.
  - destruct (option_loader_static opts); [reflexivity|].
    rewrite Hs. cbn [Z.eqb negb].
    unfold findRefactorings. rewrite fold_find_refactoring_dirty.
    fold (dirty_pages original data size). rewrite Hd.
    cbn [fold_result bind curr_addr].
    change (INTPTR_MIN >=? 0) with false. cbn [restore_pages].
    rewrite Z.sub_diag. reflexivity.
Qed.

(** X24: when the ranges of the refactors lie within the file and the
    file stays below 2^63 bytes, [emitRefactoredPatch] changes, within
    the file, only the bytes of the ranges of the refactors, and nothing
    at or after the end of the appended copies. *)
Theorem emitRefactoredPatch_frame original data size mapping_size Is data' rs n :
  emitRefactoredPatch original data size mapping_size Is [] = OK (data', rs, n) ->
  0 <= size ->
  Forall (in_file size) rs ->
  size + total_size rs < 2 ^ 63 ->
  (forall p, 0 <= p < size -> existsb (covers p) rs = false ->
             data' p = data p)
  /\ (forall p, size + n <= p -> data' p = data p).
Proof.
  intros H Hs Hin Hno. unfold emitRefactoredPatch in H.
  destruct (option_loader_static opts).
  { injection H as <- <- <-. split; reflexivity. }
  destruct (negb (size mod PAGE_SIZE =? 0)); [discriminate|].
  apply bind_OK_inv in H. destruct H as (rs0 & _ & H).
  destruct (restore_pages original data size rs0) as [[d1 s1] l1] eqn:E.
  injection H as <- <- <-.
  apply restore_pages_idem in E.
  pose proof (total_size_nonneg _ _ Hin) as Ht.
  destruct (restore_pages_spec original size _ _ _ _ _ _ E ltac:(lia) Hin Hno)
    as (I1 & _ & _ & I4 & I5 & _).
  split.
  - intros p Hp Hc. rewrite (I4 p Hp), Hc. reflexivity.
  - intros p Hp. apply I5. right. rewrite I1 in *.
    replace (size + total_size l1 - size) with (total_size l1) in Hp by lia.
    rewrite u64_small in Hp by lia. lia.
Qed.

End PlannerMore.

Lemma emitRefactoredPatch_plan_witness :
  exists data' rs n,
    emitRefactoredPatch 4096 ex_opts ex_zeros (ex_dirty [0x110; 0x2110]) 12288
      65536 [(0x110, mkInstr 0x400110 0x110); (0x2110, mkInstr 0x402110 0x2110)]
      [] = OK (data', rs, n)
    /\ Forall (planned 4096
                 (fun o => In o (dirty_pages 4096 ex_zeros
                                   (ex_dirty [0x110; 0x2110]) 12288))) rs
    /\ Nat.le (length rs)
         (length (dirty_pages 4096 ex_zeros (ex_dirty [0x110; 0x2110]) 12288)).
Proof.
  destruct (result_observe
              (emitRefactoredPatch 4096 ex_opts ex_zeros
                 (ex_dirty [0x110; 0x2110]) 12288 65536
                 [(0x110, mkInstr 0x400110 0x110);
                  (0x2110, mkInstr 0x402110 0x2110)] [])
              (fun _ => tt) tt) as ([[data' rs] n] & E & _).
  { vm_compute. reflexivity. }
  exists data', rs, n. split; [exact E|].
  assert (HP : 0 < 4096 < 2 ^ 64) by lia.
  assert (HD : (4096 | 2 ^ 64)) by (exists (2 ^ 52); reflexivity).
  exact (emitRefactoredPatch_plan 4096 ex_opts _ _ _ _ _ _ _ _ HP HD E).
Defined.

Lemma emitRefactoredPatch_succeeds_iff_witness :
  exists out,
    emitRefactoredPatch 4096 ex_opts ex_zeros (ex_dirty [0x110]) 8192 65536
      [(0x110, mkInstr 0x400110 0x110)] [] = OK out.
Proof.
  apply (proj1 (emitRefactoredPatch_succeeds_iff 4096 ex_opts ex_zeros
                  (ex_dirty [0x110]) 8192 65536
                  [(0x110, mkInstr 0x400110 0x110)] eq_refl)).
  split; [reflexivity|].
  assert (Hd : dirty_pages 4096 ex_zeros (ex_dirty [0x110]) 8192 = [0])
    by (vm_compute; reflexivity).
  intros o Ho. rewrite Hd in Ho. destruct Ho as [<-|[]].
  vm_compute. reflexivity.
Defined.

Lemma emitRefactoredPatch_nothing_to_do_witness :
  emitRefactoredPatch 4096 ex_opts ex_zeros ex_zeros 8192 65536 [] []
  = OK (ex_zeros, [], 0).
Proof.
  apply emitRefactoredPatch_nothing_to_do. right.
  split; vm_compute; reflexivity.
Defined.

Lemma emitRefactoredPatch_frame_witness :
  exists data',
    emitRefactoredPatch 4096 ex_opts ex_zeros (ex_dirty [0x110]) 8192
      65536 [(0x110, mkInstr 0x400110 0x110)] []
    = OK (data', [mkRefactor 0x400000 4096 0 8192], 4096)
    /\ data' 0x1110 = 0
    /\ data' 20000 = 0.
Proof.
  destruct (result_observe
              (emitRefactoredPatch 4096 ex_opts ex_zeros
                 (ex_dirty [0x110]) 8192 65536
                 [(0x110, mkInstr 0x400110 0x110)] [])
              (fun x => (snd (fst x), snd x))
              ([mkRefactor 0x400000 4096 0 8192], 4096))
    as ([[data' rs] n] & E & Hobs).
  { vm_compute. reflexivity. }
  cbn [fst snd] in Hobs. injection Hobs as -> ->.
  exists data'. split; [exact E|].
  destruct (emitRefactoredPatch_frame 4096 ex_opts _ _ _ _ _ _ _ _ E)
    as (Hin & Hout).
  - lia.
  - repeat constructor; vm_compute; discriminate.
  - vm_compute. reflexivity.
  - split.
    + etransitivity; [apply Hin|]; vm_compute;
        first [reflexivity | split; [discriminate|reflexivity]].
    + etransitivity; [apply Hout|]; vm_compute;
        first [reflexivity | discriminate].
Defined.
